(** * Mafia_v01_server: the session state machine of [game.controller.js]

    A shallow embedding of the game controller (the waiting room and its
    countdown, role assignment, the night ledgers, the day vote, win
    evaluation and the phase controller), of the socket handlers of
    [server.js] that read or write the session (chat, [joinRoom],
    [disconnect]), and the properties of its specification.

    Modelling conventions.
    - A Mongoose [Game] document is the record [Game]; the [players] array
      is a list in join order.
    - The two vote ledgers are Mongoose maps over JavaScript [Map]s:
      association lists in insertion order with unique keys ([map_set],
      [map_has]), whose [set] first checks the key ([checkValidKey]) and
      throws on a key that Mongoose refuses.
    - The tally [voteCount] is an ordinary JavaScript object: [JsObj] keeps
      its own properties in the order [Object.entries] enumerates them
      (canonical array indices ascending, then the other keys in creation
      order), and an assignment of a number to the key [__proto__] is
      dropped by the inherited setter.
    - [io.to(..).emit(..)] appends to a trace of [Emit]s; [game.save()] is
      the identity on the in-memory document.
    - Handlers run in the monad [M]: a state monad over the document with a
      trace and an early exit ([return res.status(400)...]).  The action
      handlers are modelled after [Game.findOne] has found the document;
      the handlers of the waiting room and of the sockets take the result
      of the lookup as [found : option Game]. *)

From Stdlib Require Import Ascii String.
From Stdlib Require Import List Arith ZArith NArith Lia Bool Permutation.
From Stdlib Require Import Sorted.
Import ListNotations.

Local Open Scope string_scope.
Local Open Scope list_scope.

(* ------------------------------------------------------------------ *)
(** ** Data model ([game.model.js]) *)

Inductive Role := Unassigned | Villager | Mafia | Godfather | Detective | Doctor.

Inductive GameState := Waiting | InProgress | Finished.

Inductive Phase :=
  PWaiting | NightMafia | NightDetective | NightDoctor | Day | PFinished.

(** The two values ever written to [detectiveResult]: ['+ve'] and ['-ve']. *)
Inductive Signal := Positive | Negative.

Definition Role_eq_dec (a b : Role) : {a = b} + {a <> b}.
Proof. decide equality. Defined.

Definition role_eqb (a b : Role) : bool :=
  if Role_eq_dec a b then true else false.

Definition state_eqb (a b : GameState) : bool :=
  match a, b with
  | Waiting, Waiting | InProgress, InProgress | Finished, Finished => true
  | _, _ => false
  end.

Definition phase_eqb (a b : Phase) : bool :=
  match a, b with
  | PWaiting, PWaiting | NightMafia, NightMafia
  | NightDetective, NightDetective | NightDoctor, NightDoctor
  | Day, Day | PFinished, PFinished => true
  | _, _ => false
  end.

Record Player := mkPlayer {
  name : string;
  role : Role;
  isAlive : bool;
  isReady : bool;
  socketId : option string
}.

(** A JavaScript [Map] from voter name to target name. *)
Definition VoteMap := list (string * string).

Record Game := mkGame {
  gameId : string;
  state : GameState;
  currentPhase : Phase;
  players : list Player;
  maxPlayers : nat;
  votes : VoteMap;
  mafiaVotes : VoteMap;
  mafiaTarget : option string;
  detectiveResult : option Signal;
  doctorSave : option string;
  lastKilled : option string
}.

(* ------------------------------------------------------------------ *)
(** ** JavaScript values used by the tallies *)

(** Numbers held by [voteCount] and returned by [Math.max]: a count, [NaN]
    (from [undefined++]) or [-Infinity] ([Math.max] of no argument). *)
Inductive jsnum := JNum (n : nat) | JNaN | JNegInf.

(** [x++] on a tally cell. *)
Definition js_succ (v : jsnum) : jsnum :=
  match v with
  | JNum n => JNum (S n)
  | JNaN => JNaN
  | JNegInf => JNegInf
  end.

(** [a === b] on numbers: [NaN] equals nothing. *)
Definition js_strict_eq (a b : jsnum) : bool :=
  match a, b with
  | JNum x, JNum y => Nat.eqb x y
  | JNegInf, JNegInf => true
  | _, _ => false
  end.

(** [a >= n] for a count [n]. *)
Definition js_ge (a : jsnum) (n : nat) : bool :=
  match a with
  | JNum x => Nat.leb n x
  | _ => false
  end.

(** [Math.max] of two arguments; [NaN] is absorbing. *)
Definition js_max2 (a b : jsnum) : jsnum :=
  match a, b with
  | JNaN, _ | _, JNaN => JNaN
  | JNegInf, x | x, JNegInf => x
  | JNum x, JNum y => JNum (Nat.max x y)
  end.

(** [Math.max(...values)]. *)
Definition math_max (values : list jsnum) : jsnum :=
  fold_left js_max2 values JNegInf.

(** A string is truthy iff it is not empty. *)
Definition truthy (s : string) : bool :=
  match s with
  | EmptyString => false
  | String _ _ => true
  end.

(** *** Property keys that are array indices

    [array_index s = Some n] when [s] is the canonical decimal form of an
    integer [n] with [0 <= n <= 2^32 - 2]. *)

Definition digit_of (c : ascii) : option N :=
  let n := N_of_ascii c in
  if (N.leb 48 n && N.leb n 57)%bool then Some (n - 48)%N else None.

Fixpoint digits_value (s : string) (acc : N) : option N :=
  match s with
  | EmptyString => Some acc
  | String c rest =>
      match digit_of c with
      | Some d => digits_value rest (10 * acc + d)%N
      | None => None
      end
  end.

Definition array_index (s : string) : option N :=
  match s with
  | EmptyString => None
  | String c rest =>
      if (Ascii.eqb c "0"%char && truthy rest)%bool then None
      else match digits_value s 0%N with
           | Some n => if N.leb n 4294967294 then Some n else None
           | None => None
           end
  end.

(** *** Ordinary objects with numeric cells *)

Definition JsObj := list (string * jsnum).

Definition proto_key : string := "__proto__".

(** Own-property lookup. *)
Fixpoint obj_own (k : string) (o : JsObj) : option jsnum :=
  match o with
  | [] => None
  | (k', v) :: rest => if String.eqb k k' then Some v else obj_own k rest
  end.

Fixpoint obj_replace (k : string) (v : jsnum) (o : JsObj) : JsObj :=
  match o with
  | [] => []
  | (k', v') :: rest =>
      if String.eqb k k' then (k', v) :: rest
      else (k', v') :: obj_replace k v rest
  end.

(** Creation of an array-index property [k] (index [i]): it is enumerated
    after the smaller indices and before everything else. *)
Fixpoint obj_insert_index (i : N) (k : string) (v : jsnum) (o : JsObj) : JsObj :=
  match o with
  | [] => [(k, v)]
  | (k', v') :: rest =>
      match array_index k' with
      | Some i' =>
          if N.ltb i' i then (k', v') :: obj_insert_index i k v rest
          else (k, v) :: o
      | None => (k, v) :: o
      end
  end.

(** [o[k] = v] for a number [v]. *)
Definition obj_set (k : string) (v : jsnum) (o : JsObj) : JsObj :=
  if String.eqb k proto_key then o
  else match obj_own k o with
       | Some _ => obj_replace k v o
       | None =>
           match array_index k with
           | Some i => obj_insert_index i k v o
           | None => o ++ [(k, v)]
           end
       end.

(** [o[k]++]: a missing (or inherited, non-numeric) cell reads as [NaN]. *)
Definition obj_incr (k : string) (o : JsObj) : JsObj :=
  match obj_own k o with
  | Some v => obj_set k (js_succ v) o
  | None => obj_set k JNaN o
  end.

Definition obj_keys (o : JsObj) : list string := map fst o.
Definition obj_values (o : JsObj) : list jsnum := map snd o.

(** *** Maps *)

Definition map_has (k : string) (m : VoteMap) : bool :=
  existsb (fun kv => String.eqb (fst kv) k) m.

(** [Map.prototype.set]: the value of an existing key is replaced in place,
    a new key is appended.  On a ledger it runs after [checkValidKey]. *)
Fixpoint map_set (k v : string) (m : VoteMap) : VoteMap :=
  match m with
  | [] => [(k, v)]
  | (k', v') :: rest =>
      if String.eqb k' k then (k', v) :: rest
      else (k', v') :: map_set k v rest
  end.

Definition map_values (m : VoteMap) : list string := map snd m.

(** [s.includes(c)] for a single character [c]. *)
Fixpoint includes_char (c : ascii) (s : string) : bool :=
  match s with
  | EmptyString => false
  | String a rest => (Ascii.eqb a c || includes_char c rest)%bool
  end.

(** The property names that Mongoose reserves. *)
Definition reservedKey (k : string) : bool :=
  (String.eqb k proto_key || String.eqb k "constructor"
   || String.eqb k "prototype")%bool.

(** The ledgers are Mongoose maps ([type: Map, of: String]): their [set]
    runs Mongoose's [checkValidKey] before the entry is written ([map_set]),
    and throws on a key that starts with [$], contains a dot or is one of
    the reserved property names. *)
Definition validMapKey (k : string) : bool :=
  (negb (String.prefix "$" k) && negb (includes_char "." k)
   && negb (reservedKey k))%bool.

(* ------------------------------------------------------------------ *)
(** ** Tallies (shared by [mafiaVote] and [dayVote]) *)

(** [game.players.forEach((p) => (voteCount[p.name] = 0))]. *)
Definition tally_init (ps : list Player) : JsObj :=
  fold_left (fun o p => obj_set (name p) (JNum 0) o) ps [].

(** [ledger.forEach((target) => voteCount[target]++)]. *)
Definition tally_votes (m : VoteMap) (o : JsObj) : JsObj :=
  fold_left (fun o t => obj_incr t o) (map_values m) o.

Definition voteCount (ps : list Player) (m : VoteMap) : JsObj :=
  tally_votes m (tally_init ps).

(** [Object.entries(voteCount).filter(([_, c]) => c === maxVotes).map(([n]) => n)]. *)
Definition candidatesOf (vc : JsObj) (maxVotes : jsnum) : list string :=
  map fst (filter (fun e => js_strict_eq (snd e) maxVotes) vc).

Definition includes (l : list string) (s : string) : bool :=
  existsb (String.eqb s) l.

(** Lines 149-166 of [mafiaVote]: the mafia target chosen from a complete
    ledger. *)
Definition resolveMafiaTarget (ps : list Player) (ledger : VoteMap)
  : option string :=
  let vc := voteCount ps ledger in
  let maxVotes := math_max (obj_values vc) in
  let candidates := candidatesOf vc maxVotes in
  match candidates with
  | [] => None
  | [c] => Some c
  | _ => find (includes candidates) (rev (map_values ledger))
  end.

Definition isMafiaRole (r : Role) : bool :=
  (role_eqb r Mafia || role_eqb r Godfather)%bool.

Definition isTownRole (r : Role) : bool :=
  (role_eqb r Villager || role_eqb r Detective || role_eqb r Doctor)%bool.

(* ------------------------------------------------------------------ *)
(** ** Field updates *)

Definition set_state (v : GameState) (g : Game) : Game :=
  mkGame (gameId g) v (currentPhase g) (players g) (maxPlayers g) (votes g)
    (mafiaVotes g) (mafiaTarget g) (detectiveResult g) (doctorSave g)
    (lastKilled g).

Definition set_currentPhase (v : Phase) (g : Game) : Game :=
  mkGame (gameId g) (state g) v (players g) (maxPlayers g) (votes g)
    (mafiaVotes g) (mafiaTarget g) (detectiveResult g) (doctorSave g)
    (lastKilled g).

Definition set_players (v : list Player) (g : Game) : Game :=
  mkGame (gameId g) (state g) (currentPhase g) v (maxPlayers g) (votes g)
    (mafiaVotes g) (mafiaTarget g) (detectiveResult g) (doctorSave g)
    (lastKilled g).

Definition set_votes (v : VoteMap) (g : Game) : Game :=
  mkGame (gameId g) (state g) (currentPhase g) (players g) (maxPlayers g) v
    (mafiaVotes g) (mafiaTarget g) (detectiveResult g) (doctorSave g)
    (lastKilled g).

Definition set_mafiaVotes (v : VoteMap) (g : Game) : Game :=
  mkGame (gameId g) (state g) (currentPhase g) (players g) (maxPlayers g)
    (votes g) v (mafiaTarget g) (detectiveResult g) (doctorSave g)
    (lastKilled g).

Definition set_mafiaTarget (v : option string) (g : Game) : Game :=
  mkGame (gameId g) (state g) (currentPhase g) (players g) (maxPlayers g)
    (votes g) (mafiaVotes g) v (detectiveResult g) (doctorSave g)
    (lastKilled g).

Definition set_detectiveResult (v : option Signal) (g : Game) : Game :=
  mkGame (gameId g) (state g) (currentPhase g) (players g) (maxPlayers g)
    (votes g) (mafiaVotes g) (mafiaTarget g) v (doctorSave g) (lastKilled g).

Definition set_doctorSave (v : option string) (g : Game) : Game :=
  mkGame (gameId g) (state g) (currentPhase g) (players g) (maxPlayers g)
    (votes g) (mafiaVotes g) (mafiaTarget g) (detectiveResult g) v
    (lastKilled g).

Definition set_lastKilled (v : option string) (g : Game) : Game :=
  mkGame (gameId g) (state g) (currentPhase g) (players g) (maxPlayers g)
    (votes g) (mafiaVotes g) (mafiaTarget g) (detectiveResult g)
    (doctorSave g) v.

Definition set_role (r : Role) (p : Player) : Player :=
  mkPlayer (name p) r (isAlive p) (isReady p) (socketId p).

Definition set_isAlive (b : bool) (p : Player) : Player :=
  mkPlayer (name p) (role p) b (isReady p) (socketId p).

(** [const x = players.find(pred); x.field = ...]: the first player that
    satisfies [pred] is updated in place. *)
Fixpoint mutate_found (pred : Player -> bool) (upd : Player -> Player)
  (ps : list Player) : list Player :=
  match ps with
  | [] => []
  | p :: rest =>
      if pred p then upd p :: rest else p :: mutate_found pred upd rest
  end.

Definition named (n : string) (p : Player) : bool := String.eqb (name p) n.

(** [a !== b] on fields that hold a string or [null]. *)
Definition opt_differs (a b : option string) : bool :=
  match a, b with
  | Some x, Some y => negb (String.eqb x y)
  | None, None => false
  | _, _ => true
  end.

(* ------------------------------------------------------------------ *)
(** ** Notifications *)

Inductive Audience :=
  | ToRoom (room : string)
  | ToSocket (socket : option string).

Inductive Killer := ByVote | ByMafia.

Inductive Winner := VillagersWin | MafiaWin.

Inductive Payload :=
  | mafiaVoteCast (voter target : string)
  | investigationResult (target : string) (result : Signal)
  | phaseChanged (phase : Phase)
  | phaseChangedKilled (phase : Phase) (killed : option string)
  | gameUpdated (snapshot : Game)
  | gameStarted (snapshot : Game)
  | audioStarted
  | playerEliminated (who : string) (killedBy : Killer)
  | dayVoteResult (eliminated : string)
  | nightResult (msg : string)
  | gameOver (winner : Winner) (gang : list string)
  | privateRole (r : Role)
  | mafiaGang (gang : list string).

Definition Emit : Type := Audience * Payload.

(* ------------------------------------------------------------------ *)
(** ** The handler monad *)

(** The exceptions that reach the [catch] of a handler: the [RangeError] of
    [Array(n)], the [TypeError] of a property read on [undefined], and the
    plain [Error] that a Mongoose map throws when it refuses a key. *)
Inductive JsError := RangeError | TypeError | MapKeyError.

Inductive Response :=
  | Status400 (msg : string)
  | Status500
  | Json (body : Game).

Inductive Flow (A : Type) :=
  | Next (a : A)
  | Exit (r : Response)
  | Throw (e : JsError).

Arguments Next {A} a.
Arguments Exit {A} r.
Arguments Throw {A} e.

Definition M (A : Type) : Type := Game -> Flow A * Game * list Emit.

Definition ret {A} (a : A) : M A := fun g => (Next a, g, []).

Definition bind {A B} (m : M A) (k : A -> M B) : M B :=
  fun g =>
    match m g with
    | (Next a, g1, e1) =>
        match k a g1 with
        | (r, g2, e2) => (r, g2, e1 ++ e2)
        end
    | (Exit r, g1, e1) => (Exit r, g1, e1)
    | (Throw e, g1, e1) => (Throw e, g1, e1)
    end.

Declare Scope handler_scope.
Delimit Scope handler_scope with handler.
Notation "x <- m ;; k" := (bind m (fun x => k))
  (at level 61, m at next level, right associativity) : handler_scope.
Notation "m ;; k" := (bind m (fun _ => k))
  (at level 61, right associativity) : handler_scope.
Local Open Scope handler_scope.

Definition get : M Game := fun g => (Next g, g, []).
Definition modify (f : Game -> Game) : M unit := fun g => (Next tt, f g, []).
Definition emit (to : Audience) (p : Payload) : M unit :=
  fun g => (Next tt, g, [(to, p)]).
Definition emitAll (l : list Emit) : M unit := fun g => (Next tt, g, l).
Definition exit {A} (r : Response) : M A := fun g => (Exit r, g, []).
Definition throw {A} (e : JsError) : M A := fun g => (Throw e, g, []).
Definition when (c : bool) (m : M unit) : M unit := if c then m else ret tt.

(** [const x = expr; if (!x) return res.status(400)...]. *)
Definition orExit {A} (o : option A) (r : Response) : M A :=
  match o with
  | Some a => ret a
  | None => exit r
  end.

(** [checkValidKey(key)], the first step of [set] on a Mongoose map. *)
Definition checkValidKey (key : string) : M unit :=
  if validMapKey key then ret tt else throw MapKeyError.

(** The [try { ... } catch (err) { res.status(500)... }] around a handler. *)
Definition tryCatch (m : M unit) : M unit :=
  fun g =>
    match m g with
    | (Throw _, g1, e1) => (Exit Status500, g1, e1)
    | r => r
    end.

(* ------------------------------------------------------------------ *)
(** ** Helper functions of the controller *)

Definition aliveWithRole (r : Role) (p : Player) : bool :=
  (role_eqb (role p) r && isAlive p)%bool.

Definition aliveMafiaP (p : Player) : bool :=
  (isMafiaRole (role p) && isAlive p)%bool.

Definition mafiaGangOf (ps : list Player) : list string :=
  map name (filter (fun p => isMafiaRole (role p)) ps).

(** [checkWinConditions(game)]. *)
Definition checkWinConditions : M unit :=
  game <- get ;;
  let alivePlayers := filter isAlive (players game) in
  let aliveMafia :=
    length (filter (fun p => isMafiaRole (role p)) alivePlayers) in
  let aliveVillagers :=
    length (filter (fun p => isTownRole (role p)) alivePlayers) in
  let gang := mafiaGangOf (players game) in
  if Nat.eqb aliveMafia 0 then
    modify (set_state Finished) ;;
    modify (set_currentPhase PFinished) ;;
    emit (ToRoom (gameId game)) (gameOver VillagersWin gang)
  else if Nat.leb aliveVillagers aliveMafia then
    modify (set_state Finished) ;;
    modify (set_currentPhase PFinished) ;;
    emit (ToRoom (gameId game)) (gameOver MafiaWin gang)
  else ret tt.

(** The kill decision of [resolveNight] (its first [if]). *)
Definition nightKill : M unit :=
  game <- get ;;
  match mafiaTarget game with
  | Some t =>
      if (truthy t && opt_differs (mafiaTarget game) (doctorSave game))%bool
      then
        match find (named t) (players game) with
        | Some targetPlayer =>
            modify (fun g =>
              set_players (mutate_found (named t) (set_isAlive false)
                             (players g)) g) ;;
            modify (set_lastKilled (Some (name targetPlayer))) ;;
            emit (ToRoom (gameId game))
                 (playerEliminated (name targetPlayer) ByMafia) ;;
            emit (ToRoom (gameId game))
                 (nightResult (String.append "Night ends with the death of "
                                 (name targetPlayer)))
        | None => ret tt
        end
      else emit (ToRoom (gameId game)) (nightResult "Night ends with no deaths")
  | None => emit (ToRoom (gameId game)) (nightResult "Night ends with no deaths")
  end.

(** The unconditional clearing of the per-night fields in [resolveNight]. *)
Definition clearNight : M unit :=
  modify (set_mafiaTarget None) ;;
  modify (set_mafiaVotes []) ;;
  modify (set_doctorSave None) ;;
  modify (set_detectiveResult None).

(** [resolveNight] up to its call of [setPhase] (lines 388-405). *)
Definition nightBody : M unit := nightKill ;; clearNight.

(** [resolveNight(game)], open in its call to [setPhase]. *)
Definition resolveNightWith (setPhase : Phase -> M unit) : M unit :=
  nightKill ;;
  clearNight ;;
  setPhase Day.

(** The body of [setPhase(game, phase)], open in its recursive calls. *)
Definition setPhaseBody (setPhase : Phase -> M unit) (phase : Phase) : M unit :=
  modify (set_currentPhase phase) ;;
  game <- get ;;
  if (phase_eqb phase NightDetective
      && negb (existsb (aliveWithRole Detective) (players game)))%bool then
    setPhase NightDoctor
  else if (phase_eqb phase NightDoctor
           && negb (existsb (aliveWithRole Doctor) (players game)))%bool then
    resolveNightWith setPhase
  else if phase_eqb phase Day then
    emit (ToRoom (gameId game)) (phaseChangedKilled phase (lastKilled game)) ;;
    modify (set_lastKilled None) ;;
    saved <- get ;;
    emit (ToRoom (gameId game)) (gameUpdated saved) ;;
    emit (ToRoom (gameId game)) audioStarted
  else if phase_eqb phase NightMafia then
    emit (ToRoom (gameId game)) (phaseChanged phase) ;;
    emit (ToRoom (gameId game)) (gameUpdated game)
  else
    emit (ToRoom (gameId game)) (gameUpdated game) ;;
    emit (ToRoom (gameId game)) (phaseChanged phase).

(** The recursion of [setPhase] unrolled [depth] times.  A request passes
    through at most [NightDetective], [NightDoctor] and [Day], so depth 3
    covers every call (see [setPhase_fixpoint]). *)
Fixpoint setPhaseN (depth : nat) (phase : Phase) : M unit :=
  match depth with
  | O => ret tt
  | S d => setPhaseBody (setPhaseN d) phase
  end.

Definition setPhase : Phase -> M unit := setPhaseN 3.

Definition resolveNight : M unit := resolveNightWith setPhase.

Arguments setPhase : simpl never.
Arguments resolveNight : simpl never.
Arguments nightKill : simpl never.
Arguments clearNight : simpl never.
Arguments checkWinConditions : simpl never.

(* ------------------------------------------------------------------ *)
(** ** Role assignment ([startGame]) *)

(** [Array(n).fill(x)]: a negative length raises a [RangeError]. *)
Definition array_fill {A} (n : Z) (x : A) : option (list A) :=
  if (n <? 0)%Z then None else Some (repeat x (Z.to_nat n)).

Fixpoint list_set {A} (i : nat) (x : A) (l : list A) : list A :=
  match l, i with
  | [], _ => []
  | _ :: rest, O => x :: rest
  | y :: rest, S i' => y :: list_set i' x rest
  end.

(** [[a[i], a[j]] = [a[j], a[i]]] for positions inside the array (the loop
    of [shuffleArray] only produces [0 <= j <= i < a.length]). *)
Definition swap {A} (i j : nat) (a : list A) : list A :=
  match nth_error a j, nth_error a i with
  | Some aj, Some ai => list_set j ai (list_set i aj a)
  | _, _ => a
  end.

(** [for (let i = start; i > 0; i--) { j = random_index i; swap }], where
    [random_index i] is the value of [Math.floor(Math.random() * (i + 1))]
    drawn at iteration [i]. *)
Fixpoint shuffleLoop {A} (random_index : nat -> nat) (i : nat) (a : list A)
  : list A :=
  match i with
  | O => a
  | S i' => shuffleLoop random_index i' (swap i (random_index i) a)
  end.

Definition shuffleArray {A} (random_index : nat -> nat) (array : list A)
  : list A :=
  shuffleLoop random_index (length array - 1) array.

Definition mafiaCountOf (totalPlayers : Z) : Z := (totalPlayers / 3)%Z.

Definition godfatherCountOf (totalPlayers : Z) : Z :=
  if (1 <? mafiaCountOf totalPlayers)%Z then 1%Z else 0%Z.

Definition regularMafiaCountOf (totalPlayers : Z) : Z :=
  (mafiaCountOf totalPlayers - godfatherCountOf totalPlayers)%Z.

Definition specialRolesCountOf (totalPlayers : Z) : Z :=
  (regularMafiaCountOf totalPlayers + godfatherCountOf totalPlayers + 2)%Z.

(** The [roles] array literal; [None] when one of the [Array(n)] throws. *)
Definition buildRoles (totalPlayers : Z) : option (list Role) :=
  match array_fill (regularMafiaCountOf totalPlayers) Mafia,
        array_fill (godfatherCountOf totalPlayers) Godfather,
        array_fill (totalPlayers - specialRolesCountOf totalPlayers) Villager
  with
  | Some mafias, Some godfathers, Some villagers =>
      Some (mafias ++ godfathers ++ [Detective; Doctor] ++ villagers)
  | _, _, _ => None
  end.

(** [players.forEach((player, index) => player.role = shuffledRoles[index])];
    an index past the end of [shuffledRoles] reads [undefined], which leaves
    the schema default. *)
Fixpoint assignRoles (ps : list Player) (shuffledRoles : list Role)
  : list Player :=
  match ps with
  | [] => []
  | p :: rest =>
      match shuffledRoles with
      | r :: rs => set_role r p :: assignRoles rest rs
      | [] => set_role Unassigned p :: assignRoles rest []
      end
  end.

(** [startGame(game)].  The two assignments before the array literal change
    the in-memory document only: [game.save()] is not reached when the
    literal throws. *)
Definition startGame (random_index : nat -> nat) : M unit :=
  modify (set_state InProgress) ;;
  modify (set_currentPhase NightMafia) ;;
  game <- get ;;
  let totalPlayers := Z.of_nat (length (players game)) in
  match buildRoles totalPlayers with
  | None => throw RangeError
  | Some roles =>
      let shuffledRoles := shuffleArray random_index roles in
      modify (fun g => set_players (assignRoles (players g) shuffledRoles) g) ;;
      assigned <- get ;;
      emitAll (map (fun p => (ToSocket (socketId p), privateRole (role p)))
                 (players assigned)) ;;
      emitAll (map (fun p => (ToSocket (socketId p),
                              mafiaGang (mafiaGangOf (players assigned))))
                 (filter (fun p => isMafiaRole (role p)) (players assigned))) ;;
      emit (ToRoom (gameId assigned)) (gameStarted assigned) ;;
      emit (ToRoom (gameId assigned)) (gameUpdated assigned)
  end.

(* ------------------------------------------------------------------ *)
(** ** Request handlers *)

Definition ceil_half (n : nat) : nat := n / 2 + n mod 2.

(** The accepted path of [mafiaVote] (lines 136-171), once
    [game.mafiaVotes.set] has accepted its key: record the vote, notify the
    faction, resolve when the ledger is complete. *)
Definition mafiaVoteAccepted (voterName targetName : string) : M unit :=
  modify (fun g => set_mafiaVotes
                     (map_set voterName targetName (mafiaVotes g)) g) ;;
  game <- get ;;
  emitAll (map (fun p => (ToSocket (socketId p),
                          mafiaVoteCast voterName targetName))
             (filter aliveMafiaP (players game))) ;;
  let livingMafiaCount := length (filter aliveMafiaP (players game)) in
  when (Nat.eqb (length (mafiaVotes game)) livingMafiaCount)
    (modify (set_mafiaTarget
               (resolveMafiaTarget (players game) (mafiaVotes game))) ;;
     setPhase NightDetective) ;;
  final <- get ;;
  exit (Json final).

(** [exports.mafiaVote]. *)
Definition mafiaVote (voterName targetName : string) : M unit :=
  tryCatch (
    game <- get ;;
    when (negb (state_eqb (state game) InProgress)
          || negb (phase_eqb (currentPhase game) NightMafia))%bool
      (exit (Status400 "Mafia can only vote during mafia phase")) ;;
    _ <- orExit (find (fun p => isMafiaRole (role p) && named voterName p
                                && isAlive p)%bool (players game))
           (Status400 "Invalid voter") ;;
    when (map_has voterName (mafiaVotes game))
      (exit (Status400 "You have already voted")) ;;
    _ <- orExit (find (fun p => named targetName p && isAlive p)%bool
                   (players game))
           (Status400 "Invalid target") ;;
    checkValidKey voterName ;;
    mafiaVoteAccepted voterName targetName).

(** The signal computed by [investigate]. *)
Definition investigationSignal (r : Role) : Signal :=
  if role_eqb r Godfather then Negative
  else if role_eqb r Mafia then Positive
  else Negative.

(** The accepted path of [investigate] (lines 193-203). *)
Definition investigateAccepted (investigator target : Player)
  (targetName : string) : M unit :=
  let result := investigationSignal (role target) in
  modify (set_detectiveResult (Some result)) ;;
  emit (ToSocket (socketId investigator))
       (investigationResult targetName result) ;;
  setPhase NightDoctor ;;
  final <- get ;;
  exit (Json final).

(** [exports.investigate]. *)
Definition investigate (investigatorName targetName : string) : M unit :=
  tryCatch (
    game <- get ;;
    when (negb (state_eqb (state game) InProgress)
          || negb (phase_eqb (currentPhase game) NightDetective))%bool
      (exit (Status400 "Detective can only investigate during detective phase")) ;;
    investigator <-
      orExit (find (fun p => named investigatorName p
                             && role_eqb (role p) Detective && isAlive p)%bool
                (players game))
        (Status400 "Invalid investigator") ;;
    when (match detectiveResult game with Some _ => true | None => false end)
      (exit (Status400 "You have already investigated")) ;;
    target <- orExit (find (fun p => named targetName p && isAlive p)%bool
                        (players game))
                (Status400 "Invalid target") ;;
    investigateAccepted investigator target targetName).

(** The accepted path of [doctorSave] (lines 224-228). *)
Definition doctorSaveAccepted (targetName : string) : M unit :=
  modify (set_doctorSave (Some targetName)) ;;
  resolveNight ;;
  final <- get ;;
  exit (Json final).

(** [exports.doctorSave]; the name [doctorSave] is the field of [Game]. *)
Definition doctorSaveAction (doctorName targetName : string) : M unit :=
  tryCatch (
    game <- get ;;
    when (negb (state_eqb (state game) InProgress)
          || negb (phase_eqb (currentPhase game) NightDoctor))%bool
      (exit (Status400 "Doctor can only save during doctor phase")) ;;
    _ <- orExit (find (fun p => named doctorName p
                                && role_eqb (role p) Doctor && isAlive p)%bool
                   (players game))
           (Status400 "Invalid doctor") ;;
    _ <- orExit (find (fun p => named targetName p && isAlive p)%bool
                   (players game))
           (Status400 "Invalid target") ;;
    doctorSaveAccepted targetName).

(** Lines 257-270 of [dayVote]: the name to eliminate, if any. *)
Definition dayEliminated (ps : list Player) (ledger : VoteMap)
  (livingPlayers : nat) : option string :=
  let vc := voteCount ps ledger in
  let majority := ceil_half livingPlayers in
  let maxVotes := math_max (obj_values vc) in
  if js_ge maxVotes majority then hd_error (candidatesOf vc maxVotes)
  else None.

(** The elimination step of [dayVote] ([if (eliminated) { ... }]). *)
Definition applyElimination (eliminated : option string) : M unit :=
  game <- get ;;
  match eliminated with
  | Some e =>
      if truthy e then
        match find (named e) (players game) with
        | Some _ =>
            modify (fun g =>
              set_players (mutate_found (named e) (set_isAlive false)
                             (players g)) g) ;;
            modify (set_lastKilled (Some e)) ;;
            emit (ToRoom (gameId game)) (playerEliminated e ByVote) ;;
            emit (ToRoom (gameId game)) (dayVoteResult e)
        | None => throw TypeError
        end
      else ret tt
  | None => ret tt
  end.

(** The end of a day (lines 283-286): win evaluation, then the next night
    unless the game is over. *)
Definition nextCycle : M unit :=
  checkWinConditions ;;
  afterCheck <- get ;;
  when (negb (state_eqb (state afterCheck) Finished)) (setPhase NightMafia).

(** Resolution of a complete day ledger (lines 257-286). *)
Definition dayResolve (livingPlayers : nat) : M unit :=
  game <- get ;;
  applyElimination
    (dayEliminated (players game) (votes game) livingPlayers) ;;
  modify (set_votes []) ;;
  nextCycle.

(** The accepted path of [dayVote] (lines 250-289), once [game.votes.set]
    has accepted its key. *)
Definition dayVoteAccepted (voterName targetName : string) : M unit :=
  modify (fun g => set_votes (map_set voterName targetName (votes g)) g) ;;
  game <- get ;;
  emit (ToRoom (gameId game)) (gameUpdated game) ;;
  let livingPlayers := length (filter isAlive (players game)) in
  when (Nat.eqb (length (votes game)) livingPlayers)
    (dayResolve livingPlayers) ;;
  final <- get ;;
  exit (Json final).

(** [exports.dayVote]. *)
Definition dayVote (voterName targetName : string) : M unit :=
  tryCatch (
    game <- get ;;
    when (negb (state_eqb (state game) InProgress)
          || negb (phase_eqb (currentPhase game) Day))%bool
      (exit (Status400 "Voting only allowed during day phase")) ;;
    _ <- orExit (find (fun p => named voterName p && isAlive p)%bool
                   (players game))
           (Status400 "Invalid voter") ;;
    when (map_has voterName (votes game))
      (exit (Status400 "You have already voted")) ;;
    _ <- orExit (find (fun p => named targetName p && isAlive p)%bool
                   (players game))
           (Status400 "Invalid target") ;;
    checkValidKey voterName ;;
    dayVoteAccepted voterName targetName).

Arguments mafiaVoteAccepted : simpl never.
Arguments investigateAccepted : simpl never.
Arguments doctorSaveAccepted : simpl never.
Arguments dayVoteAccepted : simpl never.
Arguments dayResolve : simpl never.
Arguments nextCycle : simpl never.
Arguments applyElimination : simpl never.
Arguments resolveMafiaTarget : simpl never.
Arguments dayEliminated : simpl never.

(* ------------------------------------------------------------------ *)
(** ** Sample sessions *)

Definition pl (n : string) (r : Role) (alive : bool) : Player :=
  mkPlayer n r alive true (Some (String.append "sock-" n)).

Definition session (ph : Phase) (ps : list Player) : Game :=
  mkGame "g1" InProgress ph ps 10 [] [] None None None None.

(* ------------------------------------------------------------------ *)
(** ** Vocabulary of the properties *)

(** *** Runs of a handler *)

Definition flowOf {A} (r : Flow A * Game * list Emit) : Flow A := fst (fst r).

Definition docOf {A} (r : Flow A * Game * list Emit) : Game := snd (fst r).

Definition traceOf {A} (r : Flow A * Game * list Emit) : list Emit := snd r.

Definition reject (msg : string) (g : Game) : Flow unit * Game * list Emit :=
  (Exit (Status400 msg), g, []).

Definition prepend {A} (ev : list Emit) (r : Flow A * Game * list Emit)
  : Flow A * Game * list Emit :=
  (flowOf r, docOf r, ev ++ traceOf r).

(** *** Validation of a request *)

Definition wrongPhase (ph : Phase) (g : Game) : bool :=
  (negb (state_eqb (state g) InProgress)
   || negb (phase_eqb (currentPhase g) ph))%bool.

Definition aliveNamed (n : string) (p : Player) : bool :=
  (named n p && isAlive p)%bool.

Definition eligibleMafiaVoter (n : string) (p : Player) : bool :=
  (isMafiaRole (role p) && named n p && isAlive p)%bool.

Definition eligibleDetective (n : string) (p : Player) : bool :=
  (named n p && role_eqb (role p) Detective && isAlive p)%bool.

Definition eligibleDoctor (n : string) (p : Player) : bool :=
  (named n p && role_eqb (role p) Doctor && isAlive p)%bool.

(** *** Phases, night and verdicts *)

Definition noAlive (r : Role) (g : Game) : Prop :=
  existsb (aliveWithRole r) (players g) = false.

Definition someAlive (r : Role) (g : Game) : Prop :=
  existsb (aliveWithRole r) (players g) = true.

Definition clearedNight (g : Game) : Game :=
  set_detectiveResult None
    (set_doctorSave None (set_mafiaVotes [] (set_mafiaTarget None g))).

Definition noDeaths (g : Game) : list Emit :=
  [(ToRoom (gameId g), nightResult "Night ends with no deaths")].

Definition aliveTownP (p : Player) : bool :=
  (isTownRole (role p) && isAlive p)%bool.

Definition aliveMafiaCount (g : Game) : nat :=
  length (filter aliveMafiaP (players g)).

Definition aliveTownCount (g : Game) : nat :=
  length (filter aliveTownP (players g)).

Definition finishedGame (g : Game) : Game :=
  set_currentPhase PFinished (set_state Finished g).

Definition gameOverTo (g : Game) (w : Winner) : list Emit :=
  [(ToRoom (gameId g), gameOver w (mafiaGangOf (players g)))].

Definition eliminate (e : string) (g : Game) : Game :=
  set_lastKilled (Some e)
    (set_players (mutate_found (named e) (set_isAlive false) (players g)) g).

Definition eliminationEvents (e : string) (g : Game) : list Emit :=
  [(ToRoom (gameId g), playerEliminated e ByVote);
   (ToRoom (gameId g), dayVoteResult e)].

(** *** Kinds of notification *)

Definition isGameOver (e : Emit) : bool :=
  match snd e with
  | gameOver _ _ => true
  | _ => false
  end.

Definition isInvestigationResult (e : Emit) : bool :=
  match snd e with
  | investigationResult _ _ => true
  | _ => false
  end.

Definition announces (p : Phase) (e : Emit) : bool :=
  match snd e with
  | phaseChanged q | phaseChangedKilled q _ => phase_eqb p q
  | _ => false
  end.

(** The notifications of [setPhase] and [resolveNight]: room-wide, and
    neither a verdict nor an investigation result. *)
Definition controllerEvent (e : Emit) : bool :=
  match e with
  | (ToRoom _, phaseChanged _) | (ToRoom _, phaseChangedKilled _ _)
  | (ToRoom _, gameUpdated _) | (ToRoom _, audioStarted)
  | (ToRoom _, playerEliminated _ ByMafia) | (ToRoom _, nightResult _) => true
  | _ => false
  end.

(** A run that returns normally, keeps [state] and [gameId] and only sends
    controller notifications. *)
Definition quiet (r : Flow unit * Game * list Emit) (g : Game) : Prop :=
  flowOf r = Next tt
  /\ state (docOf r) = state g
  /\ gameId (docOf r) = gameId g
  /\ forallb controllerEvent (traceOf r) = true.

Definition noVerdict (r : Flow unit * Game * list Emit) (g : Game) : Prop :=
  state (docOf r) = state g /\ existsb isGameOver (traceOf r) = false.

(** *** Ledgers and tallies *)

(** Votes cast for [k] in a ledger. *)
Definition votesFor (k : string) (ledger : VoteMap) : nat :=
  count_occ string_dec (map_values ledger) k.

(** One [++] on a cell that may be missing. *)
Definition cell_incr (x : option jsnum) : option jsnum :=
  Some (match x with Some v => js_succ v | None => JNaN end).

(** Every target of the ledger is the name of a player, and none is the
    key [__proto__]. *)
Definition targetsOnRoster (ps : list Player) (ledger : VoteMap) : Prop :=
  forall t, In t (map_values ledger) ->
            t <> proto_key /\ existsb (named t) ps = true.

Definition countsOnly (o : JsObj) : Prop :=
  forall k v, In (k, v) o -> exists n, v = JNum n.

(** Names that are neither empty, nor [__proto__], nor array indices: the
    tally enumerates such names in roster order. *)
Definition plainName (k : string) : Prop :=
  k <> EmptyString /\ k <> proto_key /\ array_index k = None.

Definition plainNames (ps : list Player) : Prop :=
  forall p, In p ps -> plainName (name p).

(** [a] is enumerated before [b] by the tally built from the roster names
    [names]: array indices come first, in ascending order, and the other
    names follow in join order. *)
Definition jsBefore (names : list string) (a b : string) : Prop :=
  match array_index a, array_index b with
  | Some i, Some j => (i <= j)%N
  | Some _, None => True
  | None, Some _ => False
  | None, None => exists l1 l2, names = l1 ++ a :: l2 /\ ~ In b l1
  end.

(** Names that the tally can hold and that are truthy. *)
Definition usableNames (ps : list Player) : Prop :=
  forall p, In p ps -> name p <> EmptyString /\ name p <> proto_key.

(** The sessions that the handlers produce: usable names, ledgers over the
    roster, and a mafia target that names a player. *)
Definition wellFormed (g : Game) : Prop :=
  usableNames (players g)
  /\ targetsOnRoster (players g) (votes g)
  /\ targetsOnRoster (players g) (mafiaVotes g)
  /\ (forall t, mafiaTarget g = Some t ->
                t <> EmptyString /\ existsb (named t) (players g) = true).

(** [g'] has the names and the day ledger of [g], and its mafia ledger and
    target are those of [g] or have been cleared. *)
Definition sameBoard (g g' : Game) : Prop :=
  map name (players g') = map name (players g)
  /\ votes g' = votes g
  /\ (mafiaVotes g' = mafiaVotes g \/ mafiaVotes g' = [])
  /\ (mafiaTarget g' = mafiaTarget g \/ mafiaTarget g' = None).

(** The highest number of votes received by a player. *)
Definition topCount (ps : list Player) (ledger : VoteMap) : nat :=
  list_max (map (fun p => votesFor (name p) ledger) ps).

Definition hasTopCount (ps : list Player) (ledger : VoteMap) (p : Player)
  : bool :=
  Nat.eqb (votesFor (name p) ledger) (topCount ps ledger).

(** *** The role deck *)

(** The number of Godfathers among [n] players. *)
Definition godfathers (n : nat) : nat := if Nat.ltb 1 (n / 3) then 1 else 0.

(** The roles dealt to [n] players, before the shuffle. *)
Definition roleDeck (n : nat) : list Role :=
  repeat Mafia (n / 3 - godfathers n) ++ repeat Godfather (godfathers n)
  ++ [Detective; Doctor] ++ repeat Villager (n - n / 3 - 2).

Definition countRole (r : Role) (l : list Role) : nat :=
  count_occ Role_eq_dec l r.

(** The villager remainder [N - regularMafiaCount - godfatherCount - 2]. *)
Definition villagerRemainder (n : nat) : Z :=
  (Z.of_nat n - regularMafiaCountOf (Z.of_nat n)
   - godfatherCountOf (Z.of_nat n) - 2)%Z.

Definition startedGame (g : Game) : Game :=
  set_currentPhase NightMafia (set_state InProgress g).

Definition dealtGame (random_index : nat -> nat) (g : Game) : Game :=
  set_players
    (assignRoles (players g)
       (shuffleArray random_index (roleDeck (length (players g)))))
    (startedGame g).

Definition startNotices (g : Game) : list Emit :=
  map (fun p => (ToSocket (socketId p), privateRole (role p))) (players g)
  ++ map (fun p => (ToSocket (socketId p), mafiaGang (mafiaGangOf (players g))))
       (filter (fun p => isMafiaRole (role p)) (players g))
  ++ [(ToRoom (gameId g), gameStarted g); (ToRoom (gameId g), gameUpdated g)].

(** *** Sample sessions *)

(** Rosters on which the three outcomes of win evaluation occur. *)
Definition townWins : Game :=
  session Day [pl "A" Mafia false; pl "B" Villager true; pl "C" Doctor true].

Definition mafiaWins : Game :=
  session Day [pl "A" Mafia true; pl "B" Godfather false; pl "C" Doctor true].

Definition undecided : Game :=
  session Day [pl "A" Mafia true; pl "B" Villager true; pl "C" Doctor true].

(** The doctor phase with a mafia target on record: a saved bystander, and
    a doctor saving themself. *)
Definition nightWithTarget : Game :=
  mkGame "g1" InProgress NightDoctor
    [pl "A" Mafia true; pl "B" Villager true; pl "C" Doctor true] 10
    [] [("A", "B")] (Some "B") (Some Negative) (Some "C") None.

Definition nightSelfSave : Game :=
  mkGame "g1" InProgress NightDoctor
    [pl "A" Mafia true; pl "B" Villager true; pl "C" Doctor true] 10
    [] [("A", "C")] (Some "C") None (Some "C") None.

(** Sessions whose Detective, and whose Detective and Doctor, are dead. *)
Definition noDetective : Game :=
  session NightMafia
    [pl "A" Mafia true; pl "B" Villager true; pl "C" Detective false;
     pl "D" Doctor true].

Definition noDetectiveNoDoctor : Game :=
  mkGame "g1" InProgress NightMafia
    [pl "A" Mafia true; pl "B" Villager true; pl "C" Detective false;
     pl "D" Doctor false; pl "E" Villager true] 10
    [] [("A", "B")] (Some "B") None None None.

(** The detective phase of a six-player game. *)
Definition detectiveNight : Game :=
  session NightDetective
    [pl "A" Mafia true; pl "B" Godfather true; pl "C" Villager true;
     pl "D" Detective true; pl "E" Doctor true; pl "F" Villager true].

(** Requests that are rejected: a mafia vote by day, a second day vote. *)
Definition wrongPhaseVote : Game :=
  session Day [pl "A" Mafia true; pl "B" Villager true; pl "C" Doctor true].

Definition alreadyVoted : Game :=
  mkGame "g1" InProgress Day
    [pl "A" Mafia true; pl "B" Villager true; pl "C" Doctor true] 10
    [("A", "B")] [] None None None None.

(** A night that ends with one Mafia against one townsperson. *)
Definition lastNight : Game :=
  mkGame "g1" InProgress NightDoctor
    [pl "A" Mafia true; pl "B" Villager true; pl "C" Doctor true] 10
    [] [("A", "B")] (Some "B") None None None.

(** Nine players, one of them named [__proto__]; three mafia voters, two
    votes cast, both for [__proto__]. *)
Definition protoNight : Game :=
  mkGame "g1" InProgress NightMafia
    [pl "A" Mafia true; pl "B" Mafia true; pl "C" Godfather true;
     pl "D" Detective true; pl "E" Doctor true; pl "__proto__" Villager true;
     pl "W" Villager true; pl "P8" Villager true; pl "P9" Villager true] 10
    [] [("A", "__proto__"); ("B", "__proto__")] None None None None.

(** Two mafia voters, the first vote cast. *)
Definition twoMafia : Game :=
  mkGame "g1" InProgress NightMafia
    [pl "A" Mafia true; pl "B" Godfather true; pl "X" Villager true;
     pl "Y" Detective true; pl "Z" Doctor true; pl "W" Villager true] 10
    [] [("A", "X")] None None None None.

(** Six alive players, five day votes cast: T has three votes, U two. *)
Definition tiedDay : Game :=
  mkGame "g1" InProgress Day
    [pl "T" Villager true; pl "U" Villager true; pl "P3" Mafia true;
     pl "P4" Doctor true; pl "P5" Detective true; pl "P6" Villager true] 10
    [("T", "T"); ("U", "T"); ("P3", "U"); ("P4", "U"); ("P5", "T")]
    [] None None None None.

(** Player names that are array indices. *)
Definition numberedDay : Game :=
  mkGame "g1" InProgress Day
    [pl "10" Villager true; pl "2" Villager true; pl "Bob" Mafia true;
     pl "Al" Doctor true] 10
    [("10", "10"); ("2", "2"); ("Bob", "10")] [] None None None None.

(** A waiting room. *)
Definition lobby (names : list string) : Game :=
  mkGame "g1" Waiting PWaiting
    (map (fun n => mkPlayer n Unassigned true true None) names) 10
    [] [] None None None None.

(* ------------------------------------------------------------------ *)
(** ** The waiting room ([createGame], [joinGame], [fetchGameData],
    [setReady], [setUnready])

    These handlers answer 404 when [Game.findOne] finds nothing, so they
    take the result of the lookup, [found], and return the document as it
    is stored afterwards.  A request body is modelled with a [name] that is
    a string and a [maxPlayers] that is absent or a natural number. *)

Definition set_isReady (b : bool) (p : Player) : Player :=
  mkPlayer (name p) (role p) (isAlive p) b (socketId p).

Definition set_socketId (s : option string) (p : Player) : Player :=
  mkPlayer (name p) (role p) (isAlive p) (isReady p) s.

(** Who receives a notification: every client ([io.emit]), the socket of
    the request ([socket.emit]), or a room or socket ([io.to(..).emit]). *)
Inductive Recipient :=
  | AllClients
  | Requester
  | Via (to : Audience).

(** The notifications of the waiting room and of the chat.  [sessionEvent]
    carries an event that the game handlers send as well ([gameUpdated]);
    [errorEvent] is the socket event ['error']. *)
Inductive Notice :=
  | gameCreated (snapshot : Game)
  | playerJoined (who : string)
  | playerReady (who : string)
  | playerUnready (who : string)
  | startCountdown (countdown : nat)
  | sessionEvent (p : Payload)
  | errorEvent (message : string)
  | mafiaChat (who message : string)
  | chatMessage (who message : string).

Inductive LobbyResponse :=
  | Created (id url : string)
  | Document (body : Game)
  | BadRequest (msg : string)
  | NotFound (msg : string).

(** The outcome of a waiting-room request: the response, the document as
    stored afterwards ([None]: there is no such game), the notifications
    sent, and the delays (in milliseconds) of the timers armed. *)
Record LobbyRun := mkRun {
  response : LobbyResponse;
  stored : option Game;
  notices : list (Recipient * Notice);
  timers : list N
}.

(** [return res.status(..).json({ msg })] before anything is written. *)
Definition refuse (r : LobbyResponse) (found : option Game) : LobbyRun :=
  mkRun r found [] [].

(** [maxPlayers || 10]. *)
Definition maxPlayersOr10 (maxPlayers : option nat) : nat :=
  match maxPlayers with
  | Some (S n) => S n
  | Some O | None => 10
  end.

Definition clientUrl (id : string) : string :=
  String.append "https://mafia-v01-client.vercel.app/" id.

(** [new Game({ gameId, maxPlayers: maxPlayers || 10, state: 'waiting',
    currentPhase: 'waiting', players: [] })] with the schema defaults. *)
Definition newGame (id : string) (maxPlayers : option nat) : Game :=
  mkGame id Waiting PWaiting [] (maxPlayersOr10 maxPlayers) [] [] None None
    None None.

(** [exports.createGame]; [uuid] is the value returned by [uuidv4()]. *)
Definition createGame (uuid : string) (maxPlayers : option nat) : LobbyRun :=
  let game := newGame uuid maxPlayers in
  mkRun (Created uuid (clientUrl uuid)) (Some game)
    [(AllClients, gameCreated game)] [].

(** The subdocument pushed by [joinGame]: [{ name, socketId: req.socket?.id }]
    with the defaults of [PlayerSchema]. *)
Definition newPlayer (n : string) (reqSocketId : option string) : Player :=
  mkPlayer n Unassigned true false reqSocketId.

(** [exports.joinGame]. *)
Definition joinGame (n : string) (reqSocketId : option string)
  (found : option Game) : LobbyRun :=
  if negb (truthy n) then refuse (BadRequest "Name is required") found
  else
    match found with
    | None => refuse (NotFound "Game not found") found
    | Some game =>
        if negb (state_eqb (state game) Waiting) then
          refuse (BadRequest "Game already started wait for new match") found
        else if existsb (named n) (players game) then
          refuse (BadRequest "Name already taken") found
        else if Nat.leb (maxPlayers game) (length (players game)) then
          refuse (BadRequest "Room is full") found
        else
          let joined :=
            set_players (players game ++ [newPlayer n reqSocketId]) game in
          mkRun (Document joined) (Some joined)
            [(Via (ToRoom (gameId game)), playerJoined n);
             (Via (ToRoom (gameId game)), sessionEvent (gameUpdated joined))]
            []
    end.

(** [exports.fetchGameData]. *)
Definition fetchGameData (found : option Game) : LobbyRun :=
  match found with
  | None => refuse (NotFound "Game not found") found
  | Some game => mkRun (Document game) found [] []
  end.

(** [exports.setReady].  The timer armed with [setTimeout(.., 10000)] runs
    [countdownElapsed]. *)
Definition setReady (n : string) (found : option Game) : LobbyRun :=
  match found with
  | None => refuse (NotFound "Game not found") found
  | Some game =>
      if negb (state_eqb (state game) Waiting) then
        refuse (BadRequest "Game already started") found
      else
        match find (named n) (players game) with
        | None => refuse (BadRequest "Player not found") found
        | Some _ =>
            let ready :=
              set_players
                (mutate_found (named n) (set_isReady true) (players game))
                game in
            let allReady := forallb isReady (players ready) in
            let starts :=
              (Nat.leb 5 (length (players ready)) && allReady)%bool in
            mkRun (Document ready) (Some ready)
              ([(Via (ToRoom (gameId game)), playerReady n);
                (Via (ToRoom (gameId game)), sessionEvent (gameUpdated ready))]
               ++ (if starts
                   then [(Via (ToRoom (gameId game)), startCountdown 10)]
                   else []))
              (if starts then [10000%N] else [])
        end
  end.

(** [exports.setUnready]. *)
Definition setUnready (n : string) (found : option Game) : LobbyRun :=
  match found with
  | None => refuse (NotFound "Game not found") found
  | Some game =>
      if negb (state_eqb (state game) Waiting) then
        refuse (BadRequest "Game already started") found
      else
        match find (named n) (players game) with
        | None => refuse (BadRequest "Player not found") found
        | Some _ =>
            let unready :=
              set_players
                (mutate_found (named n) (set_isReady false) (players game))
                game in
            mkRun (Document unready) (Some unready)
              [(Via (ToRoom (gameId game)), playerUnready n);
               (Via (ToRoom (gameId game)),
                sessionEvent (gameUpdated unready))]
              []
        end
  end.

(** The callback of the timer armed by [setReady] (lines 84-89), run on the
    document that [Game.findOne] returns when the ten seconds are over. *)
Definition countdownElapsed (random_index : nat -> nat) : M unit :=
  updatedGame <- get ;;
  when (Nat.leb 5 (length (players updatedGame))
        && forallb isReady (players updatedGame))%bool
    (startGame random_index).

Arguments countdownElapsed : simpl never.

(* ------------------------------------------------------------------ *)
(** ** Socket handlers of [server.js] that read the session

    [chatMessage] and [joinRoom] are the same in both copies of
    [server.js].  [sid] is [socket.id]; joining the socket.io room
    ([socket.join]) is not modelled. *)

(** [socket.on('chatMessage', ...)]: the notifications sent for a chat
    message [message] signed [who]. *)
Definition onChatMessage (roomId who message : string) (found : option Game)
  : list (Recipient * Notice) :=
  match found with
  | None => [(Requester, errorEvent "Game not found")]
  | Some game =>
      match find (named who) (players game) with
      | None => [(Requester, errorEvent "Dead players cannot chat")]
      | Some player =>
          if negb (isAlive player) then
            [(Requester, errorEvent "Dead players cannot chat")]
          else if phase_eqb (currentPhase game) NightMafia then
            if isMafiaRole (role player) then
              map (fun p => (Via (ToSocket (socketId p)),
                             mafiaChat who message))
                (filter aliveMafiaP (players game))
            else []
          else if phase_eqb (currentPhase game) Day then
            [(Via (ToRoom roomId), chatMessage who message)]
          else []
      end
  end.

(** [p.socketId === null || p.socketId === socket.id]. *)
Definition freeOrBoundTo (sid : string) (p : Player) : bool :=
  match socketId p with
  | None => true
  | Some s => String.eqb s sid
  end.

(** [!player.socketId]. *)
Definition noSocket (p : Player) : bool :=
  match socketId p with
  | None => true
  | Some s => negb (truthy s)
  end.

(** [socket.on('joinRoom', ...)]: the document as stored afterwards and the
    notifications sent. *)
Definition onJoinRoom (sid roomId : string) (found : option Game)
  : option Game * list (Recipient * Notice) :=
  match found with
  | None => (None, [])
  | Some game =>
      let bound :=
        match find (freeOrBoundTo sid) (players game) with
        | Some player =>
            if noSocket player then
              set_players
                (mutate_found (freeOrBoundTo sid) (set_socketId (Some sid))
                   (players game))
                game
            else game
        | None => game
        end in
      (Some bound,
       [(Via (ToRoom roomId), sessionEvent (gameUpdated bound))])
  end.

(** [p.socketId === socket.id]. *)
Definition boundTo (sid : string) (p : Player) : bool :=
  match socketId p with
  | Some s => String.eqb s sid
  | None => false
  end.

(** [socket.on('disconnect', ...)], run on the game that holds a player
    with this socket: the document as stored afterwards.  The two copies of
    [server.js] agree on it; they differ in the notifications they send, and
    the audio room that they tidy up is not modelled. *)
Definition onDisconnect (sid : string) (found : option Game) : option Game :=
  match found with
  | None => None
  | Some game =>
      Some
        match state game with
        | Waiting =>
            set_players
              (filter (fun p => negb (boundTo sid p)) (players game)) game
        | InProgress =>
            set_players
              (mutate_found (boundTo sid) (set_socketId None) (players game))
              game
        | Finished => game
        end
  end.

(* ------------------------------------------------------------------ *)
(** ** Requests ([game.routes.js])

    The four rate-limited action routes and the handlers they are bound
    to. *)

Inductive Action :=
  | PostMafiaVote (voterName targetName : string)
  | PostInvestigate (investigatorName targetName : string)
  | PostSave (doctorName targetName : string)
  | PostDayVote (voterName targetName : string).

Definition perform (a : Action) : M unit :=
  match a with
  | PostMafiaVote v t => mafiaVote v t
  | PostInvestigate i t => investigate i t
  | PostSave d t => doctorSaveAction d t
  | PostDayVote v t => dayVote v t
  end.

(* ------------------------------------------------------------------ *)
(** ** Vocabulary of the properties of the waiting room, the requests and
    the chat *)

(** The room of a game, as a receiver. *)
Definition roomOf (g : Game) : Recipient := Via (ToRoom (gameId g)).

(** A run that writes nothing, notifies nobody and arms no timer. *)
Definition refused (run : LobbyRun) (found : option Game) : Prop :=
  stored run = found /\ notices run = [] /\ timers run = [].

(** Join requests served one after the other: each is a name and the
    value of [req.socket?.id]. *)
Definition joinAll (requests : list (string * option string))
  (found : option Game) : option Game :=
  fold_left (fun f r => stored (joinGame (fst r) (snd r) f)) requests found.

Definition playersOf (found : option Game) : list Player :=
  match found with
  | Some g => players g
  | None => []
  end.

(** A request that was not answered with status 400. *)
Definition accepted (r : Flow unit * Game * list Emit) : Prop :=
  forall msg, flowOf r <> Exit (Status400 msg).

(** A request that was answered with the document ([res.json(game)]). *)
Definition served (r : Flow unit * Game * list Emit) : Prop :=
  exists body, flowOf r = Exit (Json body).

(** The names of the players are keys that the ledgers accept. *)
Definition keyNames (ps : list Player) : Prop :=
  forall p, In p ps -> validMapKey (name p) = true.

Definition actorOf (a : Action) : string :=
  match a with
  | PostMafiaVote v _ | PostInvestigate v _ | PostSave v _
  | PostDayVote v _ => v
  end.

Definition sameRoute (a b : Action) : bool :=
  match a, b with
  | PostMafiaVote _ _, PostMafiaVote _ _
  | PostInvestigate _ _, PostInvestigate _ _
  | PostSave _ _, PostSave _ _
  | PostDayVote _ _, PostDayVote _ _ => true
  | _, _ => false
  end.

(** The phases that a request can move a session to from a phase. *)
Definition successors (p : Phase) : list Phase :=
  match p with
  | NightMafia => [NightDetective; NightDoctor; Day]
  | NightDetective => [NightDoctor; Day]
  | NightDoctor => [Day]
  | Day => [NightMafia; PFinished]
  | PWaiting | PFinished => []
  end.

(** [p'] is the player [p] after a request: the same name, role, readiness
    and socket, and alive only if [p] was. *)
Definition sameSeat (p p' : Player) : Prop :=
  name p' = name p /\ role p' = role p /\ isReady p' = isReady p
  /\ socketId p' = socketId p /\ (isAlive p' = true -> isAlive p = true).

Definition aliveCount (ps : list Player) : nat := length (filter isAlive ps).

Definition isMafiaVoteCast (e : Emit) : bool :=
  match snd e with
  | mafiaVoteCast _ _ => true
  | _ => false
  end.

(** A player keeps everything but, possibly, the socket. *)
Definition sameButSocket (p p' : Player) : Prop :=
  name p' = name p /\ role p' = role p /\ isAlive p' = isAlive p
  /\ isReady p' = isReady p.

(** Five players who have all marked themselves ready, in a game that is
    over: two of them dead, a day ledger and a last victim on record. *)
Definition finishedReady : Game :=
  mkGame "g1" Finished PFinished
    [pl "a" Mafia false; pl "b" Villager true; pl "c" Doctor true;
     pl "d" Detective false; pl "e" Villager true] 10
    [("b", "a")] [] None None None (Some "a").

(** A waiting room of five, the last of whom is not ready. *)
Definition almostReady : Game :=
  mkGame "g1" Waiting PWaiting
    [mkPlayer "a" Unassigned true true None;
     mkPlayer "b" Unassigned true true None;
     mkPlayer "c" Unassigned true true None;
     mkPlayer "d" Unassigned true true None;
     mkPlayer "e" Unassigned true false None] 10
    [] [] None None None None.

(** The players [ps'] are the players [ps], except that at most one of
    them has had [isAlive] set to false. *)
Definition oneDeath (ps ps' : list Player) : Prop :=
  ps' = ps \/ exists t, ps' = mutate_found (named t) (set_isAlive false) ps.

(** The phase in which a route accepts requests. *)
Definition phaseOf (a : Action) : Phase :=
  match a with
  | PostMafiaVote _ _ => NightMafia
  | PostInvestigate _ _ => NightDetective
  | PostSave _ _ => NightDoctor
  | PostDayVote _ _ => Day
  end.

(** The request only added the vote of its actor to the ledger of its
    route. *)
Definition recordedOnly (a : Action) (g after : Game) : Prop :=
  match a with
  | PostMafiaVote v t =>
      after = set_mafiaVotes (mafiaVotes g ++ [(v, t)]) g
      /\ existsb (eligibleMafiaVoter v) (players g) = true
  | PostDayVote v t =>
      after = set_votes (votes g ++ [(v, t)]) g
      /\ existsb (aliveNamed v) (players g) = true
  | PostInvestigate _ _ | PostSave _ _ => False
  end.

(** The socket of [p'] is that of [p], or [p] had none and [p'] has
    [sid]. *)
Definition keepsOrTakes (sid : string) (p p' : Player) : Prop :=
  socketId p' = socketId p
  \/ (noSocket p = true /\ socketId p' = Some sid).

(** A mafia night with a dead Mafia player and a free seat. *)
Definition chatNight : Game :=
  mkGame "g1" InProgress NightMafia
    [mkPlayer "A" Mafia true true (Some "s1");
     mkPlayer "B" Godfather true true (Some "s2");
     mkPlayer "C" Mafia false true (Some "s3");
     mkPlayer "D" Villager true true None;
     mkPlayer "E" Doctor true true (Some "s5")] 10
    [] [] None None None None.

Definition isPrivateRole (e : Emit) : bool :=
  match snd e with
  | privateRole _ => true
  | _ => false
  end.

Definition isMafiaGang (e : Emit) : bool :=
  match snd e with
  | mafiaGang _ => true
  | _ => false
  end.

(** The socket of [p'] is that of [p], or [p] was bound to [sid] and [p']
    has no socket. *)
Definition keepsOrDrops (sid : string) (p p' : Player) : Prop :=
  socketId p' = socketId p
  \/ (socketId p = Some sid /\ socketId p' = None).

(** A night of the doctor in which the Mafia chose the player whom the
    doctor is about to save, with the victim of the vote of the day before
    still on record. *)
Definition quietNight : Game :=
  mkGame "g1" InProgress NightDoctor
    [pl "A" Mafia true; pl "B" Villager true; pl "C" Doctor true;
     pl "D" Villager false; pl "E" Villager true] 10
    [] [("A", "B")] (Some "B") None None (Some "D").

(** The sessions of a game that runs: distinct player names, ledgers that
    hold one vote for each of their voters, who are living players entitled
    to vote, the day ledger empty outside the day and the mafia ledger empty
    by day. *)
Definition orderly (g : Game) : Prop :=
  NoDup (map name (players g))
  /\ NoDup (map fst (votes g))
  /\ (forall v, In v (map fst (votes g)) ->
                existsb (aliveNamed v) (players g) = true)
  /\ NoDup (map fst (mafiaVotes g))
  /\ (forall v, In v (map fst (mafiaVotes g)) ->
                existsb (eligibleMafiaVoter v) (players g) = true)
  /\ (currentPhase g = Day -> mafiaVotes g = [])
  /\ (currentPhase g <> Day -> votes g = []).

(** Every player of [ps] who satisfies [entitled] is [v] or one of
    [voters]. *)
Definition allHaveVoted (entitled : Player -> bool) (ps : list Player)
  (v : string) (voters : list string) : Prop :=
  forall p, In p ps -> entitled p = true -> name p = v \/ In (name p) voters.

(** The targets on record are living players, and by day no mafia target
    is on record. *)
Definition targetsAlive (g : Game) : Prop :=
  (forall t, In t (map_values (votes g)) ->
             existsb (aliveNamed t) (players g) = true)
  /\ (forall t, In t (map_values (mafiaVotes g)) ->
                existsb (aliveNamed t) (players g) = true)
  /\ (forall t, mafiaTarget g = Some t ->
                existsb (aliveNamed t) (players g) = true)
  /\ (currentPhase g = Day -> mafiaTarget g = None).

(** The sessions that a game passes through. *)
Definition sound (g : Game) : Prop :=
  orderly g /\ wellFormed g /\ targetsAlive g.

Definition isPlayerEliminated (e : Emit) : bool :=
  match snd e with
  | playerEliminated _ _ => true
  | _ => false
  end.

(** The run [r] on [g] killed nobody and announced no elimination, or it
    killed one living player and announced exactly that. *)
Definition oneAnnouncedDeath (g : Game) (r : Flow unit * Game * list Emit)
  : Prop :=
  (players (docOf r) = players g
   /\ filter isPlayerEliminated (traceOf r) = [])
  \/ exists t k,
       existsb (aliveNamed t) (players g) = true
       /\ players (docOf r)
          = mutate_found (named t) (set_isAlive false) (players g)
       /\ filter isPlayerEliminated (traceOf r)
          = [(ToRoom (gameId g), playerEliminated t k)].

(* ------------------------------------------------------------------ *)
(** * Properties *)

Example array_index_samples :
  array_index "0" = Some 0%N /\ array_index "10" = Some 10%N /\
  array_index "007" = None /\ array_index "Bob" = None /\
  array_index "4294967295" = None /\ array_index EmptyString = None.
Proof. repeat split; reflexivity. Qed.

Example tally_order_sample :
  obj_keys (tally_init [pl "Bob" Villager true; pl "10" Mafia true;
                        pl "2" Doctor true; pl "Al" Villager true])
  = ["2"; "10"; "Bob"; "Al"].
Proof. reflexivity. Qed.

(* ------------------------------------------------------------------ *)
(** ** The monad *)

Lemma bind_ext {A B} (m : M A) (k k' : A -> M B) (g : Game) :
  (forall a g1, k a g1 = k' a g1) -> bind m k g = bind m k' g.
Proof.
  intros H. unfold bind. destruct (m g) as [[[a | r | e] g1] e1]; try reflexivity.
  rewrite H. reflexivity.
Qed.

Lemma bind_next {A B} (m : M A) (k : A -> M B) g a g1 e1 :
  m g = (Next a, g1, e1) ->
  bind m k g = (flowOf (k a g1), docOf (k a g1), e1 ++ traceOf (k a g1)).
Proof.
  intros H. unfold bind. rewrite H.
  destruct (k a g1) as [[r g2] e2]. reflexivity.
Qed.

(* ------------------------------------------------------------------ *)
(** ** Phase controller *)

Lemma setPhaseBody_Day (f : Phase -> M unit) (g : Game) :
  setPhaseBody f Day g =
  (Next tt, set_lastKilled None (set_currentPhase Day g),
   [(ToRoom (gameId g), phaseChangedKilled Day (lastKilled g));
    (ToRoom (gameId g),
     gameUpdated (set_lastKilled None (set_currentPhase Day g)));
    (ToRoom (gameId g), audioStarted)]).
Proof. reflexivity. Qed.

Lemma setPhaseN_Day (d : nat) (g : Game) :
  setPhaseN (S d) Day g = setPhaseN 1 Day g.
Proof. simpl. rewrite !setPhaseBody_Day. reflexivity. Qed.

Lemma resolveNightWith_ext (f f' : Phase -> M unit) (g : Game) :
  (forall g1, f Day g1 = f' Day g1) ->
  resolveNightWith f g = resolveNightWith f' g.
Proof.
  intros H. unfold resolveNightWith.
  apply bind_ext; intros _ g1. apply bind_ext; intros _ g2. apply H.
Qed.

Lemma setPhaseBody_ext (f f' : Phase -> M unit) (p : Phase) (g : Game) :
  (forall g1, f Day g1 = f' Day g1) ->
  (p = NightDetective -> forall g1, f NightDoctor g1 = f' NightDoctor g1) ->
  setPhaseBody f p g = setPhaseBody f' p g.
Proof.
  intros HD HN. unfold setPhaseBody.
  apply bind_ext; intros _ g1. apply bind_ext; intros g2 g3.
  destruct (phase_eqb p NightDetective) eqn:E; simpl.
  - destruct p; try discriminate E.
    destruct (negb _); [apply HN; reflexivity|]. reflexivity.
  - clear HN.
  destruct (phase_eqb p NightDoctor && _)%bool;
    [apply resolveNightWith_ext, HD|].
  reflexivity.
Qed.

Lemma setPhaseN_NightDoctor (d : nat) (g : Game) :
  setPhaseN (S (S d)) NightDoctor g = setPhaseN 2 NightDoctor g.
Proof.
  change (setPhaseBody (setPhaseN (S d)) NightDoctor g
          = setPhaseBody (setPhaseN 1) NightDoctor g).
  apply setPhaseBody_ext.
  - intros g1. exact (setPhaseN_Day d g1).
  - discriminate.
Qed.

(** [setPhase] satisfies the recursive equation of the source function:
    unrolling three times loses nothing. *)
Lemma setPhase_fixpoint (p : Phase) (g : Game) :
  setPhase p g = setPhaseBody setPhase p g.
Proof.
  unfold setPhase. change (setPhaseN 3 p g) with (setPhaseBody (setPhaseN 2) p g).
  apply setPhaseBody_ext.
  - intros g1. apply (setPhaseN_Day 1).
  - intros _ g1. symmetry. apply (setPhaseN_NightDoctor 1).
Qed.

Lemma setPhase_Day (g : Game) :
  setPhase Day g =
  (Next tt, set_lastKilled None (set_currentPhase Day g),
   [(ToRoom (gameId g), phaseChangedKilled Day (lastKilled g));
    (ToRoom (gameId g),
     gameUpdated (set_lastKilled None (set_currentPhase Day g)));
    (ToRoom (gameId g), audioStarted)]).
Proof. rewrite setPhase_fixpoint. apply setPhaseBody_Day. Qed.

Lemma setPhase_NightMafia (g : Game) :
  setPhase NightMafia g =
  (Next tt, set_currentPhase NightMafia g,
   [(ToRoom (gameId g), phaseChanged NightMafia);
    (ToRoom (gameId g), gameUpdated (set_currentPhase NightMafia g))]).
Proof. reflexivity. Qed.

Lemma setPhaseBody_NightDoctor_open (f : Phase -> M unit) (g : Game) :
  someAlive Doctor g ->
  setPhaseBody f NightDoctor g =
  (Next tt, set_currentPhase NightDoctor g,
   [(ToRoom (gameId g), gameUpdated (set_currentPhase NightDoctor g));
    (ToRoom (gameId g), phaseChanged NightDoctor)]).
Proof.
  intros H. unfold setPhaseBody, bind, modify, get.
  cbn. unfold someAlive in H. rewrite H. reflexivity.
Qed.

Lemma setPhaseBody_NightDoctor_skip (f : Phase -> M unit) (g : Game) :
  noAlive Doctor g ->
  setPhaseBody f NightDoctor g
  = resolveNightWith f (set_currentPhase NightDoctor g).
Proof.
  intros H. unfold setPhaseBody, bind, modify, get.
  cbn. unfold noAlive in H. rewrite H. cbn.
  destruct (resolveNightWith f (set_currentPhase NightDoctor g))
    as [[r g2] e2]. reflexivity.
Qed.

Lemma setPhaseBody_NightDetective_open (f : Phase -> M unit) (g : Game) :
  someAlive Detective g ->
  setPhaseBody f NightDetective g =
  (Next tt, set_currentPhase NightDetective g,
   [(ToRoom (gameId g), gameUpdated (set_currentPhase NightDetective g));
    (ToRoom (gameId g), phaseChanged NightDetective)]).
Proof.
  intros H. unfold setPhaseBody, bind, modify, get.
  cbn. unfold someAlive in H. rewrite H. reflexivity.
Qed.

Lemma setPhaseBody_NightDetective_skip (f : Phase -> M unit) (g : Game) :
  noAlive Detective g ->
  setPhaseBody f NightDetective g
  = f NightDoctor (set_currentPhase NightDetective g).
Proof.
  intros H. unfold setPhaseBody, bind, modify, get.
  cbn. unfold noAlive in H. rewrite H. cbn.
  destruct (f NightDoctor (set_currentPhase NightDetective g))
    as [[r g2] e2]. reflexivity.
Qed.

Lemma setPhase_NightDoctor_open (g : Game) :
  someAlive Doctor g ->
  setPhase NightDoctor g =
  (Next tt, set_currentPhase NightDoctor g,
   [(ToRoom (gameId g), gameUpdated (set_currentPhase NightDoctor g));
    (ToRoom (gameId g), phaseChanged NightDoctor)]).
Proof.
  intros H. rewrite setPhase_fixpoint.
  now apply setPhaseBody_NightDoctor_open.
Qed.

Lemma setPhase_NightDoctor_skip (g : Game) :
  noAlive Doctor g ->
  setPhase NightDoctor g = resolveNight (set_currentPhase NightDoctor g).
Proof.
  intros H. rewrite setPhase_fixpoint.
  now apply setPhaseBody_NightDoctor_skip.
Qed.

Lemma setPhase_NightDetective_open (g : Game) :
  someAlive Detective g ->
  setPhase NightDetective g =
  (Next tt, set_currentPhase NightDetective g,
   [(ToRoom (gameId g), gameUpdated (set_currentPhase NightDetective g));
    (ToRoom (gameId g), phaseChanged NightDetective)]).
Proof.
  intros H. rewrite setPhase_fixpoint.
  now apply setPhaseBody_NightDetective_open.
Qed.

Lemma setPhase_NightDetective_skip (g : Game) :
  noAlive Detective g ->
  setPhase NightDetective g
  = setPhase NightDoctor (set_currentPhase NightDetective g).
Proof.
  intros H. rewrite setPhase_fixpoint.
  now apply setPhaseBody_NightDetective_skip.
Qed.

Lemma setPhase_overwrites (p q : Phase) (g : Game) :
  setPhase p (set_currentPhase q g) = setPhase p g.
Proof. rewrite !setPhase_fixpoint. reflexivity. Qed.

(* ------------------------------------------------------------------ *)
(** ** Night resolution *)

Lemma clearNight_run (g : Game) :
  clearNight g = (Next tt, clearedNight g, []).
Proof. reflexivity. Qed.

Lemma find_named_name (t : string) (ps : list Player) (p : Player) :
  find (named t) ps = Some p -> name p = t.
Proof.
  intros H. apply find_some in H. destruct H as [_ H].
  unfold named in H. now apply String.eqb_eq in H.
Qed.

Lemma truthy_nonempty (s : string) : s <> EmptyString -> truthy s = true.
Proof. destruct s; [congruence | reflexivity]. Qed.

Lemma opt_differs_true (t : string) (o : option string) :
  o <> Some t -> opt_differs (Some t) o = true.
Proof.
  destruct o as [x|]; simpl; [|reflexivity].
  intros H. destruct (String.eqb_spec t x); [subst; congruence | reflexivity].
Qed.

Lemma opt_differs_refl (o : option string) : opt_differs o o = false.
Proof. destruct o; simpl; [now rewrite String.eqb_refl | reflexivity]. Qed.

Lemma nightKill_kills (g : Game) (t : string) (p : Player) :
  mafiaTarget g = Some t -> t <> EmptyString -> doctorSave g <> Some t ->
  find (named t) (players g) = Some p ->
  nightKill g =
  (Next tt,
   set_lastKilled (Some t)
     (set_players (mutate_found (named t) (set_isAlive false) (players g)) g),
   [(ToRoom (gameId g), playerEliminated t ByMafia);
    (ToRoom (gameId g),
     nightResult (String.append "Night ends with the death of " t))]).
Proof.
  intros Ht Hne Hd Hf. unfold nightKill, bind, get. cbn.
  rewrite Ht, (truthy_nonempty _ Hne), (opt_differs_true _ _ Hd), Hf. cbn.
  rewrite (find_named_name _ _ _ Hf). reflexivity.
Qed.

Lemma nightKill_spares (g : Game) :
  mafiaTarget g = None \/ mafiaTarget g = doctorSave g ->
  nightKill g = (Next tt, g, noDeaths g).
Proof.
  intros H. unfold nightKill, bind, get. cbn.
  destruct (mafiaTarget g) as [t|] eqn:Ht; [|reflexivity].
  destruct H as [H|H]; [discriminate|]. rewrite <- H, opt_differs_refl.
  rewrite andb_false_r. reflexivity.
Qed.

Lemma nightKill_flow (g : Game) : flowOf (nightKill g) = Next tt.
Proof.
  unfold nightKill, bind, get. cbn.
  destruct (mafiaTarget g) as [t|]; [|reflexivity].
  destruct (truthy t && _)%bool; [|reflexivity].
  destruct (find (named t) (players g)); reflexivity.
Qed.

Lemma nightBody_run (g : Game) :
  nightBody g =
  (Next tt, clearedNight (docOf (nightKill g)), traceOf (nightKill g)).
Proof.
  unfold nightBody, bind. pose proof (nightKill_flow g) as H.
  destruct (nightKill g) as [[fl g1] e1]. unfold flowOf in H. simpl in H.
  subst fl. rewrite clearNight_run. unfold docOf, traceOf. simpl.
  now rewrite app_nil_r.
Qed.

Lemma resolveNight_run (g : Game) :
  let night := docOf (nightBody g) in
  resolveNight g =
  (Next tt, set_lastKilled None (set_currentPhase Day night),
   traceOf (nightBody g)
   ++ [(ToRoom (gameId night), phaseChangedKilled Day (lastKilled night));
       (ToRoom (gameId night),
        gameUpdated (set_lastKilled None (set_currentPhase Day night)));
       (ToRoom (gameId night), audioStarted)]).
Proof.
  intros night. subst night. rewrite nightBody_run.
  unfold resolveNight, resolveNightWith, bind.
  pose proof (nightKill_flow g) as H.
  destruct (nightKill g) as [[fl g1] e1]. unfold flowOf in H. simpl in H.
  subst fl. rewrite clearNight_run, setPhase_Day. reflexivity.
Qed.

Lemma resolveNight_sequence (g : Game) :
  resolveNight g = bind nightBody (fun _ => setPhase Day) g.
Proof.
  unfold resolveNight, resolveNightWith, nightBody, bind.
  destruct (nightKill g) as [[[[]|r|e] g1] e1]; try reflexivity.
  rewrite clearNight_run. destruct (setPhase Day (clearedNight g1)) as [[r2 g2] e2].
  simpl. now rewrite app_nil_r.
Qed.

Lemma nightKill_gameId (g : Game) : gameId (docOf (nightKill g)) = gameId g.
Proof.
  unfold nightKill, bind, get. cbn.
  destruct (mafiaTarget g) as [t|]; [|reflexivity].
  destruct (truthy t && _)%bool; [|reflexivity].
  destruct (find (named t) (players g)); reflexivity.
Qed.

Lemma nightKill_state (g : Game) : state (docOf (nightKill g)) = state g.
Proof.
  unfold nightKill, bind, get. cbn.
  destruct (mafiaTarget g) as [t|]; [|reflexivity].
  destruct (truthy t && _)%bool; [|reflexivity].
  destruct (find (named t) (players g)); reflexivity.
Qed.

Lemma mutate_found_split (pred : Player -> bool) (upd : Player -> Player)
  (ps : list Player) (p : Player) :
  find pred ps = Some p ->
  exists before after,
    ps = before ++ p :: after
    /\ (forall q, In q before -> pred q = false)
    /\ mutate_found pred upd ps = before ++ upd p :: after.
Proof.
  induction ps as [|q ps IH]; simpl; [discriminate|].
  destruct (pred q) eqn:E.
  - intros [= ->]. exists [], ps. repeat split. intros ? [].
  - intros H. destruct (IH H) as (b & a & -> & Hb & Hm).
    exists (q :: b), a. repeat split.
    + intros x [<-|Hx]; auto.
    + simpl. now rewrite Hm.
Qed.

Lemma existsb_find_some (pred : Player -> bool) (ps : list Player) :
  existsb pred ps = true -> exists p, find pred ps = Some p.
Proof.
  induction ps as [|q ps IH]; simpl; [discriminate|].
  destruct (pred q); [eauto | exact IH].
Qed.

(* ------------------------------------------------------------------ *)
(** ** Win evaluation *)

Lemma filter_filter_and {A} (f h : A -> bool) (l : list A) :
  filter f (filter h l) = filter (fun x => f x && h x)%bool l.
Proof.
  induction l as [|x l IH]; simpl; [reflexivity|].
  destruct (h x); simpl.
  - rewrite andb_true_r. destruct (f x); now rewrite IH.
  - now rewrite andb_false_r.
Qed.

Lemma checkWinConditions_run (g : Game) :
  checkWinConditions g =
  if Nat.eqb (aliveMafiaCount g) 0
  then (Next tt, finishedGame g, gameOverTo g VillagersWin)
  else if Nat.leb (aliveTownCount g) (aliveMafiaCount g)
       then (Next tt, finishedGame g, gameOverTo g MafiaWin)
       else (Next tt, g, []).
Proof.
  assert (Hm : length (filter (fun p => isMafiaRole (role p))
                         (filter isAlive (players g))) = aliveMafiaCount g)
    by (now rewrite filter_filter_and).
  assert (Ht : length (filter (fun p => isTownRole (role p))
                         (filter isAlive (players g))) = aliveTownCount g)
    by (now rewrite filter_filter_and).
  unfold checkWinConditions, bind, get. cbn. rewrite Hm, Ht.
  destruct (Nat.eqb (aliveMafiaCount g) 0); [reflexivity|].
  destruct (Nat.leb (aliveTownCount g) (aliveMafiaCount g)); reflexivity.
Qed.

(** C4.  Win evaluation: no alive Mafia/Godfather gives the Villagers the
    game; otherwise at least as many alive Mafia/Godfather as alive
    Villager/Detective/Doctor gives it to the Mafia; otherwise the session is
    left as it is.  A verdict sets state and phase to finished and sends the
    names of all Mafia/Godfather players to the room. *)
Theorem checkWinConditions_verdict (g : Game) :
  (aliveMafiaCount g = 0 ->
   checkWinConditions g = (Next tt, finishedGame g, gameOverTo g VillagersWin))
  /\ (aliveMafiaCount g <> 0 -> aliveTownCount g <= aliveMafiaCount g ->
      checkWinConditions g = (Next tt, finishedGame g, gameOverTo g MafiaWin))
  /\ (aliveMafiaCount g <> 0 -> aliveMafiaCount g < aliveTownCount g ->
      checkWinConditions g = (Next tt, g, []))
  /\ state (finishedGame g) = Finished
  /\ currentPhase (finishedGame g) = PFinished
  /\ players (finishedGame g) = players g.
Proof.
  rewrite checkWinConditions_run. repeat split.
  - intros ->. reflexivity.
  - intros H0 Hle. apply Nat.eqb_neq in H0. rewrite H0.
    apply Nat.leb_le in Hle. rewrite Hle. reflexivity.
  - intros H0 Hlt. apply Nat.eqb_neq in H0. rewrite H0.
    apply Nat.leb_gt in Hlt. rewrite Hlt. reflexivity.
Qed.

Lemma checkWinConditions_verdict_witness :
  checkWinConditions townWins
  = (Next tt, finishedGame townWins,
     [(ToRoom "g1", gameOver VillagersWin ["A"])])
  /\ checkWinConditions mafiaWins
     = (Next tt, finishedGame mafiaWins,
        [(ToRoom "g1", gameOver MafiaWin ["A"; "B"])])
  /\ checkWinConditions undecided = (Next tt, undecided, []).
Proof.
  split; [|split].
  - apply (proj1 (checkWinConditions_verdict townWins)). reflexivity.
  - apply (proj1 (proj2 (checkWinConditions_verdict mafiaWins))).
    + discriminate.
    + vm_compute. lia.
  - apply (proj1 (proj2 (proj2 (checkWinConditions_verdict undecided)))).
    + discriminate.
    + vm_compute. lia.
Defined.

(* ------------------------------------------------------------------ *)
(** ** Night resolution: the claims *)

Lemma resolveNight_kill (g : Game) (t : string) :
  mafiaTarget g = Some t -> t <> EmptyString -> doctorSave g <> Some t ->
  existsb (named t) (players g) = true ->
  players (docOf (resolveNight g))
  = mutate_found (named t) (set_isAlive false) (players g)
  /\ lastKilled (docOf (nightBody g)) = Some t
  /\ In (ToRoom (gameId g), phaseChangedKilled Day (Some t))
        (traceOf (resolveNight g)).
Proof.
  intros Ht Hne Hd Hex. destruct (existsb_find_some _ _ Hex) as [p Hf].
  rewrite resolveNight_run, nightBody_run. unfold docOf, traceOf.
  rewrite (nightKill_kills g t p Ht Hne Hd Hf). cbn [fst snd].
  repeat split. apply in_or_app. right. left. reflexivity.
Qed.

Lemma resolveNight_spare (g : Game) :
  mafiaTarget g = None \/ mafiaTarget g = doctorSave g ->
  players (docOf (resolveNight g)) = players g
  /\ lastKilled (docOf (nightBody g)) = lastKilled g.
Proof.
  intros H. rewrite resolveNight_run, nightBody_run. unfold docOf, traceOf.
  rewrite (nightKill_spares g H). split; reflexivity.
Qed.

Lemma resolveNight_clears (g : Game) :
  let night := docOf (nightBody g) in
  let final := docOf (resolveNight g) in
  (mafiaTarget night = None /\ mafiaVotes night = []
   /\ doctorSave night = None /\ detectiveResult night = None)
  /\ (mafiaTarget final = None /\ mafiaVotes final = []
      /\ doctorSave final = None /\ detectiveResult final = None)
  /\ currentPhase final = Day
  /\ lastKilled final = None
  /\ flowOf (resolveNight g) = Next tt.
Proof.
  cbv zeta. rewrite resolveNight_run, nightBody_run.
  unfold docOf, traceOf, flowOf. cbn [fst snd]. repeat split.
Qed.

(** C5.  Night resolution.  When [mafiaTarget] names a player and differs
    from [doctorSave], the first player of that name gets [isAlive = false]
    and the name is written to [lastKilled]; when there is no target, or the
    target is the saved player (a doctor saving themself included), the
    roster is unchanged.  In every case the four per-night fields are then
    cleared, and the phase becomes [Day]: the entry into the day phase
    announces [lastKilled] and resets it. *)
Theorem resolveNight_outcome (g : Game) :
  let night := docOf (nightBody g) in
  let final := docOf (resolveNight g) in
  resolveNight g = bind nightBody (fun _ => setPhase Day) g
  /\ (forall t, mafiaTarget g = Some t -> t <> EmptyString ->
      doctorSave g <> Some t -> existsb (named t) (players g) = true ->
      exists before victim after,
        players g = before ++ victim :: after
        /\ name victim = t
        /\ (forall q, In q before -> name q <> t)
        /\ players final = before ++ set_isAlive false victim :: after
        /\ lastKilled night = Some t
        /\ In (ToRoom (gameId g), phaseChangedKilled Day (Some t))
              (traceOf (resolveNight g)))
  /\ (mafiaTarget g = None \/ mafiaTarget g = doctorSave g ->
      players final = players g /\ lastKilled night = lastKilled g)
  /\ (mafiaTarget night = None /\ mafiaVotes night = []
      /\ doctorSave night = None /\ detectiveResult night = None)
  /\ (mafiaTarget final = None /\ mafiaVotes final = []
      /\ doctorSave final = None /\ detectiveResult final = None)
  /\ currentPhase final = Day
  /\ lastKilled final = None
  /\ flowOf (resolveNight g) = Next tt.
Proof.
  intros night final. subst night final.
  split; [apply resolveNight_sequence|].
  split; [|split; [apply resolveNight_spare | apply resolveNight_clears]].
  intros t Ht Hne Hd Hex.
  destruct (resolveNight_kill g t Ht Hne Hd Hex) as (Hp & Hl & Hin).
  destruct (existsb_find_some _ _ Hex) as [p Hf].
  destruct (mutate_found_split (named t) (set_isAlive false) _ _ Hf)
    as (b & a & Hps & Hb & Hm).
  exists b, p, a. repeat split; auto.
  - exact (find_named_name _ _ _ Hf).
  - intros q Hq Hn. apply Hb in Hq. unfold named in Hq.
    rewrite Hn, String.eqb_refl in Hq. discriminate.
  - now rewrite Hp.
Qed.

Lemma resolveNight_outcome_witness :
  players (docOf (resolveNight nightWithTarget))
  = [pl "A" Mafia true; pl "B" Villager false; pl "C" Doctor true]
  /\ lastKilled (docOf (nightBody nightWithTarget)) = Some "B"
  /\ players (docOf (resolveNight nightSelfSave)) = players nightSelfSave.
Proof.
  pose proof (resolveNight_outcome nightWithTarget) as (_ & Hkill & _).
  pose proof (resolveNight_outcome nightSelfSave) as (_ & _ & Hsave & _).
  destruct (Hkill "B") as (b & v & a & _ & _ & _ & _ & Hl & _);
    [reflexivity | discriminate | discriminate | reflexivity |].
  destruct Hsave as [Hs _]; [right; reflexivity|].
  split; [reflexivity | split; [exact Hl | exact Hs]].
Defined.

(* ------------------------------------------------------------------ *)
(** ** What the phase controller never does *)

Lemma controllerEvent_not_gameOver (l : list Emit) :
  forallb controllerEvent l = true -> existsb isGameOver l = false.
Proof.
  induction l as [|[a p] l IH]; simpl; [reflexivity|].
  intros H. apply andb_true_iff in H. destruct H as [H1 H2].
  rewrite (IH H2), orb_false_r. destruct a, p; try discriminate; reflexivity.
Qed.

Lemma controllerEvent_not_investigation (l : list Emit) :
  forallb controllerEvent l = true -> existsb isInvestigationResult l = false.
Proof.
  induction l as [|[a p] l IH]; simpl; [reflexivity|].
  intros H. apply andb_true_iff in H. destruct H as [H1 H2].
  rewrite (IH H2), orb_false_r. destruct a, p; try discriminate; reflexivity.
Qed.

Lemma nightKill_cases (g : Game) :
  (exists t,
     nightKill g =
     (Next tt,
      set_lastKilled (Some t)
        (set_players (mutate_found (named t) (set_isAlive false) (players g)) g),
      [(ToRoom (gameId g), playerEliminated t ByMafia);
       (ToRoom (gameId g),
        nightResult (String.append "Night ends with the death of " t))]))
  \/ nightKill g = (Next tt, g, [])
  \/ nightKill g = (Next tt, g, noDeaths g).
Proof.
  unfold nightKill, bind, get. cbn.
  destruct (mafiaTarget g) as [t|]; [|now right; right].
  destruct (truthy t && _)%bool; [|now right; right].
  destruct (find (named t) (players g)) as [p|] eqn:Hf; [|now right; left].
  left. exists t. cbn. rewrite (find_named_name _ _ _ Hf). reflexivity.
Qed.

Lemma resolveNight_quiet (g : Game) :
  quiet (resolveNight g) g
  /\ currentPhase (docOf (resolveNight g)) = Day
  /\ existsb (announces NightDetective) (traceOf (resolveNight g)) = false.
Proof.
  rewrite resolveNight_run, nightBody_run. unfold quiet, docOf, traceOf, flowOf.
  destruct (nightKill_cases g) as [[t ->] | [-> | ->]]; cbn; repeat split.
Qed.

Lemma setPhase_quiet (p : Phase) (g : Game) :
  quiet (setPhase p g) g
  /\ currentPhase (docOf (setPhase p g)) <> NightDetective
     \/ (p = NightDetective /\ someAlive Detective g
         /\ currentPhase (docOf (setPhase p g)) = NightDetective
         /\ quiet (setPhase p g) g).
Proof.
  assert (HD : forall g0, noAlive Doctor g0 \/ someAlive Doctor g0).
  { intros g0. unfold noAlive, someAlive.
    destruct (existsb _ (players g0)); auto. }
  assert (Hdoc : forall g0, quiet (setPhase NightDoctor g0) g0
            /\ currentPhase (docOf (setPhase NightDoctor g0)) <> NightDetective).
  { intros g0. destruct (HD g0) as [H|H].
    - rewrite (setPhase_NightDoctor_skip _ H).
      destruct (resolveNight_quiet (set_currentPhase NightDoctor g0))
        as (Hq & Hp & _).
      split; [exact Hq | rewrite Hp; discriminate].
    - rewrite (setPhase_NightDoctor_open _ H). unfold quiet. cbn.
      repeat split. discriminate. }
  destruct p.
  - left. rewrite setPhase_fixpoint. unfold quiet. cbn. repeat split. discriminate.
  - left. rewrite setPhase_NightMafia. unfold quiet. cbn. repeat split. discriminate.
  - destruct (existsb (aliveWithRole Detective) (players g)) eqn:E.
    + right. rewrite (setPhase_NightDetective_open g E). unfold quiet. cbn.
      repeat split. exact E.
    + left. rewrite (setPhase_NightDetective_skip g E), setPhase_overwrites.
      apply Hdoc.
  - left. apply Hdoc.
  - left. rewrite setPhase_Day. unfold quiet. cbn. repeat split. discriminate.
  - left. rewrite setPhase_fixpoint. unfold quiet. cbn. repeat split. discriminate.
Qed.

Lemma setPhase_is_quiet (p : Phase) (g : Game) : quiet (setPhase p g) g.
Proof. destruct (setPhase_quiet p g) as [[H _] | (_ & _ & _ & H)]; exact H. Qed.

Lemma setPhase_flow (p : Phase) (g : Game) : flowOf (setPhase p g) = Next tt.
Proof. apply setPhase_is_quiet. Qed.

(* ------------------------------------------------------------------ *)
(** ** Skipping extinct roles *)

(** C6, as the code has it.  A request for [NightDetective] with no alive
    Detective is handled exactly as a request for [NightDoctor]: the
    detective phase is neither entered nor announced, and the session lands
    in [NightDoctor] when a Doctor is alive and in [Day] otherwise.  A request
    for [NightDoctor] with no alive Doctor runs night resolution at once on
    the document as it stands (no save is written) and lands in [Day]; with
    no save on record a valid mafia target dies. *)
Theorem setPhase_skips_extinct_roles (g : Game) :
  (noAlive Detective g ->
   setPhase NightDetective g = setPhase NightDoctor g
   /\ currentPhase (docOf (setPhase NightDetective g)) <> NightDetective
   /\ existsb (announces NightDetective) (traceOf (setPhase NightDetective g))
      = false
   /\ (someAlive Doctor g ->
       docOf (setPhase NightDetective g) = set_currentPhase NightDoctor g)
   /\ (noAlive Doctor g ->
       currentPhase (docOf (setPhase NightDetective g)) = Day))
  /\ (noAlive Doctor g ->
      setPhase NightDoctor g = resolveNight (set_currentPhase NightDoctor g)
      /\ currentPhase (docOf (setPhase NightDoctor g)) = Day
      /\ doctorSave (docOf (setPhase NightDoctor g)) = None
      /\ (forall t, doctorSave g = None -> mafiaTarget g = Some t ->
          t <> EmptyString -> existsb (named t) (players g) = true ->
          players (docOf (setPhase NightDoctor g))
          = mutate_found (named t) (set_isAlive false) (players g))).
Proof.
  assert (Hskip : noAlive Doctor g ->
      setPhase NightDoctor g = resolveNight (set_currentPhase NightDoctor g)
      /\ currentPhase (docOf (setPhase NightDoctor g)) = Day
      /\ existsb (announces NightDetective) (traceOf (setPhase NightDoctor g))
         = false).
  { intros H. rewrite (setPhase_NightDoctor_skip g H).
    destruct (resolveNight_quiet (set_currentPhase NightDoctor g))
      as (_ & Hp & Ha). auto. }
  split.
  - intros Hdet.
    assert (E : setPhase NightDetective g = setPhase NightDoctor g)
      by (now rewrite (setPhase_NightDetective_skip g Hdet), setPhase_overwrites).
    rewrite E. split; [reflexivity|].
    destruct (existsb (aliveWithRole Doctor) (players g)) eqn:Hdoc.
    + rewrite (setPhase_NightDoctor_open g Hdoc). cbn.
      repeat split; try discriminate.
      intros H. unfold noAlive in H. congruence.
    + destruct (Hskip Hdoc) as (_ & Hp & Ha). rewrite Hp, Ha.
      repeat split; try discriminate.
      intros H. unfold someAlive in H. congruence.
  - intros Hdoc. destruct (Hskip Hdoc) as (E & Hp & _).
    split; [exact E|]. split; [exact Hp|]. rewrite E.
    split; [apply (resolveNight_clears (set_currentPhase NightDoctor g))|].
    intros t Hsave Ht Hne Hex.
    apply (resolveNight_kill (set_currentPhase NightDoctor g) t); auto.
    cbn. rewrite Hsave. discriminate.
Qed.

Lemma setPhase_skips_extinct_roles_witness :
  docOf (setPhase NightDetective noDetective)
  = set_currentPhase NightDoctor noDetective
  /\ currentPhase (docOf (setPhase NightDoctor noDetectiveNoDoctor)) = Day
  /\ players (docOf (setPhase NightDoctor noDetectiveNoDoctor))
     = [pl "A" Mafia true; pl "B" Villager false; pl "C" Detective false;
        pl "D" Doctor false; pl "E" Villager true].
Proof.
  destruct (setPhase_skips_extinct_roles noDetective) as [H1 _].
  destruct (setPhase_skips_extinct_roles noDetectiveNoDoctor) as [_ H2].
  destruct H1 as (_ & _ & _ & Hopen & _); [reflexivity|].
  destruct H2 as (_ & Hday & _ & Hdie); [reflexivity|].
  split; [apply Hopen; reflexivity|]. split; [exact Hday|].
  apply (Hdie "B"); [reflexivity | reflexivity | discriminate | reflexivity].
Defined.

(** C6 as stated fails: with the Detective and the Doctor both dead, a
    request for [NightDetective] lands in [Day], not in [NightDoctor]. *)
Lemma setPhase_NightDetective_may_land_in_Day :
  noAlive Detective noDetectiveNoDoctor
  /\ currentPhase (docOf (setPhase NightDetective noDetectiveNoDoctor)) = Day
  /\ ~ (forall g, noAlive Detective g ->
        currentPhase (docOf (setPhase NightDetective g)) = NightDoctor).
Proof.
  split; [reflexivity|]. split; [reflexivity|].
  intros H. specialize (H noDetectiveNoDoctor eq_refl). discriminate H.
Qed.

Lemma existsb_find_none (pred : Player -> bool) (ps : list Player) :
  existsb pred ps = false <-> find pred ps = None.
Proof.
  induction ps as [|q ps IH]; simpl; [tauto|].
  destruct (pred q); simpl; [split; discriminate | exact IH].
Qed.

Lemma existsb_of_find (pred : Player -> bool) (ps : list Player) (p : Player) :
  find pred ps = Some p -> existsb pred ps = true.
Proof.
  intros H. destruct (existsb pred ps) eqn:E; [reflexivity|].
  apply existsb_find_none in E. congruence.
Qed.

(* ------------------------------------------------------------------ *)
(** ** Request handlers: validation and accepted paths *)

Lemma tryCatch_exit (m : M unit) g r g1 e1 :
  m g = (Exit r, g1, e1) -> tryCatch m g = (Exit r, g1, e1).
Proof. intros H. unfold tryCatch. now rewrite H. Qed.

Lemma mafiaVoteAccepted_run (v t : string) (g : Game) :
  let g1 := set_mafiaVotes (map_set v t (mafiaVotes g)) g in
  let cast := map (fun p => (ToSocket (socketId p), mafiaVoteCast v t))
                (filter aliveMafiaP (players g)) in
  mafiaVoteAccepted v t g =
  if Nat.eqb (length (mafiaVotes g1)) (length (filter aliveMafiaP (players g)))
  then
    let r := setPhase NightDetective
               (set_mafiaTarget
                  (resolveMafiaTarget (players g) (mafiaVotes g1)) g1) in
    (Exit (Json (docOf r)), docOf r, cast ++ traceOf r)
  else (Exit (Json g1), g1, cast).
Proof.
  cbv zeta. unfold mafiaVoteAccepted, bind, modify, get, emitAll, when, exit, ret.
  cbn.
  destruct (Nat.eqb _ _); cbn; [|now rewrite !app_nil_r].
  match goal with |- context [setPhase ?p ?x] =>
    pose proof (setPhase_flow p x) as Hf;
    destruct (setPhase p x) as [[fl g2] e2] end.
  unfold flowOf in Hf. simpl in Hf. subst fl. unfold docOf, traceOf. cbn.
  now rewrite !app_nil_r.
Qed.

Lemma mafiaVote_run (v t : string) (g : Game) :
  mafiaVote v t g =
  if wrongPhase NightMafia g
  then reject "Mafia can only vote during mafia phase" g
  else if negb (existsb (eligibleMafiaVoter v) (players g))
  then reject "Invalid voter" g
  else if map_has v (mafiaVotes g)
  then reject "You have already voted" g
  else if negb (existsb (aliveNamed t) (players g))
  then reject "Invalid target" g
  else if validMapKey v then mafiaVoteAccepted v t g
  else (Exit Status500, g, []).
Proof.
  unfold mafiaVote, wrongPhase, reject.
  destruct (negb (state_eqb (state g) InProgress)
            || negb (phase_eqb (currentPhase g) NightMafia))%bool eqn:E1.
  { unfold tryCatch, bind, get, when, exit. cbn. rewrite E1. reflexivity. }
  destruct (find (eligibleMafiaVoter v) (players g)) as [voter|] eqn:E2.
  2:{ rewrite (proj2 (existsb_find_none _ _) E2)%bool.
      unfold tryCatch, bind, get, when, exit, orExit, ret. cbn. rewrite E1. cbn.
      unfold eligibleMafiaVoter in E2. rewrite E2. reflexivity. }
  rewrite (existsb_of_find _ _ _ E2). cbn [negb].
  destruct (map_has v (mafiaVotes g)) eqn:E3.
  { unfold tryCatch, bind, get, when, exit, orExit, ret. cbn. rewrite E1. cbn.
    unfold eligibleMafiaVoter in E2. rewrite E2. cbn. rewrite E3. reflexivity. }
  destruct (find (aliveNamed t) (players g)) as [target|] eqn:E4.
  2:{ rewrite (proj2 (existsb_find_none _ _) E4)%bool.
      unfold tryCatch, bind, get, when, exit, orExit, ret. cbn. rewrite E1. cbn.
      unfold eligibleMafiaVoter in E2. rewrite E2. cbn. rewrite E3. cbn.
      unfold aliveNamed in E4. rewrite E4. reflexivity. }
  rewrite (existsb_of_find _ _ _ E4). cbn [negb].
  pose proof (mafiaVoteAccepted_run v t g) as Hrun. cbv zeta in Hrun.
  assert (Hx : exists body g1 e1,
             mafiaVoteAccepted v t g = (Exit (Json body), g1, e1)).
  { rewrite Hrun. destruct (Nat.eqb _ _); eauto. }
  destruct Hx as (body & g1 & e1 & Hx).
  unfold tryCatch, checkValidKey, bind, get, when, exit, orExit, ret, throw.
  cbn. rewrite E1. cbn.
  unfold eligibleMafiaVoter in E2. rewrite E2. cbn. rewrite E3. cbn.
  unfold aliveNamed in E4. rewrite E4. cbn.
  destruct (validMapKey v); cbn; [rewrite Hx|]; reflexivity.
Qed.

Ltac run_handler :=
  unfold tryCatch, bind, get, modify, emit, emitAll, when, exit, orExit, ret;
  cbn.

Ltac name_run :=
  match goal with
  | |- context [setPhase ?p ?x] =>
      pose proof (setPhase_flow p x) as Hflow;
      destruct (setPhase p x) as [[fl g2] e2];
      unfold flowOf in Hflow; simpl in Hflow; subst fl
  end.

Lemma investigateAccepted_run (inv tgt : Player) (t : string) (g : Game) :
  let result := investigationSignal (role tgt) in
  let r := setPhase NightDoctor (set_detectiveResult (Some result) g) in
  investigateAccepted inv tgt t g =
  (Exit (Json (docOf r)), docOf r,
   (ToSocket (socketId inv), investigationResult t result) :: traceOf r).
Proof.
  cbv zeta. unfold investigateAccepted. run_handler. name_run.
  unfold docOf, traceOf. cbn. now rewrite !app_nil_r.
Qed.

Lemma investigate_run (i t : string) (g : Game) :
  investigate i t g =
  if wrongPhase NightDetective g
  then reject "Detective can only investigate during detective phase" g
  else match find (eligibleDetective i) (players g) with
       | None => reject "Invalid investigator" g
       | Some inv =>
           match detectiveResult g with
           | Some _ => reject "You have already investigated" g
           | None =>
               match find (aliveNamed t) (players g) with
               | None => reject "Invalid target" g
               | Some tgt => investigateAccepted inv tgt t g
               end
           end
       end.
Proof.
  unfold investigate, wrongPhase, reject.
  destruct (negb (state_eqb (state g) InProgress)
            || negb (phase_eqb (currentPhase g) NightDetective))%bool eqn:E1.
  { run_handler. rewrite E1. reflexivity. }
  destruct (find (eligibleDetective i) (players g)) as [inv|] eqn:E2;
    unfold eligibleDetective in E2.
  2:{ run_handler. rewrite E1. cbn. rewrite E2. reflexivity. }
  destruct (detectiveResult g) as [sig|] eqn:E3.
  { run_handler. rewrite E1. cbn. rewrite E2. cbn. rewrite E3. reflexivity. }
  destruct (find (aliveNamed t) (players g)) as [tgt|] eqn:E4;
    unfold aliveNamed in E4.
  2:{ run_handler. rewrite E1. cbn. rewrite E2. cbn. rewrite E3. cbn.
      rewrite E4. reflexivity. }
  pose proof (investigateAccepted_run inv tgt t g) as Hrun. cbv zeta in Hrun.
  run_handler. rewrite E1. cbn. rewrite E2. cbn. rewrite E3. cbn.
  rewrite E4. cbn. rewrite Hrun. reflexivity.
Qed.

Lemma doctorSaveAccepted_run (t : string) (g : Game) :
  let r := resolveNight (set_doctorSave (Some t) g) in
  doctorSaveAccepted t g = (Exit (Json (docOf r)), docOf r, traceOf r).
Proof.
  cbv zeta. unfold doctorSaveAccepted. run_handler.
  rewrite resolveNight_run. unfold docOf, traceOf. cbn.
  now rewrite !app_nil_r.
Qed.

Lemma doctorSaveAction_run (d t : string) (g : Game) :
  doctorSaveAction d t g =
  if wrongPhase NightDoctor g
  then reject "Doctor can only save during doctor phase" g
  else if negb (existsb (eligibleDoctor d) (players g))
  then reject "Invalid doctor" g
  else if negb (existsb (aliveNamed t) (players g))
  then reject "Invalid target" g
  else doctorSaveAccepted t g.
Proof.
  unfold doctorSaveAction, wrongPhase, reject.
  destruct (negb (state_eqb (state g) InProgress)
            || negb (phase_eqb (currentPhase g) NightDoctor))%bool eqn:E1.
  { run_handler. rewrite E1. reflexivity. }
  destruct (find (eligibleDoctor d) (players g)) as [doc|] eqn:E2.
  2:{ rewrite (proj2 (existsb_find_none _ _) E2). unfold eligibleDoctor in E2.
      run_handler. rewrite E1. cbn. rewrite E2. reflexivity. }
  rewrite (existsb_of_find _ _ _ E2). cbn [negb]. unfold eligibleDoctor in E2.
  destruct (find (aliveNamed t) (players g)) as [tgt|] eqn:E4.
  2:{ rewrite (proj2 (existsb_find_none _ _) E4). unfold aliveNamed in E4.
      run_handler. rewrite E1. cbn. rewrite E2. cbn. rewrite E4. reflexivity. }
  rewrite (existsb_of_find _ _ _ E4). cbn [negb]. unfold aliveNamed in E4.
  pose proof (doctorSaveAccepted_run t g) as Hrun. cbv zeta in Hrun.
  run_handler. rewrite E1. cbn. rewrite E2. cbn. rewrite E4. cbn.
  rewrite Hrun. reflexivity.
Qed.

(* ------------------------------------------------------------------ *)
(** ** The day vote: accepted path *)

Lemma nextCycle_run (g : Game) :
  nextCycle g =
  if Nat.eqb (aliveMafiaCount g) 0
  then (Next tt, finishedGame g, gameOverTo g VillagersWin)
  else if Nat.leb (aliveTownCount g) (aliveMafiaCount g)
       then (Next tt, finishedGame g, gameOverTo g MafiaWin)
       else if state_eqb (state g) Finished then (Next tt, g, [])
            else setPhase NightMafia g.
Proof.
  unfold nextCycle, bind. rewrite checkWinConditions_run.
  destruct (Nat.eqb (aliveMafiaCount g) 0); [reflexivity|].
  destruct (Nat.leb (aliveTownCount g) (aliveMafiaCount g)); [reflexivity|].
  unfold get, when. destruct (state_eqb (state g) Finished); cbn; [reflexivity|].
  rewrite setPhase_NightMafia. reflexivity.
Qed.

Lemma applyElimination_run (o : option string) (g : Game) :
  applyElimination o g =
  match o with
  | Some e =>
      if truthy e then
        if existsb (named e) (players g)
        then (Next tt, eliminate e g, eliminationEvents e g)
        else (Throw TypeError, g, [])
      else (Next tt, g, [])
  | None => (Next tt, g, [])
  end.
Proof.
  unfold applyElimination. run_handler.
  destruct o as [e|]; [|reflexivity].
  destruct (truthy e); [|reflexivity].
  destruct (find (named e) (players g)) eqn:E.
  - rewrite (existsb_of_find _ _ _ E). reflexivity.
  - rewrite (proj2 (existsb_find_none _ _) E). reflexivity.
Qed.

Lemma dayResolve_run (n : nat) (g : Game) :
  dayResolve n g =
  match applyElimination (dayEliminated (players g) (votes g) n) g with
  | (Next _, g1, e1) => prepend e1 (nextCycle (set_votes [] g1))
  | other => other
  end.
Proof.
  unfold dayResolve, bind, get, modify.
  destruct (applyElimination _ g) as [[[[]|r|e] g1] e1]; try reflexivity.
  unfold prepend, flowOf, docOf, traceOf.
  destruct (nextCycle (set_votes [] g1)) as [[fl g2] e2]. reflexivity.
Qed.

Lemma nextCycle_flow (g : Game) : flowOf (nextCycle g) = Next tt.
Proof.
  rewrite nextCycle_run.
  destruct (Nat.eqb _ 0); [reflexivity|].
  destruct (Nat.leb _ _); [reflexivity|].
  destruct (state_eqb _ _); [reflexivity | apply setPhase_flow].
Qed.

Lemma dayResolve_flow (n : nat) (g : Game) :
  flowOf (dayResolve n g) = Next tt
  \/ dayResolve n g = (Throw TypeError, g, []).
Proof.
  rewrite dayResolve_run, applyElimination_run.
  destruct (dayEliminated _ _ _) as [e|];
    [destruct (truthy e); [destruct (existsb _ _)|]|];
    try (left; apply nextCycle_flow).
  right. reflexivity.
Qed.

Lemma dayVoteAccepted_run (v t : string) (g : Game) :
  let g1 := set_votes (map_set v t (votes g)) g in
  let n := length (filter isAlive (players g)) in
  dayVoteAccepted v t g =
  if Nat.eqb (length (votes g1)) n
  then match dayResolve n g1 with
       | (Next _, g2, e2) =>
           (Exit (Json g2), g2, (ToRoom (gameId g), gameUpdated g1) :: e2)
       | (fl, g2, e2) => (fl, g2, (ToRoom (gameId g), gameUpdated g1) :: e2)
       end
  else (Exit (Json g1), g1, [(ToRoom (gameId g), gameUpdated g1)]).
Proof.
  cbv zeta. unfold dayVoteAccepted. run_handler.
  destruct (Nat.eqb _ _); [|reflexivity].
  destruct (dayResolve _ _) as [[[[]|r|e] g2] e2]; cbn; try reflexivity.
  now rewrite app_nil_r.
Qed.

Lemma dayVote_run (v t : string) (g : Game) :
  dayVote v t g =
  if wrongPhase Day g
  then reject "Voting only allowed during day phase" g
  else if negb (existsb (aliveNamed v) (players g))
  then reject "Invalid voter" g
  else if map_has v (votes g)
  then reject "You have already voted" g
  else if negb (existsb (aliveNamed t) (players g))
  then reject "Invalid target" g
  else if validMapKey v then tryCatch (dayVoteAccepted v t) g
  else (Exit Status500, g, []).
Proof.
  unfold dayVote, wrongPhase, reject.
  destruct (negb (state_eqb (state g) InProgress)
            || negb (phase_eqb (currentPhase g) Day))%bool eqn:E1.
  { run_handler. rewrite E1. reflexivity. }
  destruct (find (aliveNamed v) (players g)) as [voter|] eqn:E2.
  2:{ rewrite (proj2 (existsb_find_none _ _) E2). unfold aliveNamed in E2.
      run_handler. rewrite E1. cbn. rewrite E2. reflexivity. }
  rewrite (existsb_of_find _ _ _ E2). cbn [negb]. unfold aliveNamed in E2.
  destruct (map_has v (votes g)) eqn:E3.
  { run_handler. rewrite E1. cbn. rewrite E2. cbn. rewrite E3. reflexivity. }
  destruct (find (aliveNamed t) (players g)) as [tgt|] eqn:E4.
  2:{ rewrite (proj2 (existsb_find_none _ _) E4). unfold aliveNamed in E4.
      run_handler. rewrite E1. cbn. rewrite E2. cbn. rewrite E3. cbn.
      rewrite E4. reflexivity. }
  rewrite (existsb_of_find _ _ _ E4). cbn [negb]. unfold aliveNamed in E4.
  unfold tryCatch at 1.
  unfold checkValidKey, bind, get, when, exit, orExit, ret, throw. cbn.
  rewrite E1. cbn. rewrite E2. cbn. rewrite E3. cbn. rewrite E4. cbn.
  destruct (validMapKey v); cbn; [|reflexivity].
  unfold tryCatch.
  destruct (dayVoteAccepted v t g) as [[[[]|r|e] g2] e2]; reflexivity.
Qed.

(* ------------------------------------------------------------------ *)
(** ** The detective's investigation *)

(** The signal of an investigation and its own notification.  A valid
    investigation (detective phase, alive Detective, no result on record
    yet, alive target) computes the negative signal for a
    Godfather and for every Villager, Detective or Doctor, and the positive
    signal for a plain Mafia; the [investigationResult] message is sent once,
    to the investigator's socket, and every other notification of the
    request is a room-wide controller notification. *)
Lemma investigate_signal_sent_once (i t : string) (g : Game)
  (inv tgt : Player) :
  wrongPhase NightDetective g = false ->
  find (eligibleDetective i) (players g) = Some inv ->
  detectiveResult g = None ->
  find (aliveNamed t) (players g) = Some tgt ->
  let result := investigationSignal (role tgt) in
  (role tgt = Godfather -> result = Negative)
  /\ (role tgt = Mafia -> result = Positive)
  /\ (role tgt = Villager \/ role tgt = Detective \/ role tgt = Doctor ->
      result = Negative)
  /\ name tgt = t /\ isAlive tgt = true
  /\ name inv = i /\ role inv = Detective /\ isAlive inv = true
  /\ exists rest,
       traceOf (investigate i t g)
       = (ToSocket (socketId inv), investigationResult t result) :: rest
       /\ existsb isInvestigationResult rest = false
       /\ forallb controllerEvent rest = true.
Proof.
  intros Hph Hinv Hres Htgt result. subst result.
  split; [intros ->; reflexivity|].
  split; [intros ->; reflexivity|].
  split; [intros [-> | [-> | ->]]; reflexivity|].
  pose proof (find_some _ _ Htgt) as [_ Ht].
  pose proof (find_some _ _ Hinv) as [_ Hi].
  unfold aliveNamed, named in Ht. unfold eligibleDetective, named in Hi.
  apply andb_true_iff in Ht. destruct Ht as [Ht1 Ht2].
  apply andb_true_iff in Hi. destruct Hi as [Hi1 Hi3].
  apply andb_true_iff in Hi1. destruct Hi1 as [Hi1 Hi2].
  apply String.eqb_eq in Ht1, Hi1.
  unfold role_eqb in Hi2. destruct (Role_eq_dec (role inv) Detective) as [Hr|];
    [|discriminate].
  repeat (split; [assumption|]).
  rewrite investigate_run, Hph, Hinv, Hres, Htgt, investigateAccepted_run.
  cbv zeta. unfold traceOf at 1. cbn [snd].
  eexists. split; [reflexivity|].
  match goal with |- context [setPhase ?p ?x] =>
    destruct (setPhase_is_quiet p x) as (_ & _ & _ & Hq) end.
  split; [now apply controllerEvent_not_investigation | exact Hq].
Qed.

Lemma investigate_signal_sent_once_witness :
  exists rest,
    traceOf (investigate "D" "B" detectiveNight)
    = (ToSocket (Some "sock-D"), investigationResult "B" Negative) :: rest
    /\ existsb isInvestigationResult rest = false.
Proof.
  destruct (investigate_signal_sent_once "D" "B" detectiveNight
              (pl "D" Detective true) (pl "B" Godfather true)
              eq_refl eq_refl eq_refl eq_refl)
    as (_ & _ & _ & _ & _ & _ & _ & _ & rest & H1 & H2 & _).
  exists rest. split; [exact H1 | exact H2].
Defined.

(** C7.  The result of an investigation is not delivered to the Detective
    only.  In [detectiveNight] the Detective D investigates the Mafia player
    A while the Doctor is alive: [investigationResult] goes to the socket of
    D with the positive signal, and then [setPhase] sends to the whole room
    a [gameUpdated] whose snapshot holds that signal in [detectiveResult]. *)
Theorem investigate_result_reaches_the_room :
  let snapshot :=
    set_currentPhase NightDoctor
      (set_detectiveResult (Some Positive) detectiveNight) in
  flowOf (investigate "D" "A" detectiveNight) = Exit (Json snapshot)
  /\ traceOf (investigate "D" "A" detectiveNight)
     = [(ToSocket (Some "sock-D"), investigationResult "A" Positive);
        (ToRoom (gameId detectiveNight), gameUpdated snapshot);
        (ToRoom (gameId detectiveNight), phaseChanged NightDoctor)]
  /\ detectiveResult snapshot = Some Positive.
Proof.
  cbv zeta. split; [vm_compute; reflexivity|].
  split; [vm_compute; reflexivity | reflexivity].
Qed.

(* ------------------------------------------------------------------ *)
(** ** Rejected requests *)

Lemma rejected_whenever_400 (r : Flow unit * Game * list Emit) (g : Game)
  (msg : string) :
  (exists m, r = reject m g)
  \/ (forall m, flowOf r <> Exit (Status400 m)) ->
  flowOf r = Exit (Status400 msg) -> r = reject msg g.
Proof.
  intros [[m ->] | H] Hf.
  - unfold reject, flowOf in *. cbn in Hf. now inversion Hf.
  - now apply H in Hf.
Qed.

Lemma mafiaVoteAccepted_not_400 (v t : string) (g : Game) (m : string) :
  flowOf (mafiaVoteAccepted v t g) <> Exit (Status400 m).
Proof.
  rewrite mafiaVoteAccepted_run. cbv zeta.
  destruct (Nat.eqb _ _); discriminate.
Qed.

Lemma dayVoteAccepted_not_400 (v t : string) (g : Game) (m : string) :
  flowOf (tryCatch (dayVoteAccepted v t) g) <> Exit (Status400 m).
Proof.
  unfold tryCatch. rewrite dayVoteAccepted_run. cbv zeta.
  destruct (Nat.eqb _ _); [|discriminate].
  destruct (dayResolve_flow (length (filter isAlive (players g)))
              (set_votes (map_set v t (votes g)) g)) as [H | H].
  - destruct (dayResolve _ _) as [[fl g2] e2]. unfold flowOf in H. cbn in H.
    subst fl. discriminate.
  - rewrite H. discriminate.
Qed.

Lemma existsb_false_forall (pred : Player -> bool) (ps : list Player) :
  existsb pred ps = false <-> (forall p, In p ps -> pred p = false).
Proof.
  induction ps as [|q ps IH]; simpl.
  - split; [intros _ p [] | reflexivity].
  - rewrite orb_false_iff, IH. split.
    + intros [H1 H2] p [<- | Hp]; auto.
    + intros H. split; [apply H; now left | intros p Hp; apply H; now right].
Qed.

Lemma no_alive_named (n : string) (ps : list Player) :
  (forall p, In p ps -> name p = n -> isAlive p = false) ->
  existsb (aliveNamed n) ps = false.
Proof.
  intros H. apply existsb_false_forall. intros p Hp. unfold aliveNamed, named.
  destruct (String.eqb_spec (name p) n) as [E|]; [|reflexivity].
  now rewrite (H p Hp E).
Qed.

Lemma map_has_in (k : string) (m : VoteMap) :
  In k (map fst m) -> map_has k m = true.
Proof.
  intros H. unfold map_has. apply existsb_exists.
  apply in_map_iff in H. destruct H as (kv & <- & Hin).
  exists kv. split; [exact Hin | apply String.eqb_refl].
Qed.

Lemma wrongPhase_of (ph : Phase) (g : Game) :
  state g <> InProgress \/ currentPhase g <> ph -> wrongPhase ph g = true.
Proof.
  unfold wrongPhase. intros [H | H].
  - destruct (state g); try reflexivity. congruence.
  - destruct (state_eqb (state g) InProgress); [|reflexivity]. simpl.
    destruct (currentPhase g), ph; try reflexivity; congruence.
Qed.

Lemma no_eligible (elig : Player -> bool) (n : string) (ps : list Player)
  (ok : Player -> bool) :
  (forall p, elig p = (named n p && ok p && isAlive p)%bool
             \/ elig p = (ok p && named n p && isAlive p)%bool) ->
  (forall p, In p ps -> name p = n -> isAlive p = true -> ok p = false) ->
  existsb elig ps = false.
Proof.
  intros He H. apply existsb_false_forall. intros p Hp.
  assert (X : (named n p && ok p && isAlive p)%bool = false).
  { unfold named. destruct (String.eqb_spec (name p) n) as [E|]; [|reflexivity].
    destruct (isAlive p) eqn:A; [|now rewrite andb_false_r].
    now rewrite (H p Hp E A). }
  destruct (He p) as [-> | ->]; [exact X|].
  rewrite <- X. now rewrite (andb_comm (ok p)).
Qed.

Lemma mafiaVote_400 (v t : string) (g : Game) (msg : string) :
  flowOf (mafiaVote v t g) = Exit (Status400 msg) ->
  mafiaVote v t g = reject msg g.
Proof.
  apply rejected_whenever_400. rewrite mafiaVote_run.
  destruct (wrongPhase _ _); [left; eauto|].
  destruct (negb (existsb (eligibleMafiaVoter v) _)); [left; eauto|].
  destruct (map_has v _); [left; eauto|].
  destruct (negb (existsb (aliveNamed t) _)); [left; eauto|].
  right. intros m.
  destruct (validMapKey v); [apply mafiaVoteAccepted_not_400 | discriminate].
Qed.

Lemma investigate_400 (i t : string) (g : Game) (msg : string) :
  flowOf (investigate i t g) = Exit (Status400 msg) ->
  investigate i t g = reject msg g.
Proof.
  apply rejected_whenever_400. rewrite investigate_run.
  destruct (wrongPhase _ _); [left; eauto|].
  destruct (find (eligibleDetective i) _); [|left; eauto].
  destruct (detectiveResult g); [left; eauto|].
  destruct (find (aliveNamed t) _); [|left; eauto].
  right. intros m. rewrite investigateAccepted_run. discriminate.
Qed.

Lemma doctorSaveAction_400 (d t : string) (g : Game) (msg : string) :
  flowOf (doctorSaveAction d t g) = Exit (Status400 msg) ->
  doctorSaveAction d t g = reject msg g.
Proof.
  apply rejected_whenever_400. rewrite doctorSaveAction_run.
  repeat match goal with
         | |- context [if ?c then _ else _] => destruct c; [left; eauto|]
         end.
  right. intros m. rewrite doctorSaveAccepted_run. discriminate.
Qed.

Lemma dayVote_400 (v t : string) (g : Game) (msg : string) :
  flowOf (dayVote v t g) = Exit (Status400 msg) ->
  dayVote v t g = reject msg g.
Proof.
  apply rejected_whenever_400. rewrite dayVote_run.
  destruct (wrongPhase _ _); [left; eauto|].
  destruct (negb (existsb (aliveNamed v) _)); [left; eauto|].
  destruct (map_has v _); [left; eauto|].
  destruct (negb (existsb (aliveNamed t) _)); [left; eauto|].
  right. intros m.
  destruct (validMapKey v); [apply dayVoteAccepted_not_400 | discriminate].
Qed.

(** C8.  Rejected requests.  In each of the four action handlers a wrong
    phase, an invalid or dead actor, a duplicate vote, a repeated
    investigation, or an invalid or dead target makes the handler answer
    with status 400; and whenever a handler answers 400 the session document
    is returned exactly as it was found and nothing has been emitted. *)
Theorem rejected_requests_change_nothing :
  (forall v t g,
     state g <> InProgress \/ currentPhase g <> NightMafia
     \/ (forall p, In p (players g) -> name p = v -> isAlive p = true ->
                   isMafiaRole (role p) = false)
     \/ In v (map fst (mafiaVotes g))
     \/ (forall p, In p (players g) -> name p = t -> isAlive p = false) ->
     exists msg, mafiaVote v t g = (Exit (Status400 msg), g, []))
  /\ (forall i t g,
        state g <> InProgress \/ currentPhase g <> NightDetective
        \/ (forall p, In p (players g) -> name p = i -> isAlive p = true ->
                      role_eqb (role p) Detective = false)
        \/ detectiveResult g <> None
        \/ (forall p, In p (players g) -> name p = t -> isAlive p = false) ->
        exists msg, investigate i t g = (Exit (Status400 msg), g, []))
  /\ (forall d t g,
        state g <> InProgress \/ currentPhase g <> NightDoctor
        \/ (forall p, In p (players g) -> name p = d -> isAlive p = true ->
                      role_eqb (role p) Doctor = false)
        \/ (forall p, In p (players g) -> name p = t -> isAlive p = false) ->
        exists msg, doctorSaveAction d t g = (Exit (Status400 msg), g, []))
  /\ (forall v t g,
        state g <> InProgress \/ currentPhase g <> Day
        \/ (forall p, In p (players g) -> name p = v -> isAlive p = false)
        \/ In v (map fst (votes g))
        \/ (forall p, In p (players g) -> name p = t -> isAlive p = false) ->
        exists msg, dayVote v t g = (Exit (Status400 msg), g, []))
  /\ (forall v t g msg,
        flowOf (mafiaVote v t g) = Exit (Status400 msg) ->
        mafiaVote v t g = (Exit (Status400 msg), g, []))
  /\ (forall i t g msg,
        flowOf (investigate i t g) = Exit (Status400 msg) ->
        investigate i t g = (Exit (Status400 msg), g, []))
  /\ (forall d t g msg,
        flowOf (doctorSaveAction d t g) = Exit (Status400 msg) ->
        doctorSaveAction d t g = (Exit (Status400 msg), g, []))
  /\ (forall v t g msg,
        flowOf (dayVote v t g) = Exit (Status400 msg) ->
        dayVote v t g = (Exit (Status400 msg), g, [])).
Proof.
  repeat split;
    try (intros; first [now apply mafiaVote_400 | now apply investigate_400
                       | now apply doctorSaveAction_400 | now apply dayVote_400]).
  - intros v t g H. rewrite mafiaVote_run. unfold reject.
    destruct (wrongPhase NightMafia g) eqn:E1; [eauto|].
    destruct (existsb (eligibleMafiaVoter v) (players g)) eqn:E2; [|simpl; eauto].
    destruct (map_has v (mafiaVotes g)) eqn:E3; [simpl; eauto|].
    destruct (existsb (aliveNamed t) (players g)) eqn:E4; [|simpl; eauto].
    exfalso. destruct H as [H | [H | [H | [H | H]]]].
    + rewrite wrongPhase_of in E1; [discriminate | now left].
    + rewrite wrongPhase_of in E1; [discriminate | now right].
    + rewrite (no_eligible _ v _ (fun p => isMafiaRole (role p))) in E2;
        [discriminate | intros q; right; reflexivity | exact H].
    + rewrite (map_has_in _ _ H) in E3. discriminate.
    + rewrite (no_alive_named _ _ H) in E4. discriminate.
  - intros i t g H. rewrite investigate_run. unfold reject.
    destruct (wrongPhase NightDetective g) eqn:E1; [eauto|].
    destruct (find (eligibleDetective i) (players g)) eqn:E2; [|eauto].
    destruct (detectiveResult g) eqn:E3; [eauto|].
    destruct (find (aliveNamed t) (players g)) eqn:E4; [|eauto].
    exfalso. apply existsb_of_find in E2, E4.
    destruct H as [H | [H | [H | [H | H]]]].
    + rewrite wrongPhase_of in E1; [discriminate | now left].
    + rewrite wrongPhase_of in E1; [discriminate | now right].
    + rewrite (no_eligible _ i _ (fun p => role_eqb (role p) Detective)) in E2;
        [discriminate | intros q; left; reflexivity | exact H].
    + now apply H.
    + rewrite (no_alive_named _ _ H) in E4. discriminate.
  - intros d t g H. rewrite doctorSaveAction_run. unfold reject.
    destruct (wrongPhase NightDoctor g) eqn:E1; [eauto|].
    destruct (existsb (eligibleDoctor d) (players g)) eqn:E2; [|simpl; eauto].
    destruct (existsb (aliveNamed t) (players g)) eqn:E4; [|simpl; eauto].
    exfalso. destruct H as [H | [H | [H | H]]].
    + rewrite wrongPhase_of in E1; [discriminate | now left].
    + rewrite wrongPhase_of in E1; [discriminate | now right].
    + rewrite (no_eligible _ d _ (fun p => role_eqb (role p) Doctor)) in E2;
        [discriminate | intros q; left; reflexivity | exact H].
    + rewrite (no_alive_named _ _ H) in E4. discriminate.
  - intros v t g H. rewrite dayVote_run. unfold reject.
    destruct (wrongPhase Day g) eqn:E1; [eauto|].
    destruct (existsb (aliveNamed v) (players g)) eqn:E2; [|simpl; eauto].
    destruct (map_has v (votes g)) eqn:E3; [simpl; eauto|].
    destruct (existsb (aliveNamed t) (players g)) eqn:E4; [|simpl; eauto].
    exfalso. destruct H as [H | [H | [H | [H | H]]]].
    + rewrite wrongPhase_of in E1; [discriminate | now left].
    + rewrite wrongPhase_of in E1; [discriminate | now right].
    + rewrite (no_alive_named _ _ H) in E2. discriminate.
    + rewrite (map_has_in _ _ H) in E3. discriminate.
    + rewrite (no_alive_named _ _ H) in E4. discriminate.
Qed.

Lemma rejected_requests_change_nothing_witness :
  (exists msg, mafiaVote "A" "B" wrongPhaseVote
               = (Exit (Status400 msg), wrongPhaseVote, []))
  /\ (exists msg, dayVote "A" "C" alreadyVoted
                  = (Exit (Status400 msg), alreadyVoted, []))
  /\ dayVote "B" "Z" alreadyVoted
     = (Exit (Status400 "Invalid target"), alreadyVoted, []).
Proof.
  destruct rejected_requests_change_nothing
    as (Hm & _ & _ & Hd & _ & _ & _ & Hd400).
  split; [|split].
  - apply Hm. right. left. discriminate.
  - apply Hd. right. right. right. left. simpl. auto.
  - apply Hd400. reflexivity.
Defined.

(* ------------------------------------------------------------------ *)
(** ** Where win evaluation happens *)

Lemma noVerdict_reject (msg : string) (g : Game) : noVerdict (reject msg g) g.
Proof. split; reflexivity. Qed.

Lemma quiet_noVerdict (r : Flow unit * Game * list Emit) (g : Game) :
  quiet r g -> noVerdict r g.
Proof.
  intros (_ & Hs & _ & He). split; [exact Hs|].
  now apply controllerEvent_not_gameOver.
Qed.

Lemma mafiaVote_noVerdict (v t : string) (g : Game) :
  noVerdict (mafiaVote v t g) g.
Proof.
  rewrite mafiaVote_run.
  repeat match goal with
         | |- context [if ?c then _ else _] =>
             destruct c; [apply noVerdict_reject|]
         end.
  destruct (validMapKey v); [|split; reflexivity].
  rewrite mafiaVoteAccepted_run. cbv zeta.
  assert (Hcast : forall l : list Player,
             existsb isGameOver
               (map (fun p => (ToSocket (socketId p), mafiaVoteCast v t)) l)
             = false) by (induction l; simpl; auto).
  destruct (Nat.eqb _ _); unfold noVerdict, docOf, traceOf; cbn [fst snd].
  - match goal with |- context [setPhase ?p ?x] =>
      destruct (quiet_noVerdict _ _ (setPhase_is_quiet p x)) as [Hs He] end.
    unfold docOf, traceOf in Hs, He. split.
    + rewrite Hs. reflexivity.
    + rewrite existsb_app. apply orb_false_intro; [apply Hcast | exact He].
  - rewrite Hcast. split; reflexivity.
Qed.

Lemma investigate_noVerdict (i t : string) (g : Game) :
  noVerdict (investigate i t g) g.
Proof.
  rewrite investigate_run.
  destruct (wrongPhase _ _); [apply noVerdict_reject|].
  destruct (find (eligibleDetective i) _); [|apply noVerdict_reject].
  destruct (detectiveResult g); [apply noVerdict_reject|].
  destruct (find (aliveNamed t) _); [|apply noVerdict_reject].
  rewrite investigateAccepted_run. cbv zeta.
  match goal with |- context [setPhase ?p ?x] =>
    destruct (quiet_noVerdict _ _ (setPhase_is_quiet p x)) as [Hs He] end.
  unfold noVerdict, docOf, traceOf in *. cbn [fst snd].
  rewrite Hs. cbn. rewrite He. split; reflexivity.
Qed.

Lemma doctorSaveAction_noVerdict (d t : string) (g : Game) :
  noVerdict (doctorSaveAction d t g) g.
Proof.
  rewrite doctorSaveAction_run.
  repeat match goal with
         | |- context [if ?c then _ else _] =>
             destruct c; [apply noVerdict_reject|]
         end.
  rewrite doctorSaveAccepted_run. cbv zeta.
  destruct (resolveNight_quiet (set_doctorSave (Some t) g)) as (Hq & _ & _).
  destruct (quiet_noVerdict _ _ Hq) as [Hs He].
  unfold noVerdict, docOf, traceOf in *. cbn [fst snd].
  rewrite Hs, He. split; reflexivity.
Qed.

Lemma dayVote_incomplete (v t : string) (g : Game) :
  length (map_set v t (votes g)) <> length (filter isAlive (players g)) ->
  noVerdict (dayVote v t g) g.
Proof.
  intros Hn. rewrite dayVote_run.
  repeat match goal with
         | |- context [if ?c then _ else _] =>
             destruct c; [apply noVerdict_reject|]
         end.
  destruct (validMapKey v); [|split; reflexivity].
  unfold tryCatch. rewrite dayVoteAccepted_run. cbv zeta.
  apply Nat.eqb_neq in Hn. cbn [votes set_votes]. rewrite Hn.
  split; reflexivity.
Qed.

Lemma nextCycle_verdict (g : Game) :
  aliveMafiaCount g = 0 \/ aliveTownCount g <= aliveMafiaCount g ->
  nextCycle g = checkWinConditions g
  /\ state (docOf (nextCycle g)) = Finished
  /\ existsb isGameOver (traceOf (nextCycle g)) = true.
Proof.
  intros H. rewrite nextCycle_run, checkWinConditions_run.
  destruct (Nat.eqb (aliveMafiaCount g) 0) eqn:E0; [repeat split|].
  destruct H as [H | H]; [rewrite H in E0; discriminate|].
  apply Nat.leb_le in H. rewrite H. repeat split.
Qed.

Lemma nextCycle_continue (g : Game) :
  state g = InProgress ->
  aliveMafiaCount g <> 0 -> aliveMafiaCount g < aliveTownCount g ->
  nextCycle g = setPhase NightMafia g
  /\ checkWinConditions g = (Next tt, g, [])
  /\ docOf (nextCycle g) = set_currentPhase NightMafia g.
Proof.
  intros Hs H0 Hlt. rewrite nextCycle_run, checkWinConditions_run.
  apply Nat.eqb_neq in H0. apply Nat.leb_gt in Hlt. rewrite H0, Hlt, Hs.
  cbn [state_eqb]. rewrite setPhase_NightMafia. repeat split.
Qed.

(** C10.  Night resolution never evaluates the win conditions: whatever the
    roster after the kill, it leaves [state] as it was, lands in [Day] and
    emits no [gameOver]; neither do the three night handlers, nor a day vote
    that leaves the ledger incomplete.  Win evaluation sits in the resolution
    of a complete day ledger, after the elimination and the clearing of the
    votes and before the next phase is chosen: a verdict finishes the game,
    no verdict leads to [NightMafia]. *)
Theorem win_evaluation_only_after_day_vote :
  (forall g,
     state (docOf (resolveNight g)) = state g
     /\ currentPhase (docOf (resolveNight g)) = Day
     /\ existsb isGameOver (traceOf (resolveNight g)) = false)
  /\ (forall v t g,
        state (docOf (mafiaVote v t g)) = state g
        /\ existsb isGameOver (traceOf (mafiaVote v t g)) = false)
  /\ (forall i t g,
        state (docOf (investigate i t g)) = state g
        /\ existsb isGameOver (traceOf (investigate i t g)) = false)
  /\ (forall d t g,
        state (docOf (doctorSaveAction d t g)) = state g
        /\ existsb isGameOver (traceOf (doctorSaveAction d t g)) = false)
  /\ (forall v t g,
        length (map_set v t (votes g)) <> length (filter isAlive (players g)) ->
        state (docOf (dayVote v t g)) = state g
        /\ existsb isGameOver (traceOf (dayVote v t g)) = false)
  /\ (forall n g,
        dayResolve n g =
        match applyElimination (dayEliminated (players g) (votes g) n) g with
        | (Next _, g1, e1) => prepend e1 (nextCycle (set_votes [] g1))
        | other => other
        end)
  /\ (forall g,
        aliveMafiaCount g = 0 \/ aliveTownCount g <= aliveMafiaCount g ->
        nextCycle g = checkWinConditions g
        /\ state (docOf (nextCycle g)) = Finished
        /\ existsb isGameOver (traceOf (nextCycle g)) = true)
  /\ (forall g,
        state g = InProgress ->
        aliveMafiaCount g <> 0 -> aliveMafiaCount g < aliveTownCount g ->
        nextCycle g = setPhase NightMafia g
        /\ checkWinConditions g = (Next tt, g, [])
        /\ docOf (nextCycle g) = set_currentPhase NightMafia g).
Proof.
  split.
  { intros g. destruct (resolveNight_quiet g) as (Hq & Hp & _).
    destruct (quiet_noVerdict _ _ Hq) as [Hs He]. auto. }
  split; [exact mafiaVote_noVerdict|].
  split; [exact investigate_noVerdict|].
  split; [exact doctorSaveAction_noVerdict|].
  split; [exact dayVote_incomplete|].
  split; [exact dayResolve_run|].
  split; [exact nextCycle_verdict | exact nextCycle_continue].
Qed.

Lemma win_evaluation_only_after_day_vote_witness :
  let final := docOf (doctorSaveAction "C" "C" lastNight) in
  aliveTownCount final <= aliveMafiaCount final
  /\ state final = InProgress
  /\ currentPhase final = Day
  /\ state (docOf (nextCycle final)) = Finished.
Proof.
  destruct win_evaluation_only_after_day_vote
    as (_ & _ & _ & Hdoc & _ & _ & Hverdict & _).
  cbv zeta. split; [vm_compute; lia|].
  split; [exact (proj1 (Hdoc "C" "C" lastNight))|].
  split; [reflexivity|].
  apply Hverdict. right. vm_compute. lia.
Defined.

(* ------------------------------------------------------------------ *)
(** ** Objects and maps *)

Lemma obj_own_None (k : string) (o : JsObj) :
  obj_own k o = None <-> ~ In k (obj_keys o).
Proof.
  induction o as [|[k' v] o IH]; simpl; [tauto|].
  destruct (String.eqb_spec k k') as [->|Hne].
  - split; [discriminate | intros H; exfalso; apply H; now left].
  - rewrite IH. split.
    + intros H [E | HIn]; [congruence | tauto].
    + tauto.
Qed.

Lemma obj_own_In (k : string) (v : jsnum) (o : JsObj) :
  obj_own k o = Some v -> In (k, v) o.
Proof.
  induction o as [|[k' v'] o IH]; simpl; [discriminate|].
  destruct (String.eqb_spec k k') as [->|Hne].
  - intros [= ->]. now left.
  - intros H. right. now apply IH.
Qed.

Lemma In_obj_own (k : string) (v : jsnum) (o : JsObj) :
  NoDup (obj_keys o) -> In (k, v) o -> obj_own k o = Some v.
Proof.
  induction o as [|[k' v'] o IH]; simpl; [tauto|].
  intros Hnd [E | HIn].
  - inversion E; subst. now rewrite String.eqb_refl.
  - inversion Hnd as [|? ? Hnot Hnd']; subst.
    destruct (String.eqb_spec k k') as [->|Hne].
    + exfalso. apply Hnot. change k' with (fst (k', v)). now apply in_map.
    + now apply IH.
Qed.

Lemma obj_replace_keys (k : string) (v : jsnum) (o : JsObj) :
  obj_keys (obj_replace k v o) = obj_keys o.
Proof.
  induction o as [|[k' v'] o IH]; simpl; [reflexivity|].
  destruct (String.eqb k k'); simpl; [reflexivity | now rewrite IH].
Qed.

Lemma obj_replace_own (k k' : string) (v : jsnum) (o : JsObj) :
  obj_own k o <> None ->
  obj_own k' (obj_replace k v o)
  = if String.eqb k' k then Some v else obj_own k' o.
Proof.
  induction o as [|[k0 v0] o IH]; simpl; [congruence|].
  destruct (String.eqb_spec k k0) as [->|Hne]; simpl.
  - intros _. destruct (String.eqb k' k0); reflexivity.
  - intros H. destruct (String.eqb_spec k' k0) as [->|Hne'].
    + destruct (String.eqb_spec k0 k); [congruence | reflexivity].
    + now apply IH.
Qed.

Lemma obj_insert_index_own (i : N) (k k' : string) (v : jsnum) (o : JsObj) :
  obj_own k o = None ->
  obj_own k' (obj_insert_index i k v o)
  = if String.eqb k' k then Some v else obj_own k' o.
Proof.
  induction o as [|[k0 v0] o IH]; simpl; [reflexivity|].
  destruct (String.eqb_spec k k0) as [->|Hne]; [discriminate|].
  intros H.
  destruct (array_index k0) as [i0|]; [destruct (N.ltb i0 i)|]; simpl;
    try reflexivity.
  destruct (String.eqb_spec k' k0) as [->|Hne'].
  - destruct (String.eqb_spec k0 k); [congruence | reflexivity].
  - now apply IH.
Qed.

Lemma obj_insert_index_keys (i : N) (k : string) (v : jsnum) (o : JsObj) :
  Permutation (obj_keys (obj_insert_index i k v o)) (k :: obj_keys o).
Proof.
  induction o as [|[k0 v0] o IH]; simpl; [reflexivity|].
  destruct (array_index k0) as [i0|]; [destruct (N.ltb i0 i)|]; simpl;
    try reflexivity.
  rewrite IH. apply perm_swap.
Qed.

Lemma obj_append_own (k k' : string) (v : jsnum) (o : JsObj) :
  obj_own k o = None ->
  obj_own k' (o ++ [(k, v)])
  = if String.eqb k' k then Some v else obj_own k' o.
Proof.
  induction o as [|[k0 v0] o IH]; simpl; [reflexivity|].
  destruct (String.eqb_spec k k0) as [->|Hne]; [discriminate|].
  intros H. destruct (String.eqb_spec k' k0) as [->|Hne'].
  - destruct (String.eqb_spec k0 k); [congruence | reflexivity].
  - now apply IH.
Qed.

(** Reading after an assignment. *)
Lemma obj_set_own (k k' : string) (v : jsnum) (o : JsObj) :
  obj_own k' (obj_set k v o)
  = if String.eqb k proto_key then obj_own k' o
    else if String.eqb k' k then Some v else obj_own k' o.
Proof.
  unfold obj_set. destruct (String.eqb k proto_key); [reflexivity|].
  destruct (obj_own k o) eqn:E.
  - apply obj_replace_own. congruence.
  - destruct (array_index k).
    + now apply obj_insert_index_own.
    + now apply obj_append_own.
Qed.

Lemma obj_set_NoDup (k : string) (v : jsnum) (o : JsObj) :
  NoDup (obj_keys o) -> NoDup (obj_keys (obj_set k v o)).
Proof.
  intros Hnd. unfold obj_set. destruct (String.eqb k proto_key); [exact Hnd|].
  destruct (obj_own k o) eqn:E.
  - now rewrite obj_replace_keys.
  - apply obj_own_None in E. destruct (array_index k).
    + eapply Permutation_NoDup;
        [symmetry; apply obj_insert_index_keys | now constructor].
    + unfold obj_keys. rewrite map_app. simpl.
      eapply Permutation_NoDup; [apply Permutation_cons_append|].
      now constructor.
Qed.

Lemma obj_incr_own (k k' : string) (o : JsObj) :
  obj_own k' (obj_incr k o)
  = if String.eqb k proto_key then obj_own k' o
    else if String.eqb k' k
         then Some (match obj_own k o with
                    | Some v => js_succ v
                    | None => JNaN
                    end)
         else obj_own k' o.
Proof.
  unfold obj_incr. destruct (obj_own k o); apply obj_set_own.
Qed.

Lemma obj_incr_NoDup (k : string) (o : JsObj) :
  NoDup (obj_keys o) -> NoDup (obj_keys (obj_incr k o)).
Proof. unfold obj_incr. destruct (obj_own k o); apply obj_set_NoDup. Qed.

Lemma obj_incr_keys (k : string) (o : JsObj) :
  obj_own k o <> None -> obj_keys (obj_incr k o) = obj_keys o.
Proof.
  intros H. unfold obj_incr, obj_set.
  destruct (obj_own k o) eqn:E; [|congruence].
  destruct (String.eqb k proto_key); [reflexivity|].
  apply obj_replace_keys.
Qed.

(* ------------------------------------------------------------------ *)
(** ** What the tally holds *)

Lemma tally_init_own (ps : list Player) (o : JsObj) (k : string) :
  obj_own k (fold_left (fun o p => obj_set (name p) (JNum 0) o) ps o)
  = if (negb (String.eqb k proto_key) && existsb (named k) ps)%bool
    then Some (JNum 0) else obj_own k o.
Proof.
  revert o. induction ps as [|p ps IH]; intros o; simpl.
  - now rewrite andb_false_r.
  - rewrite IH, obj_set_own. unfold named at 2.
    destruct (String.eqb_spec k proto_key) as [Ek|Hk]; simpl.
    + subst k.
      destruct (String.eqb_spec (name p) proto_key) as [E|E]; [reflexivity|].
      destruct (String.eqb_spec proto_key (name p)); [congruence|reflexivity].
    + destruct (existsb (named k) ps); [now rewrite orb_true_r|].
      rewrite orb_false_r.
      destruct (String.eqb_spec (name p) proto_key) as [E|E].
      * destruct (String.eqb_spec (name p) k); [congruence | reflexivity].
      * destruct (String.eqb_spec k (name p)) as [->|E'].
        -- now rewrite String.eqb_refl.
        -- destruct (String.eqb_spec (name p) k); [congruence | reflexivity].
Qed.

Lemma tally_votes_own (ts : list string) (o : JsObj) (k : string) :
  k <> proto_key ->
  obj_own k (fold_left (fun o t => obj_incr t o) ts o)
  = Nat.iter (count_occ string_dec ts k) cell_incr (obj_own k o).
Proof.
  intros Hk. revert o. induction ts as [|t ts IH]; intros o; simpl;
    [reflexivity|].
  rewrite IH, obj_incr_own.
  destruct (string_dec t k) as [->|Hne].
  - rewrite (proj2 (String.eqb_neq _ _) Hk), String.eqb_refl.
    rewrite Nat.iter_succ_r. reflexivity.
  - destruct (String.eqb t proto_key); [reflexivity|].
    destruct (String.eqb_spec k t); [congruence | reflexivity].
Qed.

Lemma tally_proto_absent (ps : list Player) (m : VoteMap) :
  obj_own proto_key (voteCount ps m) = None.
Proof.
  unfold voteCount, tally_votes, tally_init.
  assert (H : forall ts o, obj_own proto_key o = None ->
            obj_own proto_key (fold_left (fun o t => obj_incr t o) ts o) = None).
  { induction ts as [|t ts IH]; intros o Ho; simpl; [exact Ho|].
    apply IH. rewrite obj_incr_own.
    destruct (String.eqb_spec t proto_key) as [Et|Hne]; [exact Ho|].
    destruct (String.eqb_spec proto_key t); [congruence | exact Ho]. }
  apply H. rewrite tally_init_own. reflexivity.
Qed.

Lemma iter_cell_incr_num (n c : nat) :
  Nat.iter n cell_incr (Some (JNum c)) = Some (JNum (c + n)).
Proof.
  induction n as [|n IH]; simpl.
  - now rewrite Nat.add_0_r.
  - rewrite IH. simpl. now rewrite Nat.add_succ_r.
Qed.

Lemma iter_cell_incr_none (n : nat) :
  Nat.iter n cell_incr None = match n with O => None | S _ => Some JNaN end.
Proof.
  induction n as [|n IH]; simpl; [reflexivity|].
  rewrite IH. destruct n; reflexivity.
Qed.

Lemma voteCount_own (ps : list Player) (m : VoteMap) (k : string) :
  k <> proto_key ->
  obj_own k (voteCount ps m)
  = if existsb (named k) ps then Some (JNum (votesFor k m))
    else match votesFor k m with O => None | S _ => Some JNaN end.
Proof.
  intros Hk. unfold voteCount, tally_votes, tally_init.
  rewrite (tally_votes_own _ _ _ Hk), tally_init_own.
  rewrite (proj2 (String.eqb_neq _ _) Hk). simpl.
  destruct (existsb (named k) ps).
  - apply iter_cell_incr_num.
  - apply iter_cell_incr_none.
Qed.

Lemma voteCount_NoDup (ps : list Player) (m : VoteMap) :
  NoDup (obj_keys (voteCount ps m)).
Proof.
  unfold voteCount, tally_votes, tally_init.
  assert (H1 : forall ts o, NoDup (obj_keys o) ->
            NoDup (obj_keys (fold_left (fun o t => obj_incr t o) ts o))).
  { induction ts; intros o Ho; simpl; [exact Ho|].
    now apply IHts, obj_incr_NoDup. }
  assert (H2 : forall (l : list Player) o, NoDup (obj_keys o) ->
            NoDup (obj_keys
                     (fold_left (fun o p => obj_set (name p) (JNum 0) o) l o))).
  { induction l; intros o Ho; simpl; [exact Ho|].
    now apply IHl, obj_set_NoDup. }
  apply H1, H2. constructor.
Qed.

(** On a well-formed ledger every cell of the tally is the vote count of a
    player name. *)
Lemma voteCount_entries (ps : list Player) (m : VoteMap) (k : string)
  (v : jsnum) :
  targetsOnRoster ps m ->
  In (k, v) (voteCount ps m) ->
  v = JNum (votesFor k m) /\ existsb (named k) ps = true /\ k <> proto_key.
Proof.
  intros Hwf Hin. apply In_obj_own in Hin; [|apply voteCount_NoDup].
  destruct (string_dec k proto_key) as [Ek|Hk].
  - subst k. rewrite tally_proto_absent in Hin. discriminate.
  - rewrite (voteCount_own _ _ _ Hk) in Hin.
    destruct (existsb (named k) ps) eqn:E.
    + inversion Hin. auto.
    + destruct (votesFor k m) eqn:Ev; [discriminate|].
      assert (Hk' : In k (map_values m)).
      { apply (count_occ_In string_dec). unfold votesFor in Ev. lia. }
      destruct (Hwf k Hk') as [_ Hr]. congruence.
Qed.

Lemma voteCount_roster (ps : list Player) (m : VoteMap) (k : string) :
  k <> proto_key -> existsb (named k) ps = true ->
  In (k, JNum (votesFor k m)) (voteCount ps m).
Proof.
  intros Hk Hr. apply obj_own_In. rewrite (voteCount_own _ _ _ Hk), Hr.
  reflexivity.
Qed.

(* ------------------------------------------------------------------ *)
(** ** The maximum and the candidates *)

Lemma fold_max_counts (o : JsObj) (a : nat) :
  countsOnly o ->
  exists M,
    fold_left js_max2 (obj_values o) (JNum a) = JNum M
    /\ a <= M
    /\ (M = a \/ exists k, In (k, JNum M) o)
    /\ (forall k n, In (k, JNum n) o -> n <= M).
Proof.
  revert a. induction o as [|[k v] o IH]; intros a Hc; simpl.
  - exists a. repeat split; auto. intros ? ? [].
  - destruct (Hc k v (or_introl eq_refl)) as [n ->]. simpl.
    destruct (IH (Nat.max a n)) as (M & HM & Hle & Hwit & Hub).
    { intros k' v' H'. apply (Hc k' v'). now right. }
    exists M. split; [exact HM|]. split; [lia|]. split.
    + destruct Hwit as [-> | [k' Hk']].
      * destruct (Nat.max_spec a n) as [[_ E] | [_ E]]; rewrite E.
        -- right. exists k. now left.
        -- now left.
      * right. exists k'. now right.
    + intros k' n' [E | H'].
      * inversion E; subst. lia.
      * eauto.
Qed.

Lemma math_max_counts (o : JsObj) :
  countsOnly o -> o <> [] ->
  exists M,
    math_max (obj_values o) = JNum M
    /\ (exists k, In (k, JNum M) o)
    /\ (forall k n, In (k, JNum n) o -> n <= M).
Proof.
  intros Hc Hne. destruct o as [|[k v] o]; [congruence|].
  destruct (Hc k v (or_introl eq_refl)) as [n ->].
  unfold math_max. simpl.
  destruct (fold_max_counts o n) as (M & HM & Hle & Hwit & Hub).
  { intros k' v' H'. apply (Hc k' v'). now right. }
  exists M. split; [exact HM|]. split.
  - destruct Hwit as [-> | [k' Hk']]; [exists k; now left | exists k'; now right].
  - intros k' n' [E | H']; [inversion E; subst; lia | eauto].
Qed.

Lemma candidatesOf_In (o : JsObj) (mx : jsnum) (k : string) :
  In k (candidatesOf o mx)
  <-> exists v, In (k, v) o /\ js_strict_eq v mx = true.
Proof.
  unfold candidatesOf. rewrite in_map_iff. split.
  - intros ([k' v] & <- & H). apply filter_In in H. eauto.
  - intros (v & H1 & H2). exists (k, v). split; [reflexivity|].
    apply filter_In. auto.
Qed.

Lemma includes_In (l : list string) (s : string) :
  includes l s = true <-> In s l.
Proof.
  unfold includes. rewrite existsb_exists. split.
  - intros (x & Hx & E). apply String.eqb_eq in E. now subst.
  - intros H. exists s. split; [exact H | apply String.eqb_refl].
Qed.

Lemma find_rev_last {A} (P : A -> bool) (l : list A) :
  (exists x, In x l /\ P x = true) ->
  exists t earlier later,
    find P (rev l) = Some t /\ l = earlier ++ t :: later
    /\ P t = true /\ (forall u, In u later -> P u = false).
Proof.
  induction l as [|a l IH] using rev_ind; intros (x & Hx & Px); [destruct Hx|].
  rewrite rev_app_distr. simpl. destruct (P a) eqn:Pa.
  - exists a, l, []. repeat split; auto. intros ? [].
  - apply in_app_or in Hx. destruct Hx as [Hx | [-> | []]]; [|congruence].
    destruct IH as (t & e & la & Hf & -> & Pt & Hl); [eauto|].
    exists t, e, (la ++ [a]). repeat split; auto.
    + now rewrite <- app_assoc.
    + intros u Hu. apply in_app_or in Hu. destruct Hu as [Hu | [<- | []]]; auto.
Qed.

(** The mafia target on a well-formed, non-empty ledger. *)
Lemma resolveMafiaTarget_spec (ps : list Player) (m : VoteMap) :
  m <> [] -> targetsOnRoster ps m ->
  exists t earlier later,
    resolveMafiaTarget ps m = Some t
    /\ (forall k, votesFor k m <= votesFor t m)
    /\ map_values m = earlier ++ t :: later
    /\ (forall u, In u later -> votesFor u m < votesFor t m).
Proof.
  intros Hne Hwf.
  assert (Hc : countsOnly (voteCount ps m)).
  { intros k v H. destruct (voteCount_entries _ _ _ _ Hwf H) as [-> _]. eauto. }
  assert (Htgt : forall u, In u (map_values m) ->
            In (u, JNum (votesFor u m)) (voteCount ps m) /\ 1 <= votesFor u m).
  { intros u Hu. destruct (Hwf u Hu) as [H1 H2]. split.
    - now apply voteCount_roster.
    - unfold votesFor. now apply (count_occ_In string_dec). }
  assert (Hvc : voteCount ps m <> []).
  { destruct m as [|[v0 t0] m]; [congruence|].
    destruct (Htgt t0 (or_introl eq_refl)) as [H _]. intros E.
    rewrite E in H. destruct H. }
  destruct (math_max_counts _ Hc Hvc) as (M & HM & (k0 & Hk0) & Hub).
  assert (Hcand : forall k, In k (candidatesOf (voteCount ps m) (JNum M))
                            <-> In (k, JNum M) (voteCount ps m)).
  { intros k. rewrite candidatesOf_In. split.
    - intros (v & Hin & E). destruct (Hc k v Hin) as [n ->]. simpl in E.
      apply Nat.eqb_eq in E. now subst.
    - intros H. exists (JNum M). split; [exact H | apply Nat.eqb_refl]. }
  assert (Hall : forall k, votesFor k m <= M).
  { intros k. destruct (votesFor k m) eqn:E; [lia|]. rewrite <- E.
    apply (Hub k). apply Htgt. apply (count_occ_In string_dec).
    unfold votesFor in E. lia. }
  assert (HM1 : 1 <= M).
  { destruct m as [|[v0 t0] m]; [congruence|].
    destruct (Htgt t0 (or_introl eq_refl)) as [_ H].
    specialize (Hall t0). lia. }
  assert (Hcv : forall k, In k (candidatesOf (voteCount ps m) (JNum M)) ->
                          votesFor k m = M).
  { intros k Hk. apply Hcand in Hk.
    destruct (voteCount_entries _ _ _ _ Hwf Hk) as [E _]. now inversion E. }
  assert (Hk0t : In k0 (map_values m)).
  { apply (count_occ_In string_dec). apply Hcand in Hk0.
    apply Hcv in Hk0. unfold votesFor in Hk0. lia. }
  destruct (find_rev_last (includes (candidatesOf (voteCount ps m) (JNum M)))
              (map_values m))
    as (t & earlier & later & Hfind & Hsplit & Pt & Hlater).
  { exists k0. split; [exact Hk0t|]. apply includes_In. now apply Hcand. }
  apply includes_In in Pt.
  exists t, earlier, later. rewrite (Hcv t Pt).
  split; [|split; [exact Hall | split; [exact Hsplit|]]].
  - unfold resolveMafiaTarget. cbv zeta. rewrite HM.
    destruct (candidatesOf (voteCount ps m) (JNum M)) as [|c [|c' cs]] eqn:EC.
    + destruct Pt.
    + destruct Pt as [-> | []]. reflexivity.
    + exact Hfind.
  - intros u Hu.
    assert (Hut : In u (map_values m))
      by (rewrite Hsplit; apply in_or_app; right; now right).
    destruct (Htgt u Hut) as [Hin _]. specialize (Hall u).
    destruct (Nat.eq_dec (votesFor u m) M) as [E|]; [|lia].
    exfalso. rewrite E in Hin. apply Hcand, includes_In in Hin.
    rewrite (Hlater u Hu) in Hin. discriminate.
Qed.

(* ------------------------------------------------------------------ *)
(** ** The mafia vote *)

Lemma map_set_new (k v : string) (m : VoteMap) :
  map_has k m = false -> map_set k v m = m ++ [(k, v)].
Proof.
  unfold map_has. induction m as [|[k' v'] m IH]; simpl; [reflexivity|].
  intros H. apply orb_false_iff in H. destruct H as [H1 H2].
  rewrite H1, (IH H2). reflexivity.
Qed.

Lemma setPhase_NightDetective_lands (g : Game) :
  currentPhase (docOf (setPhase NightDetective g)) = NightDetective
  \/ currentPhase (docOf (setPhase NightDetective g)) = NightDoctor
  \/ currentPhase (docOf (setPhase NightDetective g)) = Day.
Proof.
  destruct (existsb (aliveWithRole Detective) (players g)) eqn:E.
  - left. now rewrite (setPhase_NightDetective_open g E).
  - right. rewrite (setPhase_NightDetective_skip g E), setPhase_overwrites.
    destruct (existsb (aliveWithRole Doctor) (players g)) eqn:E'.
    + left. now rewrite (setPhase_NightDoctor_open g E').
    + right. rewrite (setPhase_NightDoctor_skip g E').
      apply resolveNight_quiet.
Qed.

Lemma mafiaVote_trigger (v t : string) (g : Game) :
  wrongPhase NightMafia g = false ->
  existsb (eligibleMafiaVoter v) (players g) = true ->
  map_has v (mafiaVotes g) = false ->
  existsb (aliveNamed t) (players g) = true ->
  validMapKey v = true ->
  let ledger := mafiaVotes g ++ [(v, t)] in
  let recorded := set_mafiaVotes ledger g in
  let living := length (filter aliveMafiaP (players g)) in
  (length ledger = living ->
   docOf (mafiaVote v t g)
   = docOf (setPhase NightDetective
              (set_mafiaTarget (resolveMafiaTarget (players g) ledger)
                 recorded))
   /\ currentPhase (docOf (mafiaVote v t g)) <> NightMafia)
  /\ (length ledger <> living ->
      docOf (mafiaVote v t g) = recorded
      /\ currentPhase (docOf (mafiaVote v t g)) = NightMafia
      /\ mafiaTarget (docOf (mafiaVote v t g)) = mafiaTarget g).
Proof.
  intros H1 H2 H3 H4 H5. cbv zeta.
  rewrite mafiaVote_run, H1, H2, H3, H4, H5. cbn [negb].
  rewrite mafiaVoteAccepted_run. cbv zeta. rewrite (map_set_new _ _ _ H3).
  cbn [mafiaVotes set_mafiaVotes].
  split; intros Hlen.
  - apply Nat.eqb_eq in Hlen. rewrite Hlen. unfold docOf. cbn [fst snd].
    split; [reflexivity|].
    match goal with |- context [setPhase NightDetective ?x] =>
      destruct (setPhase_NightDetective_lands x) as [E | [E | E]] end;
      unfold docOf in E; rewrite E; discriminate.
  - apply Nat.eqb_neq in Hlen. rewrite Hlen. unfold docOf. cbn [fst snd].
    split; [reflexivity|]. split; [|reflexivity]. cbn.
    unfold wrongPhase in H1. apply orb_false_iff in H1. destruct H1 as [_ H1].
    destruct (currentPhase g); try discriminate. reflexivity.
Qed.

Lemma votesFor_cons (k v t : string) (m : VoteMap) :
  votesFor k ((v, t) :: m)
  = if String.eqb t k then S (votesFor k m) else votesFor k m.
Proof.
  unfold votesFor. simpl. destruct (string_dec t k) as [->|Hne].
  - now rewrite String.eqb_refl.
  - now rewrite (proj2 (String.eqb_neq _ _) Hne).
Qed.

Lemma mafia_majority_example (ps : list Player) (a b c x y : string) :
  x <> y -> x <> proto_key -> y <> proto_key ->
  existsb (named x) ps = true -> existsb (named y) ps = true ->
  resolveMafiaTarget ps [(a, x); (b, x); (c, y)] = Some x.
Proof.
  intros Hxy Hx Hy Rx Ry.
  destruct (resolveMafiaTarget_spec ps [(a, x); (b, x); (c, y)])
    as (t & e & l & -> & Hmax & Hsplit & _).
  { discriminate. }
  { intros u [<- | [<- | [<- | []]]]; auto. }
  f_equal. specialize (Hmax x). rewrite !votesFor_cons in Hmax.
  rewrite String.eqb_refl, (proj2 (String.eqb_neq _ _)) in Hmax by congruence.
  destruct (String.eqb_spec x t) as [|Hne]; [congruence|].
  destruct (String.eqb y t); cbn in Hmax; lia.
Qed.

Lemma mafia_tie_example (ps : list Player) (a b x y : string) :
  x <> y -> x <> proto_key -> y <> proto_key ->
  existsb (named x) ps = true -> existsb (named y) ps = true ->
  resolveMafiaTarget ps [(a, x); (b, y)] = Some y.
Proof.
  intros Hxy Hx Hy Rx Ry.
  destruct (resolveMafiaTarget_spec ps [(a, x); (b, y)])
    as (t & e & l & -> & Hmax & Hsplit & Hlater).
  { discriminate. }
  { intros u [<- | [<- | []]]; auto. }
  f_equal. cbn in Hsplit.
  destruct e as [|e1 [|e2 [|e3 e]]]; cbn in Hsplit; inversion Hsplit; subst.
  - exfalso. specialize (Hlater y (or_introl eq_refl)).
    rewrite !votesFor_cons in Hlater.
    rewrite String.eqb_refl, (proj2 (String.eqb_neq _ _)) in Hlater
      by congruence.
    rewrite String.eqb_refl, (proj2 (String.eqb_neq _ _)) in Hlater
      by congruence.
    cbn in Hlater. lia.
  - reflexivity.
Qed.

(** The mafia vote on usable names.  A vote that passes the checks of the
    handler and whose voter name the ledger accepts as a key is appended to
    the ledger, and the resolution runs exactly when the ledger then has as
    many entries as there are alive Mafia/Godfather players at that moment:
    in that case the target is chosen and the phase leaves [NightMafia],
    otherwise only the vote is recorded.  On a ledger whose targets are
    names of players other than [__proto__], the chosen target has the most
    votes and is, among the targets with that many votes, the one voted for
    last in casting order.  Votes A:X, B:X, C:Y give X, and votes A:X, B:Y
    give Y. *)
Lemma mafiaVote_resolution_usable :
  (forall v t g,
     wrongPhase NightMafia g = false ->
     existsb (eligibleMafiaVoter v) (players g) = true ->
     map_has v (mafiaVotes g) = false ->
     existsb (aliveNamed t) (players g) = true ->
     validMapKey v = true ->
     let ledger := mafiaVotes g ++ [(v, t)] in
     let recorded := set_mafiaVotes ledger g in
     let living := length (filter aliveMafiaP (players g)) in
     (length ledger = living ->
      docOf (mafiaVote v t g)
      = docOf (setPhase NightDetective
                 (set_mafiaTarget (resolveMafiaTarget (players g) ledger)
                    recorded))
      /\ currentPhase (docOf (mafiaVote v t g)) <> NightMafia)
     /\ (length ledger <> living ->
         docOf (mafiaVote v t g) = recorded
         /\ currentPhase (docOf (mafiaVote v t g)) = NightMafia
         /\ mafiaTarget (docOf (mafiaVote v t g)) = mafiaTarget g))
  /\ (forall ps ledger,
        ledger <> [] -> targetsOnRoster ps ledger ->
        exists t earlier later,
          resolveMafiaTarget ps ledger = Some t
          /\ (forall k, votesFor k ledger <= votesFor t ledger)
          /\ map_values ledger = earlier ++ t :: later
          /\ (forall u, In u later -> votesFor u ledger < votesFor t ledger))
  /\ (forall ps a b c x y,
        x <> y -> x <> proto_key -> y <> proto_key ->
        existsb (named x) ps = true -> existsb (named y) ps = true ->
        resolveMafiaTarget ps [(a, x); (b, x); (c, y)] = Some x)
  /\ (forall ps a b x y,
        x <> y -> x <> proto_key -> y <> proto_key ->
        existsb (named x) ps = true -> existsb (named y) ps = true ->
        resolveMafiaTarget ps [(a, x); (b, y)] = Some y).
Proof.
  split; [exact mafiaVote_trigger|].
  split; [exact resolveMafiaTarget_spec|].
  split; [exact mafia_majority_example | exact mafia_tie_example].
Qed.

(** C1.  The majority rule of the mafia vote is lost on a player named
    [__proto__].  In [protoNight] the three living mafia players vote: A and
    B for the living player [__proto__], then C for W.  The vote of C
    completes the ledger, so the resolution runs; [__proto__] has two of the
    three votes and W one, and the handler stores W as [mafiaTarget]: the
    tally object holds no cell for [__proto__], so its votes are not
    counted. *)
Theorem mafiaVote_loses_the_majority_of_proto :
  let ledger := mafiaVotes protoNight ++ [("C", "W")] in
  existsb (aliveNamed proto_key) (players protoNight) = true
  /\ length ledger = length (filter aliveMafiaP (players protoNight))
  /\ votesFor proto_key ledger = 2
  /\ votesFor "W" ledger = 1
  /\ voteCount (players protoNight) ledger
     = [("A", JNum 0); ("B", JNum 0); ("C", JNum 0); ("D", JNum 0);
        ("E", JNum 0); ("W", JNum 1); ("P8", JNum 0); ("P9", JNum 0)]
  /\ mafiaVotes (docOf (mafiaVote "C" "W" protoNight)) = ledger
  /\ mafiaTarget (docOf (mafiaVote "C" "W" protoNight)) = Some "W".
Proof.
  cbv zeta. split; [reflexivity|]. split; [reflexivity|].
  split; [reflexivity|]. split; [reflexivity|].
  split; [vm_compute; reflexivity|].
  split; vm_compute; reflexivity.
Qed.

(* ------------------------------------------------------------------ *)
(** ** The order of the tally *)

Lemma find_app {A} (P : A -> bool) (l1 l2 : list A) :
  find P (l1 ++ l2)
  = match find P l1 with Some x => Some x | None => find P l2 end.
Proof.
  induction l1 as [|a l1 IH]; simpl; [reflexivity|].
  destruct (P a); [reflexivity | exact IH].
Qed.

Lemma find_map_name (Q : string -> bool) (ps : list Player) :
  find Q (map name ps) = option_map name (find (fun p => Q (name p)) ps).
Proof.
  induction ps as [|p ps IH]; simpl; [reflexivity|].
  destruct (Q (name p)); [reflexivity | exact IH].
Qed.

Lemma find_ext_in {A} (P Q : A -> bool) (l : list A) :
  (forall x, In x l -> P x = Q x) -> find P l = find Q l.
Proof.
  induction l as [|a l IH]; simpl; intros H; [reflexivity|].
  rewrite (H a (or_introl eq_refl)). destruct (Q a); [reflexivity|].
  apply IH. intros x Hx. apply H. now right.
Qed.

Lemma obj_set_plain_keys (k : string) (v : jsnum) (o : JsObj) :
  k <> proto_key -> array_index k = None ->
  obj_keys (obj_set k v o)
  = match obj_own k o with
    | Some _ => obj_keys o
    | None => obj_keys o ++ [k]
    end.
Proof.
  intros Hk Hi. unfold obj_set. rewrite (proj2 (String.eqb_neq _ _) Hk), Hi.
  destruct (obj_own k o).
  - apply obj_replace_keys.
  - unfold obj_keys. now rewrite map_app.
Qed.

Lemma tally_init_find (Q : string -> bool) (ps : list Player) (o : JsObj) :
  plainNames ps ->
  find Q (obj_keys (fold_left (fun o p => obj_set (name p) (JNum 0) o) ps o))
  = match find Q (obj_keys o) with
    | Some k => Some k
    | None => find Q (map name ps)
    end.
Proof.
  revert o. induction ps as [|p ps IH]; intros o Hpl; simpl.
  - destruct (find Q (obj_keys o)); reflexivity.
  - destruct (Hpl p (or_introl eq_refl)) as (_ & Hk & Hi).
    rewrite IH by (intros q Hq; apply Hpl; now right).
    rewrite (obj_set_plain_keys _ _ _ Hk Hi).
    destruct (obj_own (name p) o) eqn:E.
    + destruct (find Q (obj_keys o)) eqn:F; [reflexivity|].
      assert (Hin : In (name p) (obj_keys o)).
      { destruct (in_dec string_dec (name p) (obj_keys o)) as [H|H]; [exact H|].
        apply obj_own_None in H. congruence. }
      now rewrite (find_none _ _ F _ Hin).
    + rewrite find_app. destruct (find Q (obj_keys o)); [reflexivity|].
      simpl. destruct (Q (name p)); reflexivity.
Qed.

Lemma tally_votes_keys (ts : list string) (o : JsObj) :
  (forall t, In t ts -> obj_own t o <> None) ->
  obj_keys (fold_left (fun o t => obj_incr t o) ts o) = obj_keys o.
Proof.
  revert o. induction ts as [|t ts IH]; intros o H; simpl; [reflexivity|].
  rewrite IH.
  - apply obj_incr_keys. apply H. now left.
  - intros u Hu. rewrite obj_own_None, (obj_incr_keys t o), <- obj_own_None.
    + apply H. now right.
    + apply H. now left.
Qed.

Lemma hd_filter_find (f : jsnum -> bool) (o : JsObj) :
  NoDup (obj_keys o) ->
  hd_error (map fst (filter (fun e => f (snd e)) o))
  = find (fun k => match obj_own k o with Some v => f v | None => false end)
      (obj_keys o).
Proof.
  induction o as [|[k v] o IH]; intros Hnd; simpl; [reflexivity|].
  inversion Hnd as [|? ? Hnot Hnd']; subst. rewrite String.eqb_refl.
  destruct (f v); [reflexivity|]. rewrite (IH Hnd').
  apply find_ext_in. intros x Hx.
  destruct (String.eqb_spec x k) as [->|]; [contradiction | reflexivity].
Qed.

Lemma topCount_is_max (ps : list Player) (m : VoteMap) (M : nat) :
  (forall p, In p ps -> votesFor (name p) m <= M) ->
  (exists p, In p ps /\ votesFor (name p) m = M) ->
  topCount ps m = M.
Proof.
  intros Hub (p & Hp & E). unfold topCount. apply Nat.le_antisymm.
  - apply list_max_le. apply Forall_forall. intros x Hx.
    apply in_map_iff in Hx. destruct Hx as (q & <- & Hq). now apply Hub.
  - rewrite <- E.
    assert (H : Forall (fun x => x <= list_max
                                       (map (fun p => votesFor (name p) m) ps))
                  (map (fun p => votesFor (name p) m) ps))
      by (now apply list_max_le).
    rewrite Forall_forall in H. apply H. apply in_map_iff. eauto.
Qed.

Lemma existsb_named_In (k : string) (ps : list Player) :
  existsb (named k) ps = true <-> exists p, In p ps /\ name p = k.
Proof.
  rewrite existsb_exists. unfold named. split; intros (p & Hp & E);
    exists p; split; auto; now apply String.eqb_eq.
Qed.

Lemma voteCount_find (Q : string -> bool) (ps : list Player) (m : VoteMap) :
  plainNames ps -> targetsOnRoster ps m ->
  find Q (obj_keys (voteCount ps m)) = find Q (map name ps).
Proof.
  intros Hpl Hwf. unfold voteCount, tally_votes.
  rewrite tally_votes_keys.
  - unfold tally_init. now rewrite (tally_init_find _ _ _ Hpl).
  - intros t Ht. destruct (Hwf t Ht) as [H1 H2].
    unfold tally_init. rewrite tally_init_own, H2.
    rewrite (proj2 (String.eqb_neq _ _) H1). discriminate.
Qed.

(** The day elimination on a well-formed ledger over plain names. *)
Lemma dayEliminated_spec (ps : list Player) (m : VoteMap) (n : nat) :
  plainNames ps -> targetsOnRoster ps m -> m <> [] ->
  (ceil_half n <= topCount ps m ->
   exists p, find (hasTopCount ps m) ps = Some p
             /\ dayEliminated ps m n = Some (name p))
  /\ (topCount ps m < ceil_half n -> dayEliminated ps m n = None).
Proof.
  intros Hpl Hwf Hne.
  assert (Hc : countsOnly (voteCount ps m)).
  { intros k v H. destruct (voteCount_entries _ _ _ _ Hwf H) as [-> _]. eauto. }
  assert (Hros : forall p, In p ps ->
            In (name p, JNum (votesFor (name p) m)) (voteCount ps m)).
  { intros p Hp. apply voteCount_roster; [apply (Hpl p Hp)|].
    apply existsb_named_In. eauto. }
  assert (Hvc : voteCount ps m <> []).
  { destruct m as [|[v0 t0] m]; [congruence|].
    destruct (Hwf t0 (or_introl eq_refl)) as [H1 H2].
    pose proof (voteCount_roster ps ((v0, t0) :: m) t0 H1 H2) as H.
    intros E. rewrite E in H. destruct H. }
  destruct (math_max_counts _ Hc Hvc) as (M & HM & (k0 & Hk0) & Hub).
  assert (Htop : topCount ps m = M).
  { apply topCount_is_max.
    - intros p Hp. apply (Hub (name p)). now apply Hros.
    - destruct (voteCount_entries _ _ _ _ Hwf Hk0) as (E & Hr & _).
      apply existsb_named_In in Hr. destruct Hr as (p & Hp & <-).
      exists p. split; [exact Hp | now inversion E]. }
  unfold dayEliminated. cbv zeta. rewrite HM, Htop. simpl js_ge. split.
  - intros Hle. apply Nat.leb_le in Hle. rewrite Hle.
    unfold candidatesOf.
    rewrite (hd_filter_find (fun v => js_strict_eq v (JNum M)))
      by apply voteCount_NoDup.
    rewrite (voteCount_find _ _ _ Hpl Hwf).
    rewrite (find_ext_in _ (fun k => Nat.eqb (votesFor k m) M)).
    2:{ intros k Hk. apply in_map_iff in Hk. destruct Hk as (p & <- & Hp).
        rewrite (In_obj_own _ _ _ (voteCount_NoDup ps m) (Hros p Hp)).
        reflexivity. }
    rewrite find_map_name.
    assert (Hsame : find (fun p => Nat.eqb (votesFor (name p) m) M) ps
                    = find (hasTopCount ps m) ps).
    { apply find_ext_in. intros p _. unfold hasTopCount. now rewrite Htop. }
    rewrite Hsame.
    destruct (find (hasTopCount ps m) ps) as [p|] eqn:F; [eauto|].
    exfalso. destruct (voteCount_entries _ _ _ _ Hwf Hk0) as (E & Hr & _).
    apply existsb_named_In in Hr. destruct Hr as (p & Hp & <-).
    pose proof (find_none _ _ F p Hp) as H. unfold hasTopCount in H.
    rewrite Htop in H. inversion E as [E']. rewrite <- E' in H.
    rewrite Nat.eqb_refl in H. discriminate.
  - intros Hlt. apply Nat.leb_gt in Hlt. now rewrite Hlt.
Qed.

(* ------------------------------------------------------------------ *)
(** ** The order of the tally, in general *)

Lemma jsBefore_grows (l : list string) (x a b : string) :
  jsBefore l a b -> jsBefore (l ++ [x]) a b.
Proof.
  unfold jsBefore. destruct (array_index a), (array_index b); auto.
  intros (l1 & l2 & -> & H). exists l1, (l2 ++ [x]).
  now rewrite <- app_assoc.
Qed.

Lemma jsBefore_index_trans (l : list string) (k y z : string) (i : N) :
  array_index k = Some i -> jsBefore l k y -> jsBefore l y z -> jsBefore l k z.
Proof.
  unfold jsBefore. intros ->.
  destruct (array_index y), (array_index z); try tauto. lia.
Qed.

Lemma insert_index_sorted (l : list string) (i : N) (k : string) (v : jsnum)
  (o : JsObj) :
  array_index k = Some i ->
  StronglySorted (jsBefore l) (obj_keys o) ->
  StronglySorted (jsBefore l) (obj_keys (obj_insert_index i k v o)).
Proof.
  intros Hk. induction o as [|[k' v'] o IH]; simpl; intros Hs.
  - repeat constructor.
  - inversion Hs as [|? ? Hs' Hall]; subst.
    assert (Hhere : jsBefore l k k' ->
              StronglySorted (jsBefore l) (k :: k' :: obj_keys o)).
    { intros Hb. constructor; [exact Hs|]. constructor; [exact Hb|].
      rewrite Forall_forall in *. intros z Hz.
      apply (jsBefore_index_trans l k k' z i Hk Hb). now apply Hall. }
    destruct (array_index k') as [i'|] eqn:E.
    + destruct (N.ltb_spec i' i) as [Hlt | Hge]; simpl.
      * constructor; [now apply IH|].
        rewrite Forall_forall in *. intros z Hz.
        assert (Hz' : In z (k :: obj_keys o)).
        { eapply Permutation_in; [apply obj_insert_index_keys | exact Hz]. }
        destruct Hz' as [<- | Hz']; [|now apply Hall].
        unfold jsBefore. rewrite E, Hk. lia.
      * apply Hhere. unfold jsBefore. now rewrite Hk, E.
    + simpl. apply Hhere. unfold jsBefore. now rewrite Hk, E.
Qed.

Lemma append_sorted {A} (R : A -> A -> Prop) (l : list A) (x : A) :
  StronglySorted R l -> (forall y, In y l -> R y x) ->
  StronglySorted R (l ++ [x]).
Proof.
  induction l as [|a l IH]; simpl; intros Hs Hx.
  - repeat constructor.
  - inversion Hs; subst. constructor.
    + apply IH; auto.
    + apply Forall_app. split; [assumption|]. constructor; auto.
Qed.

Lemma sorted_weaken {A} (R R' : A -> A -> Prop) (l : list A) :
  (forall a b, R a b -> R' a b) -> StronglySorted R l -> StronglySorted R' l.
Proof.
  intros H. induction 1; constructor; auto.
  eapply Forall_impl; [|eassumption]. auto.
Qed.

(** The keys of the initial tally: the processed names other than
    [__proto__], in enumeration order. *)
Lemma tally_init_sorted (names : list Player) (done : list string) (o : JsObj) :
  StronglySorted (jsBefore done) (obj_keys o) ->
  (forall k, In k (obj_keys o) <-> In k done /\ k <> proto_key) ->
  StronglySorted (jsBefore (done ++ map name names))
    (obj_keys (fold_left (fun o p => obj_set (name p) (JNum 0) o) names o)).
Proof.
  revert done o. induction names as [|p ps IH]; intros done o Hs Hk; simpl.
  - now rewrite app_nil_r.
  - replace (done ++ name p :: map name ps)
      with ((done ++ [name p]) ++ map name ps)
      by (now rewrite <- app_assoc).
    apply IH.
    + unfold obj_set. destruct (String.eqb_spec (name p) proto_key) as [E|E].
      { eapply sorted_weaken; [|exact Hs]. intros; now apply jsBefore_grows. }
      destruct (obj_own (name p) o) eqn:Eo.
      { rewrite obj_replace_keys.
        eapply sorted_weaken; [|exact Hs]. intros; now apply jsBefore_grows. }
      apply obj_own_None in Eo.
      assert (Hs' : StronglySorted (jsBefore (done ++ [name p])) (obj_keys o)).
      { eapply sorted_weaken; [|exact Hs]. intros; now apply jsBefore_grows. }
      destruct (array_index (name p)) as [i|] eqn:Ei.
      * now apply insert_index_sorted.
      * unfold obj_keys. rewrite map_app. cbn [map fst].
        apply append_sorted; [exact Hs'|].
        intros y Hy. unfold jsBefore. rewrite Ei.
        destruct (array_index y); [exact I|].
        apply Hk in Hy. destruct Hy as [Hy _].
        apply in_split in Hy. destruct Hy as (l1 & l2 & ->).
        exists l1, (l2 ++ [name p]). split; [now rewrite <- app_assoc|].
        intros Hin. apply Eo, Hk. split; [|exact E].
        apply in_or_app. now left.
    + intros k. rewrite in_app_iff. simpl.
      assert (Hown : In k (obj_keys (obj_set (name p) (JNum 0) o))
                     <-> obj_own k (obj_set (name p) (JNum 0) o) <> None).
      { rewrite obj_own_None. split; [tauto|].
        destruct (in_dec string_dec k
                    (obj_keys (obj_set (name p) (JNum 0) o))); tauto. }
      rewrite Hown, obj_set_own.
      assert (Hold : obj_own k o <> None <-> In k done /\ k <> proto_key).
      { rewrite <- Hk, obj_own_None.
        destruct (in_dec string_dec k (obj_keys o)); tauto. }
      destruct (String.eqb_spec (name p) proto_key) as [E|E].
      * rewrite Hold. split; [tauto|]. intros [[H | [H | []]] H']; [tauto|].
        congruence.
      * destruct (String.eqb_spec k (name p)) as [->|Hne].
        -- split; [intros _; split; [right; now left | exact E] | discriminate].
        -- rewrite Hold. split; [tauto|].
           intros [[H | [H | []]] H']; [tauto | congruence].
Qed.

Lemma voteCount_sorted (ps : list Player) (m : VoteMap) :
  targetsOnRoster ps m ->
  StronglySorted (jsBefore (map name ps)) (obj_keys (voteCount ps m)).
Proof.
  intros Hwf. unfold voteCount, tally_votes. rewrite tally_votes_keys.
  - unfold tally_init.
    apply (tally_init_sorted ps [] []); [constructor|].
    intros k. simpl. tauto.
  - intros t Ht. destruct (Hwf t Ht) as [H1 H2].
    unfold tally_init. rewrite tally_init_own, H2.
    rewrite (proj2 (String.eqb_neq _ _) H1). discriminate.
Qed.

Lemma find_sorted_first {A} (R : A -> A -> Prop) (Q : A -> bool) (l : list A)
  (e : A) :
  StronglySorted R l -> find Q l = Some e ->
  In e l /\ Q e = true /\ (forall c, In c l -> Q c = true -> c = e \/ R e c).
Proof.
  induction 1 as [|a l Hs IH Hall]; simpl; [discriminate|].
  destruct (Q a) eqn:Qa.
  - intros [= ->]. split; [now left|]. split; [exact Qa|].
    intros c [-> | Hc] _; [now left|]. right.
    rewrite Forall_forall in Hall. now apply Hall.
  - intros Hf. destruct (IH Hf) as (Hin & Qe & Hfirst).
    split; [now right|]. split; [exact Qe|].
    intros c [<- | Hc] Qc; [congruence | now apply Hfirst].
Qed.

(** The day elimination on a well-formed ledger, whatever the names. *)
Lemma dayEliminated_order (ps : list Player) (m : VoteMap) (n : nat) :
  targetsOnRoster ps m -> m <> [] ->
  (ceil_half n <= topCount ps m ->
   exists e,
     dayEliminated ps m n = Some e
     /\ existsb (named e) ps = true
     /\ votesFor e m = topCount ps m
     /\ (forall p, In p ps -> name p <> proto_key ->
                   votesFor (name p) m = topCount ps m ->
                   name p = e \/ jsBefore (map name ps) e (name p)))
  /\ (topCount ps m < ceil_half n -> dayEliminated ps m n = None).
Proof.
  intros Hwf Hne.
  assert (Hc : countsOnly (voteCount ps m)).
  { intros k v H. destruct (voteCount_entries _ _ _ _ Hwf H) as [-> _]. eauto. }
  assert (Hvc : voteCount ps m <> []).
  { destruct m as [|[v0 t0] m]; [congruence|].
    destruct (Hwf t0 (or_introl eq_refl)) as [H1 H2].
    pose proof (voteCount_roster ps ((v0, t0) :: m) t0 H1 H2) as H.
    intros E. rewrite E in H. destruct H. }
  destruct (math_max_counts _ Hc Hvc) as (M & HM & (k0 & Hk0) & Hub).
  assert (Hall : forall k, votesFor k m <= M).
  { intros k. destruct (votesFor k m) eqn:E; [lia|]. rewrite <- E.
    assert (Hk : In k (map_values m)).
    { apply (count_occ_In string_dec). unfold votesFor in E. lia. }
    destruct (Hwf k Hk) as [H1 H2]. apply (Hub k).
    now apply voteCount_roster. }
  assert (Htop : topCount ps m = M).
  { apply topCount_is_max.
    - intros p _. apply Hall.
    - destruct (voteCount_entries _ _ _ _ Hwf Hk0) as (E & Hr & _).
      apply existsb_named_In in Hr. destruct Hr as (p & Hp & <-).
      exists p. split; [exact Hp | now inversion E]. }
  unfold dayEliminated. cbv zeta. rewrite HM, Htop. simpl js_ge. split.
  - intros Hle. apply Nat.leb_le in Hle. rewrite Hle.
    unfold candidatesOf.
    rewrite (hd_filter_find (fun v => js_strict_eq v (JNum M)))
      by apply voteCount_NoDup.
    match goal with |- context [find ?Q ?l] =>
      destruct (find Q l) as [e|] eqn:F end.
    + destruct (find_sorted_first _ _ _ _ (voteCount_sorted ps m Hwf) F)
        as (Hin & Qe & Hfirst).
      exists e. split; [reflexivity|].
      assert (Hkey : forall k, In k (obj_keys (voteCount ps m)) ->
                exists v, In (k, v) (voteCount ps m)).
      { intros k Hk. unfold obj_keys in Hk. apply in_map_iff in Hk.
        destruct Hk as ([k' v] & <- & H). eauto. }
      destruct (Hkey e Hin) as (v & Hv).
      destruct (voteCount_entries _ _ _ _ Hwf Hv) as (-> & Hr & _).
      rewrite (In_obj_own _ _ _ (voteCount_NoDup ps m) Hv) in Qe.
      simpl in Qe. apply Nat.eqb_eq in Qe.
      split; [exact Hr|]. split; [exact Qe|].
      intros p Hp Hproto Hvotes.
      assert (Hpk : In (name p, JNum (votesFor (name p) m)) (voteCount ps m)).
      { apply voteCount_roster; [exact Hproto|].
        apply existsb_named_In. eauto. }
      apply Hfirst.
      * unfold obj_keys. apply in_map_iff. exists (name p, JNum (votesFor (name p) m)).
        split; [reflexivity | exact Hpk].
      * rewrite (In_obj_own _ _ _ (voteCount_NoDup ps m) Hpk). simpl.
        now apply Nat.eqb_eq.
    + exfalso.
      assert (Hk0' : In k0 (obj_keys (voteCount ps m))).
      { unfold obj_keys. apply in_map_iff. exists (k0, JNum M). auto. }
      pose proof (find_none _ _ F k0 Hk0') as H. cbv beta in H.
      rewrite (In_obj_own _ _ _ (voteCount_NoDup ps m) Hk0) in H.
      simpl in H. rewrite Nat.eqb_refl in H. discriminate.
  - intros Hlt. apply Nat.leb_gt in Hlt. now rewrite Hlt.
Qed.

(* ------------------------------------------------------------------ *)
(** ** The day vote *)

Lemma ceil_half_spec (n : nat) :
  n <= 2 * ceil_half n /\ 2 * ceil_half n <= n + 1.
Proof.
  unfold ceil_half. pose proof (Nat.div_mod_eq n 2) as E.
  pose proof (Nat.mod_upper_bound n 2) as B. lia.
Qed.

Lemma nextCycle_frame (g : Game) :
  players (docOf (nextCycle g)) = players g
  /\ votes (docOf (nextCycle g)) = votes g
  /\ lastKilled (docOf (nextCycle g)) = lastKilled g.
Proof.
  rewrite nextCycle_run.
  destruct (Nat.eqb _ 0); [repeat split|].
  destruct (Nat.leb _ _); [repeat split|].
  destruct (state_eqb _ _); [repeat split|].
  rewrite setPhase_NightMafia. repeat split.
Qed.

Lemma dayVote_accepted (v t : string) (g : Game) :
  wrongPhase Day g = false ->
  existsb (aliveNamed v) (players g) = true ->
  map_has v (votes g) = false ->
  existsb (aliveNamed t) (players g) = true ->
  validMapKey v = true ->
  let ledger := votes g ++ [(v, t)] in
  let recorded := set_votes ledger g in
  let living := length (filter isAlive (players g)) in
  (length ledger <> living -> docOf (dayVote v t g) = recorded)
  /\ (length ledger = living ->
      let final := docOf (dayVote v t g) in
      match dayEliminated (players g) ledger living with
      | Some e =>
          e <> EmptyString -> existsb (named e) (players g) = true ->
          players final
          = mutate_found (named e) (set_isAlive false) (players g)
          /\ lastKilled final = Some e /\ votes final = []
      | None =>
          players final = players g /\ lastKilled final = lastKilled g
          /\ votes final = []
      end).
Proof.
  intros H1 H2 H3 H4 H5. cbv zeta.
  rewrite dayVote_run, H1, H2, H3, H4, H5. cbn [negb]. unfold tryCatch.
  rewrite dayVoteAccepted_run. cbv zeta. rewrite (map_set_new _ _ _ H3).
  cbn [votes set_votes]. split; intros Hlen.
  - apply Nat.eqb_neq in Hlen. now rewrite Hlen.
  - apply Nat.eqb_eq in Hlen. rewrite Hlen.
    rewrite dayResolve_run, applyElimination_run.
    cbn [players votes set_votes].
    destruct (dayEliminated (players g) (votes g ++ [(v, t)])
                (length (filter isAlive (players g)))) as [e|].
    + intros Hne Hex. rewrite (truthy_nonempty _ Hne), Hex.
      match goal with |- context [nextCycle ?x] =>
        destruct (nextCycle_frame x) as (Fp & Fv & Fl);
        pose proof (nextCycle_flow x) as Ff;
        destruct (nextCycle x) as [[fl g2] e2] end.
      unfold prepend, flowOf, docOf, traceOf in *. cbn [fst snd] in *.
      subst fl. cbn [fst snd]. rewrite Fp, Fv, Fl. repeat split.
    + match goal with |- context [nextCycle ?x] =>
        destruct (nextCycle_frame x) as (Fp & Fv & Fl);
        pose proof (nextCycle_flow x) as Ff;
        destruct (nextCycle x) as [[fl g2] e2] end.
      unfold prepend, flowOf, docOf, traceOf in *. cbn [fst snd] in *.
      subst fl. cbn [fst snd]. rewrite Fp, Fv, Fl. repeat split.
Qed.

Lemma targetsOnRoster_add (ps : list Player) (m : VoteMap) (v t : string) :
  usableNames ps -> targetsOnRoster ps m ->
  existsb (aliveNamed t) ps = true ->
  targetsOnRoster ps (m ++ [(v, t)]).
Proof.
  intros Hpl Hwf Ht u Hu. unfold map_values in Hu. rewrite map_app in Hu.
  apply in_app_or in Hu. destruct Hu as [Hu | [<- | []]]; [now apply Hwf|].
  simpl. apply existsb_exists in Ht. destruct Ht as (p & Hp & Ha).
  unfold aliveNamed in Ha. apply andb_true_iff in Ha. destruct Ha as [Hn _].
  unfold named in Hn. apply String.eqb_eq in Hn. subst t. split.
  - apply (Hpl p Hp).
  - apply existsb_named_In. eauto.
Qed.

(** C2, as the code has it, on a session whose player names are non-empty
    and different from [__proto__], whose recorded day votes name players,
    and for a voter whose name the ledger accepts as a key.  A day vote that
    passes the checks of the handler is appended to the ledger and the
    resolution runs when the ledger then has as many entries as there are
    alive players.  The threshold is the ceiling of half the
    alive count.  When the highest tally reaches it, the eliminated player is
    the candidate with the highest tally that the tally object enumerates
    first: names that are array indices come first, in ascending numeric
    order, and the other names follow in roster order, so that with no such
    name on the roster the first top candidate in roster order is eliminated.
    That player's [isAlive] becomes false and the name is stored in
    [lastKilled].  Below the threshold nobody is eliminated.  The ledger is
    emptied in both cases. *)
Theorem dayVote_resolution (v t : string) (g : Game) :
  wrongPhase Day g = false ->
  existsb (aliveNamed v) (players g) = true ->
  map_has v (votes g) = false ->
  existsb (aliveNamed t) (players g) = true ->
  validMapKey v = true ->
  usableNames (players g) ->
  targetsOnRoster (players g) (votes g) ->
  let ledger := votes g ++ [(v, t)] in
  let living := length (filter isAlive (players g)) in
  let top := topCount (players g) ledger in
  let final := docOf (dayVote v t g) in
  (living <= 2 * ceil_half living /\ 2 * ceil_half living <= living + 1)
  /\ (length ledger <> living -> final = set_votes ledger g)
  /\ (length ledger = living -> ceil_half living <= top ->
      exists e,
        existsb (named e) (players g) = true
        /\ votesFor e ledger = top
        /\ (forall p, In p (players g) -> votesFor (name p) ledger = top ->
                      name p = e
                      \/ jsBefore (map name (players g)) e (name p))
        /\ ((forall p, In p (players g) -> array_index (name p) = None) ->
            option_map name
              (find (hasTopCount (players g) ledger) (players g)) = Some e)
        /\ players final
           = mutate_found (named e) (set_isAlive false) (players g)
        /\ lastKilled final = Some e
        /\ votes final = [])
  /\ (length ledger = living -> top < ceil_half living ->
      players final = players g
      /\ lastKilled final = lastKilled g
      /\ votes final = []).
Proof.
  intros H1 H2 H3 H4 Hkey Hpl Hwf. cbv zeta.
  destruct (dayVote_accepted v t g H1 H2 H3 H4 Hkey) as [Hrec Hres].
  cbv zeta in Hrec, Hres.
  pose proof (targetsOnRoster_add _ _ v t Hpl Hwf H4) as Hwf'.
  assert (Hne : votes g ++ [(v, t)] <> []) by (destruct (votes g); discriminate).
  destruct (dayEliminated_order (players g) (votes g ++ [(v, t)])
              (length (filter isAlive (players g))) Hwf' Hne)
    as [Helim Hnone].
  split; [apply ceil_half_spec|]. split; [exact Hrec|]. split.
  - intros Hlen Hle. destruct (Helim Hle) as (e & Hd & Hr & Hv & Hfirst).
    specialize (Hres Hlen). rewrite Hd in Hres. exists e.
    split; [exact Hr|]. split; [exact Hv|]. split.
    { intros p Hp. apply Hfirst; [exact Hp | apply (Hpl p Hp)]. }
    split.
    { intros Hplain.
      assert (Hpl' : plainNames (players g)).
      { intros p Hp. destruct (Hpl p Hp). repeat split; auto. }
      destruct (dayEliminated_spec (players g) (votes g ++ [(v, t)])
                  (length (filter isAlive (players g))) Hpl' Hwf' Hne)
        as [Hplain_elim _].
      destruct (Hplain_elim Hle) as (p & Hf & Hd').
      rewrite Hf. simpl. congruence. }
    apply Hres; [|exact Hr].
    apply existsb_named_In in Hr. destruct Hr as (p & Hp & <-).
    apply (Hpl p Hp).
  - intros Hlen Hlt. specialize (Hres Hlen). now rewrite (Hnone Hlt) in Hres.
Qed.

Lemma dayVote_resolution_witness :
  lastKilled (docOf (dayVote "P6" "U" tiedDay)) = Some "T"
  /\ votes (docOf (dayVote "P6" "U" tiedDay)) = []
  /\ exists e,
       lastKilled (docOf (dayVote "Al" "2" numberedDay)) = Some e
       /\ (e = "10" \/ jsBefore (map name (players numberedDay)) e "10").
Proof.
  assert (Hpl : usableNames (players tiedDay)).
  { intros p Hp. cbn in Hp.
    repeat (destruct Hp as [<- | Hp]; [split; discriminate|]).
    destruct Hp. }
  assert (Hwf : targetsOnRoster (players tiedDay) (votes tiedDay)).
  { intros u Hu. cbn in Hu.
    repeat (destruct Hu as [<- | Hu]; [split; [discriminate | reflexivity]|]).
    destruct Hu. }
  assert (Hpl2 : usableNames (players numberedDay)).
  { intros p Hp. cbn in Hp.
    repeat (destruct Hp as [<- | Hp]; [split; discriminate|]).
    destruct Hp. }
  assert (Hwf2 : targetsOnRoster (players numberedDay) (votes numberedDay)).
  { intros u Hu. cbn in Hu.
    repeat (destruct Hu as [<- | Hu]; [split; [discriminate | reflexivity]|]).
    destruct Hu. }
  destruct (dayVote_resolution "P6" "U" tiedDay eq_refl eq_refl eq_refl
              eq_refl eq_refl Hpl Hwf) as (_ & _ & Helim & _).
  destruct (Helim eq_refl) as (e & _ & _ & _ & Hroster & _ & Hl & Hv).
  { vm_compute. lia. }
  assert (He : Some "T" = Some e).
  { apply Hroster. intros p Hp. cbn in Hp.
    repeat (destruct Hp as [<- | Hp]; [reflexivity|]). destruct Hp. }
  inversion He; subst e.
  destruct (dayVote_resolution "Al" "2" numberedDay eq_refl eq_refl eq_refl
              eq_refl eq_refl Hpl2 Hwf2) as (_ & _ & Helim2 & _).
  destruct (Helim2 eq_refl) as (e2 & _ & _ & Hfirst & _ & _ & Hl2 & _).
  { vm_compute. lia. }
  split; [exact Hl|]. split; [exact Hv|].
  exists e2. split; [exact Hl2|].
  destruct (Hfirst (pl "10" Villager true)) as [H | H];
    [now left | reflexivity | left; now symmetry | right; exact H].
Defined.

(** C2 as stated fails: with players named 10 and 2 tied at the top, the
    first of them in roster order is 10, and the code eliminates 2. *)
Lemma dayVote_tie_not_in_roster_order :
  let ledger := votes numberedDay ++ [("Al", "2")] in
  let final := docOf (dayVote "Al" "2" numberedDay) in
  length ledger = length (filter isAlive (players numberedDay))
  /\ option_map name
       (find (hasTopCount (players numberedDay) ledger) (players numberedDay))
     = Some "10"
  /\ lastKilled final = Some "2"
  /\ map isAlive (players final) = [true; false; true; true]
  /\ lastKilled final
     <> option_map name
          (find (hasTopCount (players numberedDay) ledger)
             (players numberedDay)).
Proof.
  cbv zeta. split; [reflexivity|]. split; [reflexivity|].
  split; [reflexivity|]. split; [reflexivity|]. discriminate.
Qed.

(* ------------------------------------------------------------------ *)
(** ** Role assignment *)

Section Shuffle.

Context {A : Type}.

Lemma list_set_length (i : nat) (x : A) (l : list A) :
  length (list_set i x l) = length l.
Proof.
  revert i. induction l as [|y l IH]; intros [|i]; simpl; auto.
Qed.

Lemma list_set_swap_head (j : nat) (x y : A) (l : list A) :
  nth_error l j = Some y -> Permutation (y :: list_set j x l) (x :: l).
Proof.
  revert j. induction l as [|z l IH]; intros [|j]; simpl; try discriminate.
  - intros [= ->]. apply perm_swap.
  - intros H. rewrite perm_swap. rewrite (IH j H). apply perm_swap.
Qed.

Lemma swap_Permutation (i j : nat) (a : list A) : Permutation (swap i j a) a.
Proof.
  unfold swap. revert i j. induction a as [|x a IH]; intros i j.
  - destruct j, i; reflexivity.
  - destruct j as [|j], i as [|i]; simpl.
    + reflexivity.
    + destruct (nth_error a i) as [ai|] eqn:E; [|reflexivity].
      now apply list_set_swap_head.
    + destruct (nth_error a j) as [aj|] eqn:E; [|reflexivity].
      now apply list_set_swap_head.
    + specialize (IH i j).
      destruct (nth_error a j), (nth_error a i); try reflexivity.
      now apply perm_skip.
Qed.

Variable random_index : nat -> nat.

Lemma shuffleLoop_Permutation (i : nat) (a : list A) :
  Permutation (shuffleLoop random_index i a) a.
Proof.
  revert a. induction i as [|i IH]; intros a; simpl; [reflexivity|].
  rewrite IH. apply swap_Permutation.
Qed.

Lemma shuffleArray_Permutation (a : list A) :
  Permutation (shuffleArray random_index a) a.
Proof. apply shuffleLoop_Permutation. Qed.

End Shuffle.

Lemma mafiaCountOf_nat (n : nat) : mafiaCountOf (Z.of_nat n) = Z.of_nat (n / 3).
Proof. unfold mafiaCountOf. now rewrite Nat2Z.inj_div. Qed.

Lemma godfatherCountOf_nat (n : nat) :
  godfatherCountOf (Z.of_nat n) = Z.of_nat (godfathers n).
Proof.
  unfold godfatherCountOf, godfathers. rewrite mafiaCountOf_nat.
  destruct (Nat.ltb_spec 1 (n / 3)); destruct (Z.ltb_spec 1 (Z.of_nat (n / 3)));
    try reflexivity; lia.
Qed.

Lemma godfathers_le (n : nat) : godfathers n <= n / 3.
Proof. unfold godfathers. destruct (Nat.ltb_spec 1 (n / 3)); lia. Qed.

Lemma villagerRemainder_nat (n : nat) :
  villagerRemainder n = (Z.of_nat n - Z.of_nat (n / 3) - 2)%Z.
Proof.
  unfold villagerRemainder, regularMafiaCountOf.
  rewrite mafiaCountOf_nat, godfatherCountOf_nat. lia.
Qed.

Lemma third_le (n : nat) : 3 * (n / 3) <= n.
Proof. pose proof (Nat.div_mod_eq n 3). lia. Qed.

Lemma villagerRemainder_negative (n : nat) :
  (villagerRemainder n < 0)%Z <-> n <= 1.
Proof.
  rewrite villagerRemainder_nat. pose proof (third_le n) as H3.
  destruct (Nat.lt_ge_cases n 3) as [Hlt | Hge].
  - rewrite (Nat.div_small n 3 Hlt). lia.
  - lia.
Qed.

Lemma buildRoles_fails (n : nat) :
  (villagerRemainder n < 0)%Z -> buildRoles (Z.of_nat n) = None.
Proof.
  intros H. unfold buildRoles, array_fill.
  replace (Z.of_nat n - specialRolesCountOf (Z.of_nat n))%Z
    with (villagerRemainder n)
    by (unfold villagerRemainder, specialRolesCountOf; lia).
  apply Z.ltb_lt in H. rewrite H.
  destruct (regularMafiaCountOf (Z.of_nat n) <? 0)%Z; [reflexivity|].
  destruct (godfatherCountOf (Z.of_nat n) <? 0)%Z; reflexivity.
Qed.

Lemma buildRoles_deck (n : nat) :
  (0 <= villagerRemainder n)%Z -> buildRoles (Z.of_nat n) = Some (roleDeck n).
Proof.
  intros H. pose proof (godfathers_le n) as Hg. pose proof (third_le n) as H3.
  pose proof H as H'. rewrite villagerRemainder_nat in H'.
  unfold buildRoles, array_fill, roleDeck.
  replace (Z.of_nat n - specialRolesCountOf (Z.of_nat n))%Z
    with (villagerRemainder n)
    by (unfold villagerRemainder, specialRolesCountOf; lia).
  unfold regularMafiaCountOf. rewrite mafiaCountOf_nat, godfatherCountOf_nat.
  rewrite villagerRemainder_nat.
  destruct (Z.ltb_spec (Z.of_nat (n / 3) - Z.of_nat (godfathers n)) 0); [lia|].
  destruct (Z.ltb_spec (Z.of_nat (godfathers n)) 0); [lia|].
  destruct (Z.ltb_spec (Z.of_nat n - Z.of_nat (n / 3) - 2) 0); [lia|].
  rewrite Nat2Z.id.
  replace (Z.to_nat (Z.of_nat (n / 3) - Z.of_nat (godfathers n)))
    with (n / 3 - godfathers n) by lia.
  replace (Z.to_nat (Z.of_nat n - Z.of_nat (n / 3) - 2))
    with (n - n / 3 - 2) by lia.
  reflexivity.
Qed.

Lemma roleDeck_length (n : nat) :
  (0 <= villagerRemainder n)%Z -> length (roleDeck n) = n.
Proof.
  intros H. rewrite villagerRemainder_nat in H.
  pose proof (godfathers_le n). unfold roleDeck.
  rewrite !length_app, !repeat_length. cbn [length]. lia.
Qed.

Lemma countRole_repeat (r r' : Role) (k : nat) :
  countRole r (repeat r' k) = if Role_eq_dec r r' then k else 0.
Proof.
  unfold countRole. destruct (Role_eq_dec r r') as [E | E].
  - now apply count_occ_repeat_eq.
  - now apply count_occ_repeat_neq.
Qed.

Lemma countRole_app (r : Role) (l1 l2 : list Role) :
  countRole r (l1 ++ l2) = countRole r l1 + countRole r l2.
Proof. apply count_occ_app. Qed.

Lemma countRole_cons (r r' : Role) (l : list Role) :
  countRole r (r' :: l)
  = (if Role_eq_dec r' r then 1 else 0) + countRole r l.
Proof. unfold countRole. simpl. destruct (Role_eq_dec r' r); reflexivity. Qed.

Lemma roleDeck_counts (n : nat) :
  countRole Godfather (roleDeck n) = godfathers n
  /\ countRole Mafia (roleDeck n) + countRole Godfather (roleDeck n) = n / 3
  /\ countRole Detective (roleDeck n) = 1
  /\ countRole Doctor (roleDeck n) = 1
  /\ countRole Villager (roleDeck n) = n - n / 3 - 2
  /\ countRole Unassigned (roleDeck n) = 0.
Proof.
  pose proof (godfathers_le n) as Hg. unfold roleDeck.
  generalize dependent (godfathers n). generalize (n - n / 3 - 2).
  generalize (n / 3). intros q w gf Hg.
  rewrite !countRole_app, !countRole_cons, !countRole_repeat.
  change (countRole _ []) with 0.
  repeat match goal with
         | |- context [Role_eq_dec ?a ?b] =>
             destruct (Role_eq_dec a b); try discriminate; try congruence
         end.
  repeat split; lia.
Qed.

Lemma assignRoles_names (ps : list Player) (rs : list Role) :
  map name (assignRoles ps rs) = map name ps.
Proof.
  revert rs. induction ps as [|p ps IH]; intros rs; simpl; [reflexivity|].
  destruct rs; simpl; now rewrite IH.
Qed.

Lemma assignRoles_combine (ps : list Player) (rs : list Role) :
  length rs = length ps ->
  assignRoles ps rs = map (fun pr => set_role (snd pr) (fst pr)) (combine ps rs)
  /\ map role (assignRoles ps rs) = rs.
Proof.
  revert rs. induction ps as [|p ps IH]; intros [|r rs] H; simpl in *;
    try discriminate; [split; reflexivity|].
  destruct (IH rs) as [E1 E2]; [lia|]. now rewrite E1 at 1; rewrite E2.
Qed.

Arguments roleDeck : simpl never.
Arguments shuffleArray : simpl never.
Arguments assignRoles : simpl never.
Arguments buildRoles : simpl never.
Arguments mafiaGangOf : simpl never.
Arguments villagerRemainder : simpl never.

Lemma startGame_run (random_index : nat -> nat) (g : Game) :
  startGame random_index g =
  if (villagerRemainder (length (players g)) <? 0)%Z
  then (Throw RangeError, startedGame g, [])
  else (Next tt, dealtGame random_index g,
        startNotices (dealtGame random_index g)).
Proof.
  unfold startGame, bind, modify, get, throw, emit, emitAll. cbn.
  destruct (Z.ltb_spec (villagerRemainder (length (players g))) 0) as [H | H].
  - rewrite (buildRoles_fails _ H). reflexivity.
  - rewrite (buildRoles_deck _ H). cbn. unfold startNotices, dealtGame.
    cbn. reflexivity.
Qed.

(** C9.  When the villager remainder of the head count is negative (which
    happens for fewer than two players), [startGame] raises the
    [RangeError] of [Array(n)] instead of returning: no role is assigned and
    nothing is emitted, whatever the caller checked; with a non-negative
    remainder it returns normally. *)
Theorem startGame_insufficient_players (random_index : nat -> nat) (g : Game) :
  ((villagerRemainder (length (players g)) < 0)%Z ->
   flowOf (startGame random_index g) = Throw RangeError
   /\ players (docOf (startGame random_index g)) = players g
   /\ traceOf (startGame random_index g) = [])
  /\ ((0 <= villagerRemainder (length (players g)))%Z ->
      flowOf (startGame random_index g) = Next tt)
  /\ ((villagerRemainder (length (players g)) < 0)%Z
      <-> length (players g) <= 1).
Proof.
  rewrite startGame_run. split; [|split].
  - intros H. apply Z.ltb_lt in H. rewrite H. repeat split.
  - intros H. apply Z.ltb_ge in H. rewrite H. reflexivity.
  - apply villagerRemainder_negative.
Qed.

Lemma startGame_insufficient_players_witness :
  flowOf (startGame (fun _ => 0) (lobby ["solo"])) = Throw RangeError
  /\ players (docOf (startGame (fun _ => 0) (lobby ["solo"])))
     = players (lobby ["solo"])
  /\ traceOf (startGame (fun _ => 0) (lobby ["solo"])) = [].
Proof.
  apply (proj1 (startGame_insufficient_players (fun _ => 0) (lobby ["solo"]))).
  reflexivity.
Defined.

(** C3.  For at least five players (and shuffle draws in range),
    [startGame] returns and the roles of the players are a permutation of the
    deck for that head count: [N / 3] Mafia-aligned roles, of which one is the
    Godfather exactly when [N / 3 > 1], one Detective, one Doctor, Villagers
    for the rest.  Player [i] of the join order receives entry [i] of the
    shuffled deck, and keeps its name and position. *)
Theorem startGame_deals_roles (random_index : nat -> nat) (g : Game) :
  (forall i, random_index i <= i) ->
  5 <= length (players g) ->
  let n := length (players g) in
  let shuffled := shuffleArray random_index (roleDeck n) in
  let final := docOf (startGame random_index g) in
  let dealt := map role (players final) in
  flowOf (startGame random_index g) = Next tt
  /\ Permutation dealt (roleDeck n)
  /\ length (roleDeck n) = n
  /\ (countRole Godfather dealt = 1 <-> 1 < n / 3)
  /\ countRole Godfather dealt <= 1
  /\ countRole Mafia dealt + countRole Godfather dealt = n / 3
  /\ countRole Detective dealt = 1
  /\ countRole Doctor dealt = 1
  /\ countRole Villager dealt = n - n / 3 - 2
  /\ dealt = shuffled
  /\ players final
     = map (fun pr => set_role (snd pr) (fst pr)) (combine (players g) shuffled)
  /\ map name (players final) = map name (players g)
  /\ state final = InProgress /\ currentPhase final = NightMafia.
Proof.
  intros _ H5. cbv zeta.
  assert (Hrem : (0 <= villagerRemainder (length (players g)))%Z).
  { destruct (Z.lt_ge_cases (villagerRemainder (length (players g))) 0)
      as [H | H]; [|exact H].
    apply villagerRemainder_negative in H. lia. }
  rewrite startGame_run. rewrite (proj2 (Z.ltb_ge _ _) Hrem).
  unfold flowOf, docOf, dealtGame. cbn [fst snd players set_players].
  set (n := length (players g)).
  assert (Hperm : Permutation (shuffleArray random_index (roleDeck n))
                    (roleDeck n)) by apply shuffleArray_Permutation.
  assert (Hlen : length (shuffleArray random_index (roleDeck n))
                 = length (players g)).
  { rewrite (Permutation_length Hperm). now apply roleDeck_length. }
  destruct (assignRoles_combine (players g) _ Hlen) as [Eplayers Eroles].
  rewrite Eroles.
  assert (Hcount : forall r, countRole r (shuffleArray random_index (roleDeck n))
                             = countRole r (roleDeck n)).
  { intros r. unfold countRole.
    apply (proj1 (Permutation_count_occ Role_eq_dec _ _) Hperm). }
  rewrite !Hcount.
  destruct (roleDeck_counts n) as (Cg & Cm & Cd & Cdoc & Cv & _).
  rewrite Cg, Cd, Cdoc, Cv.
  split; [reflexivity|]. split; [exact Hperm|].
  split; [now apply roleDeck_length|].
  split.
  { unfold godfathers. destruct (Nat.ltb_spec 1 (n / 3)); split; intros; lia. }
  split.
  { unfold godfathers. destruct (Nat.ltb 1 (n / 3)); lia. }
  split; [rewrite <- Cg; exact Cm|].
  repeat (split; [reflexivity|]).
  split; [exact Eplayers|].
  split; [apply assignRoles_names|]. split; reflexivity.
Qed.

Lemma startGame_deals_roles_witness :
  let g := lobby ["a"; "b"; "c"; "d"; "e"; "f"] in
  Permutation (map role (players (docOf (startGame (fun i => i / 2) g))))
    (roleDeck 6)
  /\ map name (players (docOf (startGame (fun i => i / 2) g)))
     = ["a"; "b"; "c"; "d"; "e"; "f"].
Proof.
  cbv zeta.
  assert (Hb : forall i, i / 2 <= i).
  { intros i. apply Nat.Div0.div_le_upper_bound. lia. }
  destruct (startGame_deals_roles (fun i => i / 2)
              (lobby ["a"; "b"; "c"; "d"; "e"; "f"]) Hb)
    as (_ & Hperm & _ & _ & _ & _ & _ & _ & _ & _ & _ & Hn & _).
  { cbn. lia. }
  split; [exact Hperm | exact Hn].
Defined.

(* ------------------------------------------------------------------ *)
(** ** Well-formed sessions

    The hypotheses on names, ledgers and targets used above hold in every
    session that the handlers reach from a well-formed one. *)

Lemma named_by_names (t : string) (ps ps' : list Player) :
  map name ps' = map name ps ->
  existsb (named t) ps = true -> existsb (named t) ps' = true.
Proof.
  intros E H. apply existsb_named_In in H. destruct H as (p & Hp & Hn).
  apply existsb_named_In.
  assert (Hin : In t (map name ps')).
  { rewrite E, <- Hn. now apply in_map. }
  apply in_map_iff in Hin. destruct Hin as (q & Hq & Hin). eauto.
Qed.

Lemma usableNames_by_names (ps ps' : list Player) :
  map name ps' = map name ps -> usableNames ps -> usableNames ps'.
Proof.
  intros E H q Hq.
  assert (Hin : In (name q) (map name ps)) by (rewrite <- E; now apply in_map).
  apply in_map_iff in Hin. destruct Hin as (p & <- & Hp). now apply H.
Qed.

Lemma targetsOnRoster_by_names (ps ps' : list Player) (m : VoteMap) :
  map name ps' = map name ps -> targetsOnRoster ps m -> targetsOnRoster ps' m.
Proof.
  intros E H t Ht. destruct (H t Ht) as [H1 H2].
  split; [exact H1 | now apply (named_by_names t ps ps')].
Qed.

Lemma targetsOnRoster_nil (ps : list Player) : targetsOnRoster ps [].
Proof. intros t []. Qed.

Lemma wellFormed_sameBoard (g g' : Game) :
  sameBoard g g' -> wellFormed g -> wellFormed g'.
Proof.
  intros (En & Ev & Em & Et) (Hu & Hv & Hm & Ht).
  split; [|split; [|split]].
  - now apply (usableNames_by_names (players g)).
  - rewrite Ev. now apply (targetsOnRoster_by_names (players g)).
  - destruct Em as [-> | ->];
      [now apply (targetsOnRoster_by_names (players g))
      | apply targetsOnRoster_nil].
  - intros t H. destruct Et as [E | E]; rewrite E in H; [|discriminate].
    destruct (Ht t H) as [H1 H2]. split; [exact H1|].
    now apply (named_by_names t (players g)).
Qed.

Lemma sameBoard_fields (g g' : Game) :
  players g' = players g -> votes g' = votes g ->
  mafiaVotes g' = mafiaVotes g -> mafiaTarget g' = mafiaTarget g ->
  sameBoard g g'.
Proof. intros E1 E2 E3 E4. unfold sameBoard. rewrite E1. auto. Qed.

Ltac same_board := apply sameBoard_fields; reflexivity.

Lemma sameBoard_trans (g1 g2 g3 : Game) :
  sameBoard g1 g2 -> sameBoard g2 g3 -> sameBoard g1 g3.
Proof.
  intros (N1 & V1 & M1 & T1) (N2 & V2 & M2 & T2). repeat split.
  - congruence.
  - congruence.
  - destruct M2 as [E | E]; [rewrite E; exact M1 | now right].
  - destruct T2 as [E | E]; [rewrite E; exact T1 | now right].
Qed.

Lemma mutate_found_names (pred : Player -> bool) (b : bool)
  (ps : list Player) :
  map name (mutate_found pred (set_isAlive b) ps) = map name ps.
Proof.
  induction ps as [|p ps IH]; simpl; [reflexivity|].
  destruct (pred p); simpl; [reflexivity | now rewrite IH].
Qed.

Lemma resolveNight_sameBoard (g : Game) : sameBoard g (docOf (resolveNight g)).
Proof.
  rewrite resolveNight_run, nightBody_run. unfold docOf, traceOf.
  destruct (nightKill_cases g) as [[t ->] | [-> | ->]]; cbn;
    repeat split; auto.
  apply mutate_found_names.
Qed.

Lemma setPhase_sameBoard (p : Phase) (g : Game) :
  sameBoard g (docOf (setPhase p g)).
Proof.
  assert (Hdoc : forall g0, sameBoard g0 (docOf (setPhase NightDoctor g0))).
  { intros g0.
    destruct (existsb (aliveWithRole Doctor) (players g0)) eqn:E.
    - rewrite (setPhase_NightDoctor_open g0 E). same_board.
    - rewrite (setPhase_NightDoctor_skip g0 E).
      apply (resolveNight_sameBoard (set_currentPhase NightDoctor g0)). }
  destruct p.
  - rewrite setPhase_fixpoint. same_board.
  - rewrite setPhase_NightMafia. same_board.
  - destruct (existsb (aliveWithRole Detective) (players g)) eqn:E.
    + rewrite (setPhase_NightDetective_open g E). same_board.
    + rewrite (setPhase_NightDetective_skip g E), setPhase_overwrites.
      apply Hdoc.
  - apply Hdoc.
  - rewrite setPhase_Day. same_board.
  - rewrite setPhase_fixpoint. same_board.
Qed.

Lemma nextCycle_sameBoard (g : Game) : sameBoard g (docOf (nextCycle g)).
Proof.
  rewrite nextCycle_run.
  destruct (Nat.eqb _ 0); [same_board|].
  destruct (Nat.leb _ _); [same_board|].
  destruct (state_eqb _ _); [same_board|].
  apply setPhase_sameBoard.
Qed.

Lemma resolveMafiaTarget_on_roster (ps : list Player) (m : VoteMap)
  (t : string) :
  usableNames ps -> m <> [] -> targetsOnRoster ps m ->
  resolveMafiaTarget ps m = Some t ->
  t <> EmptyString /\ existsb (named t) ps = true.
Proof.
  intros Hu Hne Hwf Hres.
  destruct (resolveMafiaTarget_spec ps m Hne Hwf)
    as (t' & e & l & Hres' & _ & Hsplit & _).
  rewrite Hres in Hres'. inversion Hres'; subst t'.
  destruct (Hwf t) as [_ Hr].
  { rewrite Hsplit. apply in_or_app. right. now left. }
  split; [|exact Hr].
  apply existsb_named_In in Hr. destruct Hr as (p & Hp & <-).
  apply (Hu p Hp).
Qed.

Lemma dayEliminated_on_roster (ps : list Player) (m : VoteMap) (n : nat)
  (e : string) :
  usableNames ps -> m <> [] -> targetsOnRoster ps m ->
  dayEliminated ps m n = Some e ->
  e <> EmptyString /\ existsb (named e) ps = true.
Proof.
  intros Hu Hne Hwf Hres.
  destruct (dayEliminated_order ps m n Hwf Hne) as [Helim Hnone].
  destruct (Nat.le_gt_cases (ceil_half n) (topCount ps m)) as [Hle | Hgt].
  - destruct (Helim Hle) as (e' & He & Hr & _).
    rewrite Hres in He. inversion He; subst e'.
    split; [|exact Hr].
    apply existsb_named_In in Hr. destruct Hr as (p & Hp & <-).
    apply (Hu p Hp).
  - rewrite (Hnone Hgt) in Hres. discriminate.
Qed.

Lemma dayVote_complete (v t : string) (g : Game) :
  wrongPhase Day g = false ->
  existsb (aliveNamed v) (players g) = true ->
  map_has v (votes g) = false ->
  existsb (aliveNamed t) (players g) = true ->
  validMapKey v = true ->
  let recorded := set_votes (votes g ++ [(v, t)]) g in
  let living := length (filter isAlive (players g)) in
  (length (votes g ++ [(v, t)]) <> living ->
   dayVote v t g
   = (Exit (Json recorded), recorded, [(ToRoom (gameId g), gameUpdated recorded)]))
  /\ (length (votes g ++ [(v, t)]) = living ->
      docOf (dayVote v t g) = docOf (dayResolve living recorded)
      /\ (flowOf (dayResolve living recorded) = Next tt ->
          flowOf (dayVote v t g)
          = Exit (Json (docOf (dayResolve living recorded))))).
Proof.
  intros H1 H2 H3 H4 H5. cbv zeta.
  rewrite dayVote_run, H1, H2, H3, H4, H5. cbn [negb]. unfold tryCatch.
  rewrite dayVoteAccepted_run. cbv zeta. rewrite (map_set_new _ _ _ H3).
  cbn [votes set_votes]. split; intros Hlen.
  - apply Nat.eqb_neq in Hlen. now rewrite Hlen.
  - apply Nat.eqb_eq in Hlen. rewrite Hlen.
    destruct (dayResolve _ _) as [[[[]|r|e] g2] e2];
      unfold docOf, flowOf; cbn [fst snd]; split; auto; discriminate.
Qed.

(** Every action handler keeps sessions well formed, and a day vote on a
    well-formed session never reaches the [TypeError] of a missing
    eliminated player: it is answered with status 500 only when the ledger
    refuses the name of the voter as a key. *)
Lemma handlers_keep_sessions_wellFormed (g : Game) :
  wellFormed g ->
  (forall v t, wellFormed (docOf (mafiaVote v t g)))
  /\ (forall i t, wellFormed (docOf (investigate i t g)))
  /\ (forall d t, wellFormed (docOf (doctorSaveAction d t g)))
  /\ (forall v t, wellFormed (docOf (dayVote v t g))
                  /\ (validMapKey v = true ->
                      flowOf (dayVote v t g) <> Exit Status500)).
Proof.
  intros Hwf. pose proof Hwf as (Hu & Hv & Hm & Ht).
  split; [|split; [|split]].
  - intros v t. rewrite mafiaVote_run.
    repeat match goal with
           | |- context [if ?c then _ else _] =>
               destruct c eqn:?; [exact Hwf|]
           end.
    destruct (validMapKey v); [|exact Hwf].
    rewrite mafiaVoteAccepted_run. cbv zeta.
    match goal with H : map_has _ _ = false |- _ =>
      rewrite (map_set_new _ _ _ H) end.
    match goal with H : negb (existsb (aliveNamed t) _) = false |- _ =>
      apply negb_false_iff in H;
      pose proof (targetsOnRoster_add _ _ v t Hu Hm H) as Hm' end.
    assert (Hrec : wellFormed (set_mafiaVotes (mafiaVotes g ++ [(v, t)]) g))
      by (split; [|split; [|split]]; assumption).
    cbn [mafiaVotes set_mafiaVotes].
    destruct (Nat.eqb _ _); unfold docOf; cbn [fst snd]; [|exact Hrec].
    eapply wellFormed_sameBoard; [apply setPhase_sameBoard|].
    destruct Hrec as (Hu1 & Hv1 & Hm1 & Ht1).
    split; [|split; [|split]]; try assumption.
    cbn [mafiaTarget set_mafiaTarget players]. intros t0 H0.
    apply (resolveMafiaTarget_on_roster (players g)
             (mafiaVotes g ++ [(v, t)])); auto.
    destruct (mafiaVotes g); discriminate.
  - intros i t. rewrite investigate_run.
    destruct (wrongPhase _ _); [exact Hwf|].
    destruct (find (eligibleDetective i) _); [|exact Hwf].
    destruct (detectiveResult g); [exact Hwf|].
    destruct (find (aliveNamed t) _); [|exact Hwf].
    rewrite investigateAccepted_run. cbv zeta. unfold docOf at 1. cbn [fst snd].
    eapply wellFormed_sameBoard; [apply setPhase_sameBoard|].
    exact Hwf.
  - intros d t. rewrite doctorSaveAction_run.
    repeat match goal with
           | |- context [if ?c then _ else _] =>
               destruct c eqn:?; [exact Hwf|]
           end.
    rewrite doctorSaveAccepted_run. cbv zeta. unfold docOf at 1. cbn [fst snd].
    eapply wellFormed_sameBoard; [apply resolveNight_sameBoard|].
    exact Hwf.
  - intros v t.
    destruct (wrongPhase Day g) eqn:E1;
      [rewrite dayVote_run, E1; split; [exact Hwf | discriminate]|].
    destruct (existsb (aliveNamed v) (players g)) eqn:E2;
      [|rewrite dayVote_run, E1, E2; split; [exact Hwf | discriminate]].
    destruct (map_has v (votes g)) eqn:E3;
      [rewrite dayVote_run, E1, E2, E3; split; [exact Hwf | discriminate]|].
    destruct (existsb (aliveNamed t) (players g)) eqn:E4;
      [|rewrite dayVote_run, E1, E2, E3, E4; split; [exact Hwf | discriminate]].
    destruct (validMapKey v) eqn:E5;
      [|rewrite dayVote_run, E1, E2, E3, E4, E5;
        split; [exact Hwf | discriminate]].
    destruct (dayVote_complete v t g E1 E2 E3 E4 E5) as [Hinc Hcomp].
    cbv zeta in Hinc, Hcomp.
    pose proof (targetsOnRoster_add _ _ v t Hu Hv E4) as Hv'.
    assert (Hrec : wellFormed (set_votes (votes g ++ [(v, t)]) g))
      by (split; [|split; [|split]]; assumption).
    destruct (Nat.eq_dec (length (votes g ++ [(v, t)]))
                (length (filter isAlive (players g)))) as [Hlen | Hlen].
    2:{ rewrite (Hinc Hlen). split; [exact Hrec | discriminate]. }

    destruct (Hcomp Hlen) as [Hdoc Hflow]. rewrite Hdoc.
    assert (Hne : votes g ++ [(v, t)] <> [])
      by (destruct (votes g); discriminate).
    assert (Hcleared : forall ev g0, wellFormed g0 ->
              wellFormed (docOf (prepend ev (nextCycle (set_votes [] g0))))
              /\ flowOf (prepend ev (nextCycle (set_votes [] g0))) = Next tt).
    { intros ev g0 (A & B & C & D). unfold prepend, docOf at 1, flowOf at 1.
      cbn [fst snd]. split; [|apply nextCycle_flow].
      eapply wellFormed_sameBoard; [apply nextCycle_sameBoard|].
      split; [|split; [|split]]; try assumption.
      apply targetsOnRoster_nil. }
    assert (Hres : wellFormed
                     (docOf (dayResolve (length (filter isAlive (players g)))
                               (set_votes (votes g ++ [(v, t)]) g)))
                   /\ flowOf (dayResolve (length (filter isAlive (players g)))
                                (set_votes (votes g ++ [(v, t)]) g)) = Next tt).
    { rewrite dayResolve_run, applyElimination_run.
      cbn [players votes set_votes].
      destruct (dayEliminated (players g) (votes g ++ [(v, t)])
                  (length (filter isAlive (players g)))) as [e|] eqn:Ed;
        [|now apply Hcleared].
      destruct (dayEliminated_on_roster _ _ _ _ Hu Hne Hv' Ed) as [He Hr].
      rewrite (truthy_nonempty _ He), Hr. apply Hcleared.
      apply (wellFormed_sameBoard (set_votes (votes g ++ [(v, t)]) g));
        [|exact Hrec].
      split; [apply mutate_found_names|]. repeat split; auto. }
    destruct Hres as [Hw Hf]. split; [exact Hw|].
    intros _. rewrite (Hflow Hf). discriminate.
Qed.

Lemma startGame_keeps_sessions_wellFormed (random_index : nat -> nat)
  (g : Game) :
  wellFormed g -> wellFormed (docOf (startGame random_index g)).
Proof.
  intros Hwf. apply (wellFormed_sameBoard g); [|exact Hwf].
  rewrite startGame_run.
  destruct (villagerRemainder (length (players g)) <? 0)%Z;
    unfold docOf; cbn [fst snd].
  - same_board.
  - unfold dealtGame, sameBoard. cbn. rewrite assignRoles_names. auto.
Qed.

Example lobby_wellFormed : wellFormed (lobby ["a"; "b"; "c"; "d"; "e"]).
Proof.
  split; [|split; [|split]]; try apply targetsOnRoster_nil.
  - intros p Hp. cbn in Hp.
    repeat (destruct Hp as [<- | Hp]; [split; discriminate|]). destruct Hp.
  - discriminate.
Qed.

(* ------------------------------------------------------------------ *)
(** ** The waiting room *)

Lemma truthy_iff (s : string) : truthy s = true <-> s <> EmptyString.
Proof. destruct s; simpl; split; congruence. Qed.

Lemma state_eqb_eq (a b : GameState) : state_eqb a b = true <-> a = b.
Proof. destruct a, b; simpl; split; congruence. Qed.

Lemma existsb_named_names (n : string) (ps : list Player) :
  existsb (named n) ps = true <-> In n (map name ps).
Proof.
  rewrite existsb_named_In, in_map_iff. split; intros (p & H1 & H2); eauto.
Qed.

Lemma existsb_named_false (n : string) (ps : list Player) :
  existsb (named n) ps = false <-> ~ In n (map name ps).
Proof.
  rewrite <- existsb_named_names. destruct (existsb (named n) ps);
    split; congruence.
Qed.

Lemma joinGame_joins (n : string) (sid : option string) (g : Game) :
  n <> EmptyString -> state g = Waiting -> ~ In n (map name (players g)) ->
  length (players g) < maxPlayers g ->
  let joined := set_players (players g ++ [newPlayer n sid]) g in
  joinGame n sid (Some g)
  = mkRun (Document joined) (Some joined)
      [(roomOf g, playerJoined n);
       (roomOf g, sessionEvent (gameUpdated joined))] [].
Proof.
  intros Hn Hs Hfree Hroom. cbv zeta. unfold joinGame.
  rewrite (proj2 (truthy_iff n) Hn), Hs,
    (proj2 (existsb_named_false n _) Hfree). cbn [negb state_eqb].
  apply Nat.leb_gt in Hroom. rewrite Hroom. reflexivity.
Qed.

Lemma joinGame_full (n : string) (sid : option string) (g : Game) :
  n <> EmptyString -> state g = Waiting -> ~ In n (map name (players g)) ->
  maxPlayers g <= length (players g) ->
  joinGame n sid (Some g) = refuse (BadRequest "Room is full") (Some g).
Proof.
  intros Hn Hs Hfree Hroom. unfold joinGame.
  rewrite (proj2 (truthy_iff n) Hn), Hs,
    (proj2 (existsb_named_false n _) Hfree). cbn [negb state_eqb].
  apply Nat.leb_le in Hroom. rewrite Hroom. reflexivity.
Qed.

(** X1.  [joinGame] refuses a request, writing nothing and notifying
    nobody, in five cases that are checked in this order: an empty name
    (status 400, even when the game does not exist), no such game (404), a
    game that is no longer waiting, a name already on the roster, and a full
    room (400).  In every other case the player is appended to the roster
    with the schema defaults and the room is told. *)
Theorem joinGame_outcomes (n : string) (sid : option string)
  (found : option Game) :
  let run := joinGame n sid found in
  (n = EmptyString ->
   response run = BadRequest "Name is required" /\ refused run found)
  /\ (n <> EmptyString -> found = None ->
      response run = NotFound "Game not found" /\ refused run found)
  /\ (forall g, n <> EmptyString -> found = Some g ->
      (state g <> Waiting ->
       response run = BadRequest "Game already started wait for new match"
       /\ refused run found)
      /\ (state g = Waiting -> In n (map name (players g)) ->
          response run = BadRequest "Name already taken" /\ refused run found)
      /\ (state g = Waiting -> ~ In n (map name (players g)) ->
          maxPlayers g <= length (players g) ->
          response run = BadRequest "Room is full" /\ refused run found)
      /\ (state g = Waiting -> ~ In n (map name (players g)) ->
          length (players g) < maxPlayers g ->
          let joined := set_players (players g ++ [newPlayer n sid]) g in
          response run = Document joined
          /\ stored run = Some joined
          /\ notices run = [(roomOf g, playerJoined n);
                            (roomOf g, sessionEvent (gameUpdated joined))]
          /\ timers run = [])).
Proof.
  cbv zeta. split; [|split].
  - intros ->. unfold joinGame. cbn. repeat split.
  - intros Hn ->. unfold joinGame. rewrite (proj2 (truthy_iff n) Hn). cbn.
    repeat split.
  - intros g Hn ->. split; [|split; [|split]].
    + intros Hs. unfold joinGame. rewrite (proj2 (truthy_iff n) Hn).
      cbn [negb]. destruct (state_eqb (state g) Waiting) eqn:E.
      * apply state_eqb_eq in E. contradiction.
      * cbn. repeat split.
    + intros Hs Hin. unfold joinGame.
      rewrite (proj2 (truthy_iff n) Hn), Hs,
        (proj2 (existsb_named_names n _) Hin). cbn. repeat split.
    + intros Hs Hfree Hroom. rewrite (joinGame_full n sid g Hn Hs Hfree Hroom).
      cbn. repeat split.
    + intros Hs Hfree Hroom. rewrite (joinGame_joins n sid g Hn Hs Hfree Hroom).
      cbn. repeat split.
Qed.

Lemma joinGame_outcomes_witness :
  response (joinGame EmptyString None None) = BadRequest "Name is required"
  /\ response (joinGame "zoe" None (Some almostReady))
     = Document (set_players (players almostReady ++ [newPlayer "zoe" None])
                   almostReady)
  /\ response (joinGame "a" None (Some almostReady))
     = BadRequest "Name already taken".
Proof.
  split; [|split].
  - apply (proj1 (joinGame_outcomes EmptyString None None)). reflexivity.
  - destruct (joinGame_outcomes "zoe" None (Some almostReady))
      as (_ & _ & H).
    destruct (H almostReady) as (_ & _ & _ & Hj);
      [discriminate | reflexivity |].
    apply Hj; [reflexivity | | vm_compute; lia].
    cbn. intros [E | [E | [E | [E | [E | []]]]]]; discriminate E.
  - destruct (joinGame_outcomes "a" None (Some almostReady))
      as (_ & _ & H).
    destruct (H almostReady) as (_ & Ht & _);
      [discriminate | reflexivity |].
    apply Ht; [reflexivity | cbn; auto].
Defined.

Lemma joinGame_stores (n : string) (sid : option string) (g : Game) :
  stored (joinGame n sid (Some g)) = Some g
  \/ (n <> EmptyString /\ state g = Waiting /\ ~ In n (map name (players g))
      /\ length (players g) < maxPlayers g
      /\ stored (joinGame n sid (Some g))
         = Some (set_players (players g ++ [newPlayer n sid]) g)).
Proof.
  destruct (string_dec n EmptyString) as [-> | Hn]; [now left|].
  unfold joinGame. rewrite (proj2 (truthy_iff n) Hn). cbn [negb].
  destruct (state_eqb (state g) Waiting) eqn:Es; [|now left].
  apply state_eqb_eq in Es. cbn [negb].
  destruct (existsb (named n) (players g)) eqn:En; [now left|].
  apply existsb_named_false in En.
  destruct (Nat.leb_spec (maxPlayers g) (length (players g))) as [Hl | Hl];
    [now left|].
  right. repeat split; auto.
Qed.

(** X2.  Whatever is asked, [joinGame] keeps a roster sound: names stay
    pairwise different and non-empty, the roster never grows beyond
    [maxPlayers], and the players already there keep their place and their
    fields (at most one player is added, at the end). *)
Theorem joinGame_keeps_roster_sound (n : string) (sid : option string)
  (g : Game) :
  NoDup (map name (players g)) ->
  (forall p, In p (players g) -> name p <> EmptyString) ->
  length (players g) <= maxPlayers g ->
  exists g',
    stored (joinGame n sid (Some g)) = Some g'
    /\ NoDup (map name (players g'))
    /\ (forall p, In p (players g') -> name p <> EmptyString)
    /\ length (players g') <= maxPlayers g'
    /\ (exists l, players g' = players g ++ l /\ length l <= 1)
    /\ gameId g' = gameId g /\ state g' = state g
    /\ maxPlayers g' = maxPlayers g.
Proof.
  intros Hnd Hne Hcap.
  destruct (joinGame_stores n sid g) as [E | (Hn & Hs & Hfree & Hroom & E)].
  - exists g. rewrite E. repeat split; auto.
    exists []. rewrite app_nil_r. split; [reflexivity | cbn; lia].
  - exists (set_players (players g ++ [newPlayer n sid]) g). rewrite E.
    cbn [players set_players gameId state maxPlayers].
    split; [reflexivity|]. split; [|split; [|split; [|split]]].
    + rewrite map_app. cbn. apply NoDup_app_remove_l with (l := []).
      cbn. apply Permutation_NoDup with (l := n :: map name (players g)).
      * apply Permutation_cons_append.
      * constructor; assumption.
    + intros p Hp. apply in_app_or in Hp. destruct Hp as [Hp | [<- | []]];
        [now apply Hne | exact Hn].
    + rewrite length_app. cbn. lia.
    + exists [newPlayer n sid]. split; [reflexivity | cbn; lia].
    + repeat split.
Qed.

Lemma joinGame_keeps_roster_sound_witness :
  exists g',
    stored (joinGame "zoe" None (Some almostReady)) = Some g'
    /\ NoDup (map name (players g'))
    /\ length (players g') <= maxPlayers g'.
Proof.
  destruct (joinGame_keeps_roster_sound "zoe" None almostReady)
    as (g' & E & Hnd & _ & Hcap & _).
  - cbn. repeat constructor; cbn; intuition discriminate.
  - cbn. intros p [<- | [<- | [<- | [<- | [<- | []]]]]]; discriminate.
  - vm_compute. lia.
  - exists g'. auto.
Defined.

Lemma joinAll_fills (requests : list (string * option string)) (g : Game) :
  state g = Waiting ->
  NoDup (map name (players g) ++ map fst requests) ->
  (forall r, In r requests -> fst r <> EmptyString) ->
  playersOf (joinAll requests (Some g))
  = players g
    ++ map (fun r => newPlayer (fst r) (snd r))
         (firstn (maxPlayers g - length (players g)) requests).
Proof.
  revert g. induction requests as [|[n sid] rs IH]; intros g Hs Hnd Hne.
  - cbn. now rewrite firstn_nil, app_nil_r.
  - assert (Hn : n <> EmptyString) by (apply (Hne (n, sid)); now left).
    assert (Hfree : ~ In n (map name (players g))).
    { intros Hin. cbn in Hnd. apply NoDup_remove_2 in Hnd. apply Hnd.
      apply in_or_app. now left. }
    assert (Hne' : forall r, In r rs -> fst r <> EmptyString)
      by (intros r Hr; apply Hne; now right).
    unfold joinAll. cbn [fold_left fst snd].
    destruct (Nat.le_gt_cases (maxPlayers g) (length (players g)))
      as [Hfull | Hroom].
    + rewrite (joinGame_full n sid g Hn Hs Hfree Hfull). cbn [stored refuse].
      change (fold_left _ rs (Some g)) with (joinAll rs (Some g)).
      rewrite IH; auto.
      * replace (maxPlayers g - length (players g)) with 0 by lia.
        reflexivity.
      * cbn in Hnd. now apply NoDup_remove_1 in Hnd.
    + rewrite (joinGame_joins n sid g Hn Hs Hfree Hroom). cbn [stored].
      change (fold_left _ rs ?x) with (joinAll rs x).
      rewrite IH; auto.
      * cbn [players set_players maxPlayers]. rewrite length_app. cbn [length].
        replace (maxPlayers g - length (players g))
          with (S (maxPlayers g - (length (players g) + 1))) by lia.
        cbn [firstn map]. rewrite <- app_assoc. reflexivity.
      * cbn [players set_players]. rewrite map_app. cbn [map name newPlayer].
        rewrite <- app_assoc. exact Hnd.
Qed.

(** X3.  A room made by [createGame] seats the first [maxPlayers] of any
    sequence of join requests with pairwise different, non-empty names, in
    the order of the requests and with the schema defaults, and turns the
    others away; a [maxPlayers] that is missing or zero means ten seats. *)
Theorem createGame_seats_first_comers (uuid : string) (maxPlayers : option nat)
  (requests : list (string * option string)) :
  NoDup (map fst requests) ->
  (forall r, In r requests -> fst r <> EmptyString) ->
  playersOf (joinAll requests (stored (createGame uuid maxPlayers)))
  = map (fun r => newPlayer (fst r) (snd r))
      (firstn (maxPlayersOr10 maxPlayers) requests)
  /\ (maxPlayers = None \/ maxPlayers = Some 0 ->
      maxPlayersOr10 maxPlayers = 10)
  /\ (forall k, maxPlayers = Some (S k) -> maxPlayersOr10 maxPlayers = S k).
Proof.
  intros Hnd Hne. split; [|split].
  - cbn [createGame stored]. rewrite joinAll_fills; auto.
    cbn. now rewrite Nat.sub_0_r.
  - intros [-> | ->]; reflexivity.
  - intros k ->. reflexivity.
Qed.

Lemma createGame_seats_first_comers_witness :
  map name
    (playersOf (joinAll [("a", None); ("b", None); ("c", None)]
                  (stored (createGame "id" (Some 2)))))
  = ["a"; "b"].
Proof.
  rewrite (proj1 (createGame_seats_first_comers "id" (Some 2)
                    [("a", None); ("b", None); ("c", None)]
                    ltac:(cbn; repeat constructor; cbn; intuition discriminate)
                    ltac:(cbn; intros r [<- | [<- | [<- | []]]]; discriminate))).
  reflexivity.
Defined.

(* ------------------------------------------------------------------ *)
(** ** Ready, unready and the countdown *)

Lemma mutate_found_none (pred : Player -> bool) (upd : Player -> Player)
  (ps : list Player) :
  find pred ps = None -> mutate_found pred upd ps = ps.
Proof.
  induction ps as [|p ps IH]; simpl; [reflexivity|].
  destruct (pred p); [discriminate|]. intros H. now rewrite IH.
Qed.

Lemma mutate_found_isReady_twice (n : string) (b c : bool)
  (ps : list Player) :
  mutate_found (named n) (set_isReady c)
    (mutate_found (named n) (set_isReady b) ps)
  = mutate_found (named n) (set_isReady c) ps.
Proof.
  induction ps as [|p ps IH]; simpl; [reflexivity|].
  destruct (named n p) eqn:E; simpl.
  - unfold named in *. cbn [name set_isReady]. rewrite E. reflexivity.
  - rewrite E, IH. reflexivity.
Qed.

Lemma mutate_found_isReady_same (n : string) (ps : list Player) (b : bool) :
  (forall p, find (named n) ps = Some p -> isReady p = b) ->
  mutate_found (named n) (set_isReady b) ps = ps.
Proof.
  induction ps as [|p ps IH]; simpl; [reflexivity|].
  destruct (named n p) eqn:E; intros H.
  - specialize (H p eq_refl). destruct p. cbn in *. now subst.
  - now rewrite IH.
Qed.

Lemma set_players_same (g : Game) : set_players (players g) g = g.
Proof. now destruct g. Qed.

Lemma setReady_stores (n : string) (g : Game) :
  stored (setReady n (Some g))
  = Some (if state_eqb (state g) Waiting
          then set_players
                 (mutate_found (named n) (set_isReady true) (players g)) g
          else g)
  /\ stored (setUnready n (Some g))
     = Some (if state_eqb (state g) Waiting
             then set_players
                    (mutate_found (named n) (set_isReady false) (players g)) g
             else g).
Proof.
  unfold setReady, setUnready.
  destruct (state_eqb (state g) Waiting); cbn [negb]; [|now split].
  destruct (find (named n) (players g)) eqn:E; cbn; [now split|].
  rewrite !(mutate_found_none _ _ _ E), set_players_same. now split.
Qed.

(** X4.  Marking a player ready twice is the same as marking once, and
    [setUnready] after [setReady] gives back the stored document of a player
    who was not ready; this holds for every document, found or not, waiting
    or not. *)
Theorem ready_unready_round_trip (n : string) (found : option Game) :
  stored (setReady n (stored (setReady n found))) = stored (setReady n found)
  /\ stored (setUnready n (stored (setUnready n found)))
     = stored (setUnready n found)
  /\ ((forall g p, found = Some g -> find (named n) (players g) = Some p ->
                   isReady p = false) ->
      stored (setUnready n (stored (setReady n found))) = found).
Proof.
  destruct found as [g|]; [|repeat split].
  destruct (setReady_stores n g) as [Er Eu].
  split; [|split].
  - rewrite Er. destruct (state_eqb (state g) Waiting) eqn:Es.
    + match goal with |- context [setReady n (Some ?x)] =>
        destruct (setReady_stores n x) as [Er' _]; rewrite Er' end.
      cbn [state set_players players]. rewrite Es.
      now rewrite mutate_found_isReady_twice.
    + rewrite Er; try rewrite Es; reflexivity.
  - rewrite Eu. destruct (state_eqb (state g) Waiting) eqn:Es.
    + match goal with |- context [setUnready n (Some ?x)] =>
        destruct (setReady_stores n x) as [_ Eu']; rewrite Eu' end.
      cbn [state set_players players]. rewrite Es.
      now rewrite mutate_found_isReady_twice.
    + rewrite Eu; try rewrite Es; reflexivity.
  - intros H. rewrite Er. destruct (state_eqb (state g) Waiting) eqn:Es.
    + match goal with |- context [setUnready n (Some ?x)] =>
        destruct (setReady_stores n x) as [_ Eu']; rewrite Eu' end.
      cbn [state set_players players]. rewrite Es.
      rewrite mutate_found_isReady_twice, mutate_found_isReady_same.
      * destruct g; reflexivity.
      * intros p. now apply H.
    + rewrite Eu; try rewrite Es; reflexivity.
Qed.

Lemma ready_unready_round_trip_witness :
  stored (setUnready "e" (stored (setReady "e" (Some almostReady))))
  = Some almostReady.
Proof.
  apply (proj2 (proj2 (ready_unready_round_trip "e" (Some almostReady)))).
  intros g p [= <-] [= <-]. reflexivity.
Defined.

Lemma forallb_isReady_marked (n : string) (ps : list Player) :
  NoDup (map name ps) -> In n (map name ps) ->
  forallb isReady (mutate_found (named n) (set_isReady true) ps) = true
  <-> (forall p, In p ps -> name p <> n -> isReady p = true).
Proof.
  induction ps as [|q ps IH]; [intros _ []|].
  cbn [map]. intros Hnd Hin. inversion Hnd as [|x l Hq Hnd']; subst.
  cbn [mutate_found]. unfold named at 1.
  destruct (String.eqb_spec (name q) n) as [E | E].
  - cbn [forallb isReady set_isReady andb]. rewrite forallb_forall. split.
    + intros H p [<- | Hp] Hne; [contradiction | now apply H].
    + intros H p Hp. apply H; [now right|].
      intros Ep. apply Hq. rewrite E, <- Ep. now apply in_map.
  - destruct Hin as [Hin | Hin]; [contradiction|].
    cbn [forallb]. rewrite andb_true_iff, (IH Hnd' Hin). split.
    + intros [Hr H] p [<- | Hp] Hne; [exact Hr | now apply H].
    + intros H. split; [apply H; [now left | exact E]|].
      intros p Hp. apply H. now right.
Qed.

Lemma mutate_found_length (pred : Player -> bool) (upd : Player -> Player)
  (ps : list Player) :
  length (mutate_found pred upd ps) = length ps.
Proof.
  induction ps as [|p ps IH]; simpl; [reflexivity|].
  destruct (pred p); simpl; now rewrite ?IH.
Qed.

(** X5.  [setReady] arms the ten-second timer, and announces the countdown
    to the room, exactly when the roster then has at least five players who
    are all ready: on a waiting roster of distinct names, when there are at
    least five players and everybody but the player of the request was
    ready already.  [setUnready] never arms a timer. *)
Theorem setReady_arms_countdown (n : string) (g : Game) :
  state g = Waiting -> NoDup (map name (players g)) ->
  In n (map name (players g)) ->
  let run := setReady n (Some g) in
  (timers run = [10000%N]
   <-> 5 <= length (players g)
       /\ (forall p, In p (players g) -> name p <> n -> isReady p = true))
  /\ (timers run = [10000%N] \/ timers run = [])
  /\ (In (roomOf g, startCountdown 10) (notices run)
      <-> timers run = [10000%N])
  /\ (forall found, timers (setUnready n found) = []).
Proof.
  intros Hs Hnd Hin. cbv zeta.
  assert (Hun : forall found, timers (setUnready n found) = []).
  { intros [g0|]; [|reflexivity]. unfold setUnready.
    destruct (negb _); [reflexivity|].
    destruct (find _ _); reflexivity. }
  unfold setReady. rewrite Hs. cbn [negb state_eqb].
  destruct (existsb_find_some (named n) (players g)
              (proj2 (existsb_named_names n _) Hin)) as [p0 ->].
  cbn [players set_players timers notices]. rewrite mutate_found_length.
  pose proof (forallb_isReady_marked n (players g) Hnd Hin) as Hall.
  destruct (Nat.leb_spec 5 (length (players g))) as [H5 | H5]; cbn [andb].
  - destruct (forallb isReady _) eqn:Ef.
    + repeat split; auto.
      * now apply Hall.
      * intros _. cbn. auto.
    + split; [|split; [|split]]; auto.
      * split; [discriminate|]. intros [_ H]. apply Hall in H. discriminate.
      * split; [|discriminate].
        cbn. intros [H | [H | []]]; discriminate H.
  - split; [|split; [|split]]; auto.
    + split; [discriminate | lia].
    + split; [|discriminate].
      cbn. intros [H | [H | []]]; discriminate H.
Qed.

Lemma setReady_arms_countdown_witness :
  timers (setReady "e" (Some almostReady)) = [10000%N]
  /\ In (roomOf almostReady, startCountdown 10)
       (notices (setReady "e" (Some almostReady))).
Proof.
  destruct (setReady_arms_countdown "e" almostReady) as (Harm & _ & Hsay & _).
  - reflexivity.
  - cbn. repeat constructor; cbn; intuition discriminate.
  - cbn. auto 10.
  - assert (E : timers (setReady "e" (Some almostReady)) = [10000%N]).
    { apply Harm. split; [vm_compute; lia|].
      cbn. intros p [<- | [<- | [<- | [<- | [<- | []]]]]] H;
        try reflexivity.
      now contradiction H. }
    split; [exact E | now apply Hsay].
Defined.

Lemma countdownElapsed_run (random_index : nat -> nat) (g : Game) :
  countdownElapsed random_index g =
  if (Nat.leb 5 (length (players g)) && forallb isReady (players g))%bool
  then startGame random_index g
  else (Next tt, g, []).
Proof.
  unfold countdownElapsed, bind, get, when. cbv beta iota.
  destruct (Nat.leb 5 (length (players g)) && forallb isReady (players g))%bool;
    [|reflexivity].
  destruct (startGame random_index g) as [[fl g1] e1]. reflexivity.
Qed.

Lemma startGame_returns (random_index : nat -> nat) (g : Game) :
  2 <= length (players g) ->
  startGame random_index g
  = (Next tt, dealtGame random_index g,
     startNotices (dealtGame random_index g)).
Proof.
  intros H. rewrite startGame_run.
  destruct (Z.ltb_spec (villagerRemainder (length (players g))) 0) as [Hn | Hn];
    [|reflexivity].
  apply villagerRemainder_negative in Hn. lia.
Qed.

Lemma dealtGame_roles (random_index : nat -> nat) (g : Game) :
  2 <= length (players g) ->
  map role (players (dealtGame random_index g))
  = shuffleArray random_index (roleDeck (length (players g))).
Proof.
  intros H. unfold dealtGame. cbn [players set_players].
  apply assignRoles_combine.
  rewrite (Permutation_length (shuffleArray_Permutation _ _)).
  apply roleDeck_length.
  destruct (Z.lt_ge_cases (villagerRemainder (length (players g))) 0)
    as [Hn | Hn]; [|exact Hn].
  apply villagerRemainder_negative in Hn. lia.
Qed.

(** X6.  The callback of the countdown never fails.  When the document it
    reads has fewer than five players, or a player who is not ready, it does
    nothing at all; otherwise it runs [startGame], whose [RangeError] cannot
    occur behind the five-player test: the game is in progress, in the night
    of the Mafia, with a permutation of the role deck dealt. *)
Theorem countdown_starts_or_lapses (random_index : nat -> nat) (g : Game) :
  flowOf (countdownElapsed random_index g) = Next tt
  /\ (length (players g) < 5
      \/ (exists p, In p (players g) /\ isReady p = false) ->
      countdownElapsed random_index g = (Next tt, g, []))
  /\ (5 <= length (players g) ->
      (forall p, In p (players g) -> isReady p = true) ->
      let started := docOf (countdownElapsed random_index g) in
      countdownElapsed random_index g = startGame random_index g
      /\ state started = InProgress
      /\ currentPhase started = NightMafia
      /\ Permutation (map role (players started))
           (roleDeck (length (players g)))).
Proof.
  rewrite countdownElapsed_run. split; [|split].
  - destruct (Nat.leb_spec 5 (length (players g))) as [H5 | H5];
      [|reflexivity].
    destruct (forallb isReady (players g)); [|reflexivity].
    cbn [andb]. rewrite startGame_returns by lia. reflexivity.
  - intros [Hlt | (p & Hp & Hr)].
    + apply Nat.leb_gt in Hlt. now rewrite Hlt.
    + assert (E : forallb isReady (players g) = false).
      { destruct (forallb isReady (players g)) eqn:E; [|reflexivity].
        rewrite forallb_forall in E. rewrite (E p Hp) in Hr. discriminate. }
      rewrite E, andb_false_r. reflexivity.
  - intros H5 Hall. cbv zeta.
    rewrite (proj2 (Nat.leb_le _ _) H5), (proj2 (forallb_forall _ _) Hall).
    cbn [andb]. split; [reflexivity|].
    rewrite startGame_returns by lia. unfold docOf. cbn [fst snd].
    split; [reflexivity|]. split; [reflexivity|].
    rewrite dealtGame_roles by lia. apply shuffleArray_Permutation.
Qed.

Lemma countdown_starts_or_lapses_witness :
  countdownElapsed (fun _ => 0) almostReady = (Next tt, almostReady, [])
  /\ state (docOf (countdownElapsed (fun _ => 0)
                     (lobby ["a"; "b"; "c"; "d"; "e"]))) = InProgress.
Proof.
  split.
  - apply (proj1 (proj2 (countdown_starts_or_lapses (fun _ => 0) almostReady))).
    right. exists (mkPlayer "e" Unassigned true false None).
    split; [cbn; auto 10 | reflexivity].
  - apply (proj2 (proj2 (countdown_starts_or_lapses (fun _ => 0)
                           (lobby ["a"; "b"; "c"; "d"; "e"])))).
    + vm_compute. lia.
    + cbn. intros p [<- | [<- | [<- | [<- | [<- | []]]]]]; reflexivity.
Defined.

Lemma assignRoles_cons (p : Player) (ps : list Player) (rs : list Role) :
  assignRoles (p :: ps) rs
  = set_role (hd Unassigned rs) p :: assignRoles ps (tl rs).
Proof. destruct rs; reflexivity. Qed.

Lemma assignRoles_keeps (ps : list Player) (rs : list Role) :
  map isAlive (assignRoles ps rs) = map isAlive ps
  /\ map isReady (assignRoles ps rs) = map isReady ps
  /\ map socketId (assignRoles ps rs) = map socketId ps.
Proof.
  revert rs. induction ps as [|p ps IH]; intros rs; [repeat split|].
  rewrite assignRoles_cons. cbn [map isAlive isReady socketId set_role].
  destruct (IH (tl rs)) as (-> & -> & ->). repeat split.
Qed.

(** X7.  The callback of the countdown does not look at the state of the
    document.  On any document with at least five players who are all ready,
    be the game waiting, in progress or finished, it sets the state to in
    progress and the phase to the night of the Mafia and deals the shuffled
    deck over the roles the players had, while deaths, the two ledgers, the
    mafia target, the night fields and the last victim stay as they were. *)
Theorem countdown_ignores_state (random_index : nat -> nat) (g : Game) :
  5 <= length (players g) ->
  (forall p, In p (players g) -> isReady p = true) ->
  let restarted := docOf (countdownElapsed random_index g) in
  state restarted = InProgress
  /\ currentPhase restarted = NightMafia
  /\ map role (players restarted)
     = shuffleArray random_index (roleDeck (length (players g)))
  /\ map name (players restarted) = map name (players g)
  /\ map isAlive (players restarted) = map isAlive (players g)
  /\ votes restarted = votes g
  /\ mafiaVotes restarted = mafiaVotes g
  /\ mafiaTarget restarted = mafiaTarget g
  /\ detectiveResult restarted = detectiveResult g
  /\ doctorSave restarted = doctorSave g
  /\ lastKilled restarted = lastKilled g.
Proof.
  intros H5 Hall. cbv zeta. rewrite countdownElapsed_run.
  rewrite (proj2 (Nat.leb_le _ _) H5), (proj2 (forallb_forall _ _) Hall).
  cbn [andb]. rewrite startGame_returns by lia. unfold docOf. cbn [fst snd].
  split; [reflexivity|]. split; [reflexivity|].
  split; [apply dealtGame_roles; lia|].
  unfold dealtGame. cbn [players set_players].
  split; [apply assignRoles_names|].
  split; [apply assignRoles_keeps|]. repeat split.
Qed.

Lemma countdown_ignores_state_witness :
  state finishedReady = Finished
  /\ state (docOf (countdownElapsed (fun _ => 0) finishedReady)) = InProgress
  /\ map isAlive (players (docOf (countdownElapsed (fun _ => 0) finishedReady)))
     = [false; true; true; false; true]
  /\ votes (docOf (countdownElapsed (fun _ => 0) finishedReady))
     = [("b", "a")].
Proof.
  destruct (countdown_ignores_state (fun _ => 0) finishedReady)
    as (Hs & _ & _ & _ & Ha & Hv & _).
  - vm_compute. lia.
  - cbn. intros p [<- | [<- | [<- | [<- | [<- | []]]]]]; reflexivity.
  - split; [reflexivity|]. split; [exact Hs|]. split; [exact Ha | exact Hv].
Defined.

(* ------------------------------------------------------------------ *)
(** ** A game that has just started *)

Lemma filter_role_length (f : Role -> bool) (ps : list Player) :
  length (filter (fun p => f (role p)) ps) = length (filter f (map role ps)).
Proof.
  induction ps as [|p ps IH]; simpl; [reflexivity|].
  destruct (f (role p)); simpl; now rewrite IH.
Qed.

Lemma filter_alive_all (f : Role -> bool) (ps : list Player) :
  (forall p, In p ps -> isAlive p = true) ->
  filter (fun p => f (role p) && isAlive p)%bool ps
  = filter (fun p => f (role p)) ps.
Proof.
  intros H. apply filter_ext_in. intros p Hp. rewrite (H p Hp).
  apply andb_true_r.
Qed.

Lemma isMafiaRole_count (l : list Role) :
  length (filter isMafiaRole l) = countRole Mafia l + countRole Godfather l.
Proof.
  induction l as [|r l IH]; [reflexivity|].
  rewrite !countRole_cons. cbn [filter].
  destruct r; cbn; rewrite ?IH;
    repeat match goal with
           | |- context [Role_eq_dec ?a ?b] =>
               destruct (Role_eq_dec a b); try discriminate; try congruence
           end; lia.
Qed.

Lemma isTownRole_count (l : list Role) :
  length (filter isTownRole l)
  = countRole Villager l + countRole Detective l + countRole Doctor l.
Proof.
  induction l as [|r l IH]; [reflexivity|].
  rewrite !countRole_cons. cbn [filter].
  destruct r; cbn; rewrite ?IH;
    repeat match goal with
           | |- context [Role_eq_dec ?a ?b] =>
               destruct (Role_eq_dec a b); try discriminate; try congruence
           end; lia.
Qed.

Lemma map_isAlive_all (ps ps' : list Player) :
  map isAlive ps' = map isAlive ps ->
  (forall p, In p ps -> isAlive p = true) ->
  forall p, In p ps' -> isAlive p = true.
Proof.
  intros E H p Hp.
  assert (Hin : In (isAlive p) (map isAlive ps))
    by (rewrite <- E; now apply in_map).
  apply in_map_iff in Hin. destruct Hin as (q & <- & Hq). now apply H.
Qed.

(** X8.  A game that [startGame] has just started with three or more
    players, all alive, is undecided: [N / 3] of them, at least one, are
    Mafia or Godfather, the other [N - N / 3] are town and outnumber them, so
    win evaluation gives no verdict and leaves the session as it is. *)
Theorem started_game_is_undecided (random_index : nat -> nat) (g : Game) :
  3 <= length (players g) ->
  (forall p, In p (players g) -> isAlive p = true) ->
  let n := length (players g) in
  let started := docOf (startGame random_index g) in
  aliveMafiaCount started = n / 3
  /\ aliveTownCount started = n - n / 3
  /\ 0 < aliveMafiaCount started < aliveTownCount started
  /\ checkWinConditions started = (Next tt, started, []).
Proof.
  intros H3 Halive. cbv zeta.
  rewrite startGame_returns by lia. unfold docOf. cbn [fst snd].
  set (n := length (players g)).
  set (started := dealtGame random_index g).
  assert (Hroles : map role (players started)
                   = shuffleArray random_index (roleDeck n))
    by (apply dealtGame_roles; lia).
  assert (Hal : forall p, In p (players started) -> isAlive p = true).
  { apply (map_isAlive_all (players g)); [|exact Halive].
    unfold started, dealtGame. cbn [players set_players].
    apply assignRoles_keeps. }
  assert (Hcount : forall r, countRole r (map role (players started))
                             = countRole r (roleDeck n)).
  { intros r. rewrite Hroles. unfold countRole.
    apply (proj1 (Permutation_count_occ Role_eq_dec _ _)),
      shuffleArray_Permutation. }
  destruct (roleDeck_counts n) as (_ & Cm & Cd & Cdoc & Cv & _).
  assert (Hm : aliveMafiaCount started = n / 3).
  { unfold aliveMafiaCount, aliveMafiaP.
    rewrite (filter_alive_all isMafiaRole _ Hal), filter_role_length,
      isMafiaRole_count, !Hcount. exact Cm. }
  assert (Hdiv : 1 <= n / 3 /\ 3 * (n / 3) <= n).
  { split; [|apply third_le].
    apply (Nat.div_le_lower_bound n 3 1); unfold n; lia. }
  assert (Ht : aliveTownCount started = n - n / 3).
  { unfold aliveTownCount, aliveTownP.
    rewrite (filter_alive_all isTownRole _ Hal), filter_role_length,
      isTownRole_count, !Hcount, Cd, Cdoc, Cv. lia. }
  split; [exact Hm|]. split; [exact Ht|]. split; [lia|].
  rewrite checkWinConditions_run.
  destruct (Nat.eqb_spec (aliveMafiaCount started) 0) as [E | _]; [lia|].
  destruct (Nat.leb_spec (aliveTownCount started) (aliveMafiaCount started));
    [lia | reflexivity].
Qed.

Lemma started_game_is_undecided_witness :
  let started :=
    docOf (startGame (fun _ => 0) (lobby ["a"; "b"; "c"; "d"; "e"; "f"])) in
  aliveMafiaCount started = 2 /\ aliveTownCount started = 4
  /\ checkWinConditions started = (Next tt, started, []).
Proof.
  cbv zeta.
  destruct (started_game_is_undecided (fun _ => 0)
              (lobby ["a"; "b"; "c"; "d"; "e"; "f"]))
    as (Hm & Ht & _ & Hc).
  - vm_compute. lia.
  - cbn. intros p [<- | [<- | [<- | [<- | [<- | [<- | []]]]]]]; reflexivity.
  - split; [exact Hm|]. split; [exact Ht | exact Hc].
Defined.

(* ------------------------------------------------------------------ *)
(** ** What a request does to the players *)

Lemma tryCatch_doc (m : M unit) (g : Game) :
  docOf (tryCatch m g) = docOf (m g) /\ traceOf (tryCatch m g) = traceOf (m g).
Proof.
  unfold tryCatch. destruct (m g) as [[[[]|r|e] g1] e1]; split; reflexivity.
Qed.

Lemma resolveNight_players (g : Game) :
  oneDeath (players g) (players (docOf (resolveNight g))).
Proof.
  rewrite resolveNight_run, nightBody_run. unfold docOf, traceOf.
  destruct (nightKill_cases g) as [[t ->] | [-> | ->]]; cbn;
    [right; exists t; reflexivity | left; reflexivity | left; reflexivity].
Qed.

Lemma setPhase_players (p : Phase) (g : Game) :
  oneDeath (players g) (players (docOf (setPhase p g))).
Proof.
  assert (Hdoc : forall g0,
             oneDeath (players g0) (players (docOf (setPhase NightDoctor g0)))).
  { intros g0.
    destruct (existsb (aliveWithRole Doctor) (players g0)) eqn:E.
    - rewrite (setPhase_NightDoctor_open g0 E). left. reflexivity.
    - rewrite (setPhase_NightDoctor_skip g0 E).
      apply (resolveNight_players (set_currentPhase NightDoctor g0)). }
  destruct p.
  - rewrite setPhase_fixpoint. left. reflexivity.
  - rewrite setPhase_NightMafia. left. reflexivity.
  - destruct (existsb (aliveWithRole Detective) (players g)) eqn:E.
    + rewrite (setPhase_NightDetective_open g E). left. reflexivity.
    + rewrite (setPhase_NightDetective_skip g E), setPhase_overwrites.
      apply Hdoc.
  - apply Hdoc.
  - rewrite setPhase_Day. left. reflexivity.
  - rewrite setPhase_fixpoint. left. reflexivity.
Qed.

Lemma nextCycle_players (g : Game) :
  players (docOf (nextCycle g)) = players g.
Proof.
  rewrite nextCycle_run.
  destruct (Nat.eqb _ 0); [reflexivity|].
  destruct (Nat.leb _ _); [reflexivity|].
  destruct (state_eqb _ _); [reflexivity|].
  rewrite setPhase_NightMafia. reflexivity.
Qed.

Lemma dayResolve_players (n : nat) (g : Game) :
  oneDeath (players g) (players (docOf (dayResolve n g))).
Proof.
  rewrite dayResolve_run, applyElimination_run.
  destruct (dayEliminated (players g) (votes g) n) as [e|];
    [destruct (truthy e); [destruct (existsb (named e) (players g))|]|];
    unfold prepend, docOf; cbn [fst snd];
    try (change (snd (fst (nextCycle ?x))) with (docOf (nextCycle x));
         rewrite nextCycle_players).
  - right. exists e. reflexivity.
  - left. reflexivity.
  - left. reflexivity.
  - left. reflexivity.
Qed.

Lemma perform_players (a : Action) (g : Game) :
  oneDeath (players g) (players (docOf (perform a g))).
Proof.
  destruct a as [v t | i t | d t | v t]; cbn [perform].
  - rewrite mafiaVote_run.
    repeat match goal with
           | |- context [if ?c then _ else _] =>
               destruct c; [left; reflexivity|]
           end.
    destruct (validMapKey v); [|left; reflexivity].
    rewrite mafiaVoteAccepted_run. cbv zeta.
    destruct (Nat.eqb _ _); unfold docOf at 1; cbn [fst snd];
      [|left; reflexivity].
    match goal with |- context [setPhase ?p ?x] =>
      exact (setPhase_players p x) end.
  - rewrite investigate_run.
    destruct (wrongPhase _ _); [left; reflexivity|].
    destruct (find (eligibleDetective i) _); [|left; reflexivity].
    destruct (detectiveResult g); [left; reflexivity|].
    destruct (find (aliveNamed t) _); [|left; reflexivity].
    rewrite investigateAccepted_run. cbv zeta. unfold docOf at 1.
    cbn [fst snd].
    match goal with |- context [setPhase ?p ?x] =>
      exact (setPhase_players p x) end.
  - rewrite doctorSaveAction_run.
    repeat match goal with
           | |- context [if ?c then _ else _] =>
               destruct c; [left; reflexivity|]
           end.
    rewrite doctorSaveAccepted_run. cbv zeta. unfold docOf at 1.
    cbn [fst snd].
    exact (resolveNight_players (set_doctorSave (Some t) g)).
  - rewrite dayVote_run.
    repeat match goal with
           | |- context [if ?c then _ else _] =>
               destruct c; [left; reflexivity|]
           end.
    destruct (validMapKey v); [|left; reflexivity].
    rewrite (proj1 (tryCatch_doc _ _)), dayVoteAccepted_run. cbv zeta.
    destruct (Nat.eqb _ _); [|left; reflexivity].
    match goal with |- context [dayResolve ?n ?x] =>
      pose proof (dayResolve_players n x) as H;
      destruct (dayResolve n x) as [[[[]|r|e] g2] e2] end;
      exact H.
Qed.

Lemma sameSeat_refl (ps : list Player) : Forall2 sameSeat ps ps.
Proof. induction ps; constructor; [repeat split; auto | assumption]. Qed.

Lemma mutate_found_sameSeat (pred : Player -> bool) (ps : list Player) :
  Forall2 sameSeat ps (mutate_found pred (set_isAlive false) ps).
Proof.
  induction ps as [|p ps IH]; simpl; [constructor|].
  destruct (pred p).
  - constructor; [|apply sameSeat_refl]. repeat split. discriminate.
  - constructor; [repeat split; auto | exact IH].
Qed.

Lemma mutate_found_aliveCount (pred : Player -> bool) (ps : list Player) :
  aliveCount (mutate_found pred (set_isAlive false) ps) <= aliveCount ps
  <= S (aliveCount (mutate_found pred (set_isAlive false) ps)).
Proof.
  unfold aliveCount. induction ps as [|p ps IH]; simpl; [lia|].
  destruct (pred p); simpl.
  - destruct (isAlive p); simpl; lia.
  - destruct (isAlive p); simpl; lia.
Qed.

(** X9.  No action request revives a player or touches a name, a role, a
    readiness flag or a socket: after [mafiaVote], [investigate],
    [doctorSave] or [dayVote], accepted or not, every player sits where they
    sat with the same fields, is alive only if they were alive before, and
    at most one player has died. *)
Theorem actions_never_revive (a : Action) (g : Game) :
  let after := players (docOf (perform a g)) in
  Forall2 sameSeat (players g) after
  /\ aliveCount after <= aliveCount (players g) <= S (aliveCount after).
Proof.
  cbv zeta. destruct (perform_players a g) as [-> | [t ->]].
  - split; [apply sameSeat_refl | lia].
  - split; [apply mutate_found_sameSeat | apply mutate_found_aliveCount].
Qed.

Lemma oneDeath_names (ps ps' : list Player) :
  oneDeath ps ps' -> map name ps' = map name ps.
Proof. intros [-> | [t ->]]; [reflexivity | apply mutate_found_names]. Qed.

Lemma dealtGame_names (random_index : nat -> nat) (g : Game) :
  map name (players (docOf (startGame random_index g))) = map name (players g).
Proof.
  rewrite startGame_run.
  destruct (villagerRemainder (length (players g)) <? 0)%Z;
    unfold docOf; cbn [fst snd]; [reflexivity|].
  unfold dealtGame. cbn [players set_players]. apply assignRoles_names.
Qed.

(** X10.  Once a game has left the waiting state the controller keeps its
    roster: the HTTP handlers [joinGame], [setReady] and [setUnready] answer
    400 and write nothing, and the four action handlers and the countdown
    callback keep the names of the players and their order.  (The socket
    handlers of [server.js] are not part of this statement.) *)
Theorem controller_keeps_roster_after_start (g : Game) :
  state g <> Waiting ->
  (forall n sid,
     refused (joinGame n sid (Some g)) (Some g)
     /\ exists msg, response (joinGame n sid (Some g)) = BadRequest msg)
  /\ (forall n,
        setReady n (Some g)
        = refuse (BadRequest "Game already started") (Some g)
        /\ setUnready n (Some g)
           = refuse (BadRequest "Game already started") (Some g))
  /\ (forall a, map name (players (docOf (perform a g)))
                = map name (players g))
  /\ (forall random_index,
        map name (players (docOf (countdownElapsed random_index g)))
        = map name (players g)).
Proof.
  intros Hs.
  assert (E : state_eqb (state g) Waiting = false).
  { destruct (state_eqb (state g) Waiting) eqn:E; [|reflexivity].
    apply state_eqb_eq in E. contradiction. }
  split; [|split; [|split]].
  - intros n sid. unfold joinGame. destruct (truthy n); cbn [negb].
    + rewrite E. cbn. split; [repeat split | eauto].
    + cbn. split; [repeat split | eauto].
  - intros n. unfold setReady, setUnready. rewrite E. split; reflexivity.
  - intros a. apply oneDeath_names, perform_players.
  - intros random_index. rewrite countdownElapsed_run.
    destruct (_ && _)%bool; [apply dealtGame_names | reflexivity].
Qed.

Lemma controller_keeps_roster_after_start_witness :
  refused (joinGame "zoe" None (Some twoMafia)) (Some twoMafia)
  /\ map name (players (docOf (perform (PostMafiaVote "B" "Y") twoMafia)))
     = ["A"; "B"; "X"; "Y"; "Z"; "W"].
Proof.
  destruct (controller_keeps_roster_after_start twoMafia)
    as (Hj & _ & Ha & _);
    [discriminate|].
  split; [apply Hj | apply Ha].
Defined.

(* ------------------------------------------------------------------ *)
(** ** Where a request leaves the session *)

Lemma map_has_app (k v : string) (m : VoteMap) :
  map_has k (m ++ [(k, v)]) = true.
Proof.
  unfold map_has. rewrite existsb_app. cbn. rewrite String.eqb_refl.
  now rewrite orb_true_r.
Qed.

Lemma wrongPhase_false (ph : Phase) (g : Game) :
  wrongPhase ph g = false <-> state g = InProgress /\ currentPhase g = ph.
Proof.
  unfold wrongPhase. rewrite orb_false_iff, !negb_false_iff.
  destruct (state g), (currentPhase g), ph; cbn; intuition discriminate.
Qed.

Lemma wrongPhase_moved (ph : Phase) (g : Game) :
  currentPhase g <> ph -> wrongPhase ph g = true.
Proof.
  intros H. destruct (wrongPhase ph g) eqn:E; [reflexivity|].
  apply wrongPhase_false in E. destruct E as [_ E]. contradiction.
Qed.

Lemma perform_wrongPhase (a : Action) (g : Game) :
  wrongPhase (phaseOf a) g = true -> exists msg, perform a g = reject msg g.
Proof.
  intros H. destruct a as [v t | i t | d t | v t]; cbn [perform phaseOf] in *.
  - rewrite mafiaVote_run, H. eauto.
  - rewrite investigate_run, H. eauto.
  - rewrite doctorSaveAction_run, H. eauto.
  - rewrite dayVote_run, H. eauto.
Qed.

Lemma setPhase_state (p : Phase) (g : Game) :
  state (docOf (setPhase p g)) = state g.
Proof. apply setPhase_is_quiet. Qed.

Lemma setPhase_NightDoctor_lands (g : Game) :
  In (currentPhase (docOf (setPhase NightDoctor g))) [NightDoctor; Day].
Proof.
  destruct (existsb (aliveWithRole Doctor) (players g)) eqn:E.
  - rewrite (setPhase_NightDoctor_open g E). left. reflexivity.
  - rewrite (setPhase_NightDoctor_skip g E). right. left. symmetry.
    apply resolveNight_quiet.
Qed.

Lemma nextCycle_lands (g : Game) :
  state g = InProgress ->
  (state (docOf (nextCycle g)) = Finished
   /\ currentPhase (docOf (nextCycle g)) = PFinished)
  \/ (state (docOf (nextCycle g)) = InProgress
      /\ currentPhase (docOf (nextCycle g)) = NightMafia).
Proof.
  intros Hs. rewrite nextCycle_run.
  destruct (Nat.eqb _ 0); [left; split; reflexivity|].
  destruct (Nat.leb _ _); [left; split; reflexivity|].
  rewrite Hs. cbn [state_eqb]. rewrite setPhase_NightMafia. right.
  split; [exact Hs | reflexivity].
Qed.

Lemma traceOf_run {A} (fl : Flow A) (g : Game) (e : list Emit) :
  traceOf (fl, g, e) = e.
Proof. reflexivity. Qed.

Lemma docOf_run {A} (fl : Flow A) (g : Game) (e : list Emit) :
  docOf (fl, g, e) = g.
Proof. reflexivity. Qed.

Ltac is_rejected := left; eexists; reflexivity.

Lemma perform_outcome (a : Action) (g : Game) :
  let after := docOf (perform a g) in
  (exists msg, perform a g = reject msg g)
  \/ (validMapKey (actorOf a) = false
      /\ perform a g = (Exit Status500, g, []))
  \/ (wrongPhase (phaseOf a) g = false
      /\ accepted (perform a g)
      /\ (recordedOnly a g after
          \/ ((state after = InProgress \/ state after = Finished)
              /\ In (currentPhase after) (successors (phaseOf a))))).
Proof.
  cbv zeta. destruct a as [v t | i t | d t | v t]; cbn [perform phaseOf].
  - rewrite mafiaVote_run.
    destruct (wrongPhase NightMafia g) eqn:E1; [is_rejected|].
    destruct (existsb (eligibleMafiaVoter v) (players g)) eqn:E2;
      [|is_rejected].
    destruct (map_has v (mafiaVotes g)) eqn:E3; [is_rejected|].
    destruct (existsb (aliveNamed t) (players g)) eqn:E4; [|is_rejected].
    cbn [negb actorOf].
    destruct (validMapKey v) eqn:E5; [|right; left; split; reflexivity].
    right. right. split; [reflexivity|].
    rewrite mafiaVoteAccepted_run. cbv zeta. rewrite (map_set_new _ _ _ E3).
    apply wrongPhase_false in E1. destruct E1 as [Hs Hp].
    destruct (Nat.eqb _ _).
    + split; [intros msg; discriminate|]. right.
      rewrite !docOf_run. rewrite setPhase_state.
      split; [left; exact Hs|].
      match goal with |- context [setPhase NightDetective ?x] =>
        destruct (setPhase_NightDetective_lands x) as [E | [E | E]] end;
        rewrite E; cbn; auto.
    + split; [intros msg; discriminate|]. left. split; [reflexivity | exact E2].
  - rewrite investigate_run.
    destruct (wrongPhase NightDetective g) eqn:E1; [is_rejected|].
    destruct (find (eligibleDetective i) (players g)); [|is_rejected].
    destruct (detectiveResult g); [is_rejected|].
    destruct (find (aliveNamed t) (players g)); [|is_rejected].
    right. right. split; [reflexivity|].
    rewrite investigateAccepted_run. cbv zeta.
    apply wrongPhase_false in E1. destruct E1 as [Hs Hp].
    split; [intros msg; discriminate|]. right.
    rewrite !docOf_run. rewrite setPhase_state.
    split; [left; exact Hs|].
    match goal with |- context [setPhase NightDoctor ?x] =>
      destruct (setPhase_NightDoctor_lands x) as [E | [E | []]] end;
      rewrite <- E; cbn; auto.
  - rewrite doctorSaveAction_run.
    destruct (wrongPhase NightDoctor g) eqn:E1; [is_rejected|].
    destruct (existsb (eligibleDoctor d) (players g)); [|is_rejected].
    destruct (existsb (aliveNamed t) (players g)); [|is_rejected].
    cbn [negb]. right. right. split; [reflexivity|].
    rewrite doctorSaveAccepted_run. cbv zeta.
    apply wrongPhase_false in E1. destruct E1 as [Hs Hp].
    split; [intros msg; discriminate|]. right.
    rewrite !docOf_run.
    destruct (resolveNight_quiet (set_doctorSave (Some t) g))
      as ((_ & Hst & _) & Hph & _).
    rewrite Hst, Hph. split; [left; exact Hs | cbn; auto].
  - rewrite dayVote_run.
    destruct (wrongPhase Day g) eqn:E1; [is_rejected|].
    destruct (existsb (aliveNamed v) (players g)) eqn:E2; [|is_rejected].
    destruct (map_has v (votes g)) eqn:E3; [is_rejected|].
    destruct (existsb (aliveNamed t) (players g)) eqn:E4; [|is_rejected].
    cbn [negb actorOf].
    destruct (validMapKey v) eqn:E5; [|right; left; split; reflexivity].
    right. right. split; [reflexivity|].
    apply wrongPhase_false in E1. destruct E1 as [Hs Hp].
    unfold tryCatch. rewrite dayVoteAccepted_run. cbv zeta.
    rewrite (map_set_new _ _ _ E3). cbn [votes set_votes].
    destruct (Nat.eqb _ _).
    2:{ split; [intros msg; discriminate|]. left.
        split; [reflexivity | exact E2]. }
    rewrite dayResolve_run, applyElimination_run.
    cbn [players votes set_votes].
    set (recorded := set_votes (votes g ++ [(v, t)]) g).
    assert (Hland : forall ev x, state x = InProgress ->
              let r := prepend ev (nextCycle (set_votes [] x)) in
              exists g2 e2, r = (Next tt, g2, e2)
                /\ (state g2 = InProgress \/ state g2 = Finished)
                /\ In (currentPhase g2) (successors Day)).
    { intros ev x Hx. cbv zeta.
      pose proof (nextCycle_flow (set_votes [] x)) as Hf.
      pose proof (nextCycle_lands (set_votes [] x) Hx) as Hl.
      destruct (nextCycle (set_votes [] x)) as [[fl g2] e2].
      unfold flowOf, docOf in *. cbn [fst snd] in *. subst fl.
      exists g2, (ev ++ e2). split; [reflexivity|].
      destruct Hl as [[A B] | [A B]]; rewrite A, B; cbn; auto. }
    destruct (dayEliminated (players g) (votes g ++ [(v, t)])
                (length (filter isAlive (players g)))) as [e|];
      [destruct (truthy e); [destruct (existsb (named e) (players g))|]|].
    + destruct (Hland (eliminationEvents e recorded) (eliminate e recorded) Hs)
        as (g2 & e2 & -> & Hst & Hph).
      split; [intros msg; discriminate|]. right. split; assumption.
    + split; [intros msg; discriminate|]. left.
      split; [reflexivity | exact E2].
    + destruct (Hland [] recorded Hs) as (g2 & e2 & -> & Hst & Hph).
      split; [intros msg; discriminate|]. right. split; assumption.
    + destruct (Hland [] recorded Hs) as (g2 & e2 & -> & Hst & Hph).
      split; [intros msg; discriminate|]. right. split; assumption.
Qed.

Lemma successors_move (p : Phase) : ~ In p (successors p).
Proof. destruct p; cbn; intuition discriminate. Qed.

Lemma sameRoute_phaseOf (a b : Action) :
  sameRoute a b = true -> phaseOf b = phaseOf a.
Proof. destruct a, b; cbn; congruence. Qed.

(** X11.  A request that was answered with the document cannot be made
    again by the same player: the same route called again right away for the
    same actor, with any target, is answered with status 400 and changes
    nothing.  Either the first request moved the phase on, or the actor is
    now on the ledger ("You have already voted"). *)
Theorem served_request_cannot_be_repeated (a b : Action) (g : Game) :
  served (perform a g) -> sameRoute a b = true -> actorOf a = actorOf b ->
  let after := docOf (perform a g) in
  exists msg, perform b after = reject msg after.
Proof.
  intros [body Hserved] Hroute Hactor. cbv zeta.
  destruct (perform_outcome a g)
    as [[msg E] | [[_ E] | (Hph & _ & [Hrec | [_ Hmove]])]].
  - rewrite E in Hserved. discriminate.
  - rewrite E in Hserved. discriminate.
  - apply wrongPhase_false in Hph. destruct Hph as [Hs Hp].
    destruct a as [v t | i t | d t | v t], b as [v' t' | i' t' | d' t' | v' t'];
      try discriminate Hroute; cbn [recordedOnly] in Hrec; try contradiction;
      cbn [actorOf] in Hactor; subst v'; destruct Hrec as [-> Hv];
      cbn [perform phaseOf] in *.
    + rewrite mafiaVote_run.
      match goal with |- context [wrongPhase ?ph ?x] =>
        replace (wrongPhase ph x) with false
          by (symmetry; apply wrongPhase_false; split; assumption) end.
      cbn [players set_mafiaVotes mafiaVotes]. rewrite Hv, map_has_app.
      cbn [negb]. eauto.
    + rewrite dayVote_run.
      match goal with |- context [wrongPhase ?ph ?x] =>
        replace (wrongPhase ph x) with false
          by (symmetry; apply wrongPhase_false; split; assumption) end.
      cbn [players set_votes votes]. rewrite Hv, map_has_app.
      cbn [negb]. eauto.
  - apply perform_wrongPhase, wrongPhase_moved.
    rewrite (sameRoute_phaseOf a b Hroute). intros E. rewrite E in Hmove.
    now apply successors_move in Hmove.
Qed.

Lemma served_request_cannot_be_repeated_witness :
  exists msg,
    perform (PostDayVote "A" "C")
      (docOf (perform (PostDayVote "A" "B") undecided))
    = reject msg (docOf (perform (PostDayVote "A" "B") undecided)).
Proof.
  apply (served_request_cannot_be_repeated
           (PostDayVote "A" "B") (PostDayVote "A" "C") undecided).
  - exists (docOf (perform (PostDayVote "A" "B") undecided)). reflexivity.
  - reflexivity.
  - reflexivity.
Defined.

(** X12.  Within a request the phase only moves forward along the cycle
    mafia night, detective night, doctor night, day, mafia night: an action
    request leaves the phase where it was or moves it to a later phase of the
    same night, to the day, or from the day to the next mafia night or to the
    end of the game.  The state stays as it was or becomes finished, and an
    accepted [doctorSave] always ends in the day. *)
Theorem phases_only_move_forward (a : Action) (g : Game) :
  let after := docOf (perform a g) in
  (currentPhase after = currentPhase g
   \/ In (currentPhase after) (successors (currentPhase g)))
  /\ (state after = state g \/ state after = Finished)
  /\ (forall d t, a = PostSave d t -> accepted (perform a g) ->
      currentPhase after = Day)
  /\ (forall i t, a = PostInvestigate i t -> accepted (perform a g) ->
      currentPhase after = NightDoctor \/ currentPhase after = Day).
Proof.
  cbv zeta.
  destruct (perform_outcome a g) as [[msg E] | [[Hkey E] | (Hph & _ & Hout)]].
  - rewrite E. unfold reject. rewrite docOf_run.
    split; [now left|]. split; [now left|].
    split; intros ? ? _ Hacc; exfalso; apply (Hacc msg); reflexivity.
  - revert Hkey. rewrite E, docOf_run. intros Hkey.
    split; [now left|]. split; [now left|].
    split; intros ? ? -> _; cbn [perform actorOf] in *.
    + revert E. rewrite doctorSaveAction_run.
      destruct (wrongPhase _ _); [discriminate|].
      destruct (negb (existsb (eligibleDoctor _) _)); [discriminate|].
      destruct (negb (existsb (aliveNamed _) _)); [discriminate|].
      rewrite doctorSaveAccepted_run. discriminate.
    + revert E. rewrite investigate_run.
      destruct (wrongPhase _ _); [discriminate|].
      destruct (find (eligibleDetective _) _); [|discriminate].
      destruct (detectiveResult g); [discriminate|].
      destruct (find (aliveNamed _) _); [|discriminate].
      rewrite investigateAccepted_run. discriminate.
  - apply wrongPhase_false in Hph. destruct Hph as [Hs Hp].
    destruct Hout as [Hrec | [Hst Hmove]].
    + destruct a as [v t | i t | d t | v t]; cbn [recordedOnly] in Hrec;
        try contradiction; destruct Hrec as [-> _];
        (split; [now left|]); (split; [now left|]);
        split; intros ? ? [=].
    + rewrite Hp. split; [now right|]. rewrite Hs. split; [exact Hst|].
      split.
      * intros d t -> _. cbn in Hmove. cbn [perform].
        destruct Hmove as [E | []]. now rewrite <- E.
      * intros i t -> _. cbn in Hmove. cbn [perform].
        destruct Hmove as [E | [E | []]]; rewrite <- E; auto.
Qed.

Lemma eligibleMafiaVoter_on_roster (v : string) (ps : list Player) :
  existsb (eligibleMafiaVoter v) ps = true ->
  exists p, In p ps /\ name p = v.
Proof.
  intros H. apply existsb_exists in H. destruct H as (p & Hp & H).
  exists p. split; [exact Hp|]. unfold eligibleMafiaVoter in H.
  apply andb_true_iff in H. destruct H as [H _].
  apply andb_true_iff in H. destruct H as [_ H].
  now apply String.eqb_eq in H.
Qed.

Lemma aliveNamed_on_roster (v : string) (ps : list Player) :
  existsb (aliveNamed v) ps = true -> exists p, In p ps /\ name p = v.
Proof.
  intros H. apply existsb_exists in H. destruct H as (p & Hp & H).
  exists p. split; [exact Hp|]. unfold aliveNamed in H.
  apply andb_true_iff in H. destruct H as [H _].
  now apply String.eqb_eq in H.
Qed.

(** The answers of a request: status 400, the document, the status 500 of
    a day vote that finds no player to eliminate, or the status 500 of a
    vote whose voter is a player with a name that the ledger refuses. *)
Lemma perform_flow (a : Action) (g : Game) :
  (exists msg, flowOf (perform a g) = Exit (Status400 msg))
  \/ served (perform a g)
  \/ (exists v t, a = PostDayVote v t /\ validMapKey v = true
                  /\ flowOf (perform a g) = Exit Status500)
  \/ (validMapKey (actorOf a) = false
      /\ exists p, In p (players g) /\ name p = actorOf a).
Proof.
  unfold served.
  destruct a as [v t | i t | d t | v t]; cbn [perform actorOf].
  - rewrite mafiaVote_run.
    destruct (wrongPhase _ _); [left; eexists; reflexivity|].
    destruct (existsb (eligibleMafiaVoter v) _) eqn:E2;
      [|left; eexists; reflexivity].
    destruct (map_has v _); [left; eexists; reflexivity|].
    destruct (negb (existsb (aliveNamed t) _)); [left; eexists; reflexivity|].
    cbn [negb]. destruct (validMapKey v) eqn:E5.
    + right; left. rewrite mafiaVoteAccepted_run. cbv zeta.
      destruct (Nat.eqb _ _); eexists; reflexivity.
    + right; right; right. split; [reflexivity|].
      now apply eligibleMafiaVoter_on_roster.
  - rewrite investigate_run.
    destruct (wrongPhase _ _); [left; eexists; reflexivity|].
    destruct (find (eligibleDetective i) _); [|left; eexists; reflexivity].
    destruct (detectiveResult g); [left; eexists; reflexivity|].
    destruct (find (aliveNamed t) _); [|left; eexists; reflexivity].
    right; left. rewrite investigateAccepted_run. eexists; reflexivity.
  - rewrite doctorSaveAction_run.
    repeat match goal with
           | |- context [if ?c then _ else _] =>
               destruct c; [left; eexists; reflexivity|]
           end.
    right; left. rewrite doctorSaveAccepted_run. eexists; reflexivity.
  - rewrite dayVote_run.
    destruct (wrongPhase _ _); [left; eexists; reflexivity|].
    destruct (existsb (aliveNamed v) _) eqn:E2;
      [|left; eexists; reflexivity].
    destruct (map_has v _); [left; eexists; reflexivity|].
    destruct (negb (existsb (aliveNamed t) _)); [left; eexists; reflexivity|].
    cbn [negb]. destruct (validMapKey v) eqn:E5.
    2:{ right; right; right. split; [reflexivity|].
        now apply aliveNamed_on_roster. }
    unfold tryCatch. rewrite dayVoteAccepted_run. cbv zeta.
    destruct (Nat.eqb _ _); [|right; left; eexists; reflexivity].
    match goal with |- context [dayResolve ?n ?x] =>
      destruct (dayResolve_flow n x) as [Hf | ->];
      [destruct (dayResolve n x) as [[fl g2] e2];
       unfold flowOf in Hf; cbn [fst snd] in Hf; subst fl;
       right; left; eexists; reflexivity|] end.
    right; right; left. exists v, t. repeat split. exact E5.
Qed.

Lemma keyNames_by_names (ps ps' : list Player) :
  map name ps' = map name ps -> keyNames ps -> keyNames ps'.
Proof.
  intros Hn Hk p Hp. apply (in_map name) in Hp. rewrite Hn in Hp.
  apply in_map_iff in Hp. destruct Hp as (q & Hq & Hin).
  rewrite <- Hq. now apply Hk.
Qed.

(** X13.  On a well-formed session (names that are neither empty nor
    [__proto__], ledgers and mafia target over the roster) whose player
    names are keys that the ledgers accept, every action request is
    answered with status 400 or with the document, never with status 500,
    and leaves the session well formed with the same names, so the property
    holds along every sequence of action requests. *)
Theorem actions_keep_sessions_wellFormed (a : Action) (g : Game) :
  wellFormed g -> keyNames (players g) ->
  wellFormed (docOf (perform a g))
  /\ keyNames (players (docOf (perform a g)))
  /\ ((exists msg, flowOf (perform a g) = Exit (Status400 msg))
      \/ served (perform a g)).
Proof.
  intros Hwf Hkey.
  destruct (handlers_keep_sessions_wellFormed g Hwf) as (Hm & Hi & Hd & Hv).
  split; [|split].
  - destruct a as [v t | i t | d t | v t]; cbn [perform];
      [apply Hm | apply Hi | apply Hd | apply Hv].
  - apply (keyNames_by_names (players g)); [|exact Hkey].
    apply oneDeath_names, perform_players.
  - destruct (perform_flow a g)
      as [H | [H | [(v & t & -> & Hk & H) | (Hk & p & Hp & Hn)]]]; auto.
    + exfalso. now apply (proj2 (Hv v t) Hk).
    + exfalso. rewrite <- Hn, (Hkey p Hp) in Hk. discriminate.
Qed.

Lemma tiedDay_wellFormed : wellFormed tiedDay.
Proof.
  split; [|split; [|split]].
  - intros p Hp. cbn in Hp.
    repeat (destruct Hp as [<- | Hp]; [split; discriminate|]). destruct Hp.
  - intros t Ht. cbn in Ht.
    repeat (destruct Ht as [<- | Ht]; [split; [discriminate | reflexivity]|]).
    destruct Ht.
  - apply targetsOnRoster_nil.
  - discriminate.
Qed.

Lemma tiedDay_keyNames : keyNames (players tiedDay).
Proof.
  intros p Hp. cbn in Hp.
  repeat (destruct Hp as [<- | Hp]; [reflexivity|]). destruct Hp.
Qed.

Lemma actions_keep_sessions_wellFormed_witness :
  wellFormed (docOf (perform (PostDayVote "P6" "U") tiedDay))
  /\ served (perform (PostDayVote "P6" "U") tiedDay).
Proof.
  destruct (actions_keep_sessions_wellFormed (PostDayVote "P6" "U") tiedDay
              tiedDay_wellFormed tiedDay_keyNames)
    as (Hw & _ & [[msg H] | H]).
  - vm_compute in H. discriminate.
  - split; assumption.
Defined.

Lemma phases_only_move_forward_witness :
  currentPhase (docOf (perform (PostSave "C" "B") nightWithTarget)) = Day.
Proof.
  destruct (phases_only_move_forward (PostSave "C" "B") nightWithTarget)
    as (_ & _ & Hsave & _).
  apply (Hsave "C" "B"); [reflexivity|].
  intros msg. vm_compute. discriminate.
Defined.

(* ------------------------------------------------------------------ *)
(** ** Who learns what during the night *)

Lemma filter_cast (v t : string) (ps : list Player) :
  filter isMafiaVoteCast
    (map (fun p => (ToSocket (socketId p), mafiaVoteCast v t)) ps)
  = map (fun p => (ToSocket (socketId p), mafiaVoteCast v t)) ps.
Proof. induction ps as [|p ps IH]; cbn; [reflexivity | now rewrite IH]. Qed.

Lemma filter_cast_controller (l : list Emit) :
  forallb controllerEvent l = true -> filter isMafiaVoteCast l = [].
Proof.
  induction l as [|[a p] l IH]; cbn; [reflexivity|].
  intros H. apply andb_true_iff in H. destruct H as [H1 H2].
  rewrite (IH H2). destruct a, p; try discriminate H1; reflexivity.
Qed.

Lemma mafiaVote_served_run (v t : string) (g : Game) :
  served (mafiaVote v t g) ->
  map_has v (mafiaVotes g) = false
  /\ mafiaVote v t g = mafiaVoteAccepted v t g.
Proof.
  intros [body Hs]. rewrite mafiaVote_run in *.
  destruct (wrongPhase NightMafia g); [discriminate|].
  destruct (negb (existsb (eligibleMafiaVoter v) (players g)));
    [discriminate|].
  destruct (map_has v (mafiaVotes g)); [discriminate|].
  destruct (negb (existsb (aliveNamed t) (players g))); [discriminate|].
  destruct (validMapKey v); [|discriminate].
  split; reflexivity.
Qed.

(** X14.  A mafia vote that is answered with the document is announced to
    the living Mafia and Godfather players only: the notifications begin
    with one [mafiaVoteCast] for each of them, addressed to their own
    socket, and no other [mafiaVoteCast] is sent.  What follows are the
    room-wide notifications of the phase controller, and there are none
    while the ledger is incomplete. *)
Theorem mafiaVote_cast_goes_to_the_mafia (v t : string) (g : Game) :
  served (mafiaVote v t g) ->
  let cast := map (fun p => (ToSocket (socketId p), mafiaVoteCast v t))
                (filter aliveMafiaP (players g)) in
  exists rest,
    traceOf (mafiaVote v t g) = cast ++ rest
    /\ forallb controllerEvent rest = true
    /\ filter isMafiaVoteCast (traceOf (mafiaVote v t g)) = cast
    /\ (length (mafiaVotes g) + 1 <> length (filter aliveMafiaP (players g)) ->
        rest = []).
Proof.
  intros Hacc. cbv zeta.
  destruct (mafiaVote_served_run v t g Hacc) as [E3 ->].
  rewrite mafiaVoteAccepted_run. cbv zeta. rewrite (map_set_new _ _ _ E3).
  cbn [mafiaVotes set_mafiaVotes]. rewrite length_app. cbn [length].
  destruct (Nat.eqb_spec (length (mafiaVotes g) + 1)
              (length (filter aliveMafiaP (players g)))) as [Hlen | Hlen].
  - match goal with |- context [setPhase ?p ?x] =>
      pose proof (setPhase_is_quiet p x) as (_ & _ & _ & Hq);
      exists (traceOf (setPhase p x)) end.
    rewrite !traceOf_run.
    split; [reflexivity|]. split; [exact Hq|].
    split; [|intros H; contradiction].
    rewrite filter_app, filter_cast.
    pose proof (filter_cast_controller _ Hq) as Hn. unfold Emit in *.
    rewrite Hn. apply app_nil_r.
  - exists []. rewrite !traceOf_run. rewrite app_nil_r.
    split; [reflexivity|]. split; [reflexivity|].
    split; [apply filter_cast | reflexivity].
Qed.

Lemma mafiaVote_cast_goes_to_the_mafia_witness :
  filter isMafiaVoteCast (traceOf (mafiaVote "B" "Y" twoMafia))
  = [(ToSocket (Some "sock-A"), mafiaVoteCast "B" "Y");
     (ToSocket (Some "sock-B"), mafiaVoteCast "B" "Y")].
Proof.
  destruct (mafiaVote_cast_goes_to_the_mafia "B" "Y" twoMafia)
    as (rest & _ & _ & H & _).
  - exists (docOf (mafiaVote "B" "Y" twoMafia)). reflexivity.
  - exact H.
Defined.

Lemma investigate_accepted_run (i t : string) (g : Game) :
  accepted (investigate i t g) ->
  exists inv tgt,
    find (eligibleDetective i) (players g) = Some inv
    /\ find (aliveNamed t) (players g) = Some tgt
    /\ investigate i t g = investigateAccepted inv tgt t g.
Proof.
  intros Hacc. rewrite investigate_run in *.
  destruct (wrongPhase NightDetective g);
    [exfalso; eapply Hacc; reflexivity|].
  destruct (find (eligibleDetective i) (players g)) as [inv|];
    [|exfalso; eapply Hacc; reflexivity].
  destruct (detectiveResult g); [exfalso; eapply Hacc; reflexivity|].
  destruct (find (aliveNamed t) (players g)) as [tgt|];
    [|exfalso; eapply Hacc; reflexivity].
  exists inv, tgt. repeat split.
Qed.

(** X15.  The snapshots that the phase controller sends to the whole room
    carry the night's secrets.  When a mafia vote that is answered with the
    document completes the ledger and a Detective is alive, the room
    receives a [gameUpdated] whose snapshot holds the complete mafia ledger
    and the chosen target; when an investigation is accepted and a Doctor is
    alive, the room receives a [gameUpdated] whose snapshot holds the
    detective's result. *)
Theorem night_secrets_are_broadcast (g : Game) :
  (forall v t,
     served (mafiaVote v t g) ->
     length (mafiaVotes g) + 1 = length (filter aliveMafiaP (players g)) ->
     someAlive Detective g ->
     let ledger := mafiaVotes g ++ [(v, t)] in
     let target := resolveMafiaTarget (players g) ledger in
     In (ToRoom (gameId g),
         gameUpdated
           (set_currentPhase NightDetective
              (set_mafiaTarget target (set_mafiaVotes ledger g))))
       (traceOf (mafiaVote v t g)))
  /\ (forall i t tgt,
        accepted (investigate i t g) ->
        find (aliveNamed t) (players g) = Some tgt ->
        someAlive Doctor g ->
        In (ToRoom (gameId g),
            gameUpdated
              (set_currentPhase NightDoctor
                 (set_detectiveResult
                    (Some (investigationSignal (role tgt))) g)))
          (traceOf (investigate i t g))).
Proof.
  split.
  - intros v t Hacc Hlen Hdet. cbv zeta.
    destruct (mafiaVote_served_run v t g Hacc) as [E3 ->].
    rewrite mafiaVoteAccepted_run. cbv zeta. rewrite (map_set_new _ _ _ E3).
    cbn [mafiaVotes set_mafiaVotes]. rewrite length_app. cbn [length].
    apply Nat.eqb_eq in Hlen. rewrite Hlen.
    rewrite setPhase_NightDetective_open by exact Hdet.
    rewrite !traceOf_run. apply in_or_app. right. left. reflexivity.
  - intros i t tgt Hacc Ht Hdoc.
    destruct (investigate_accepted_run i t g Hacc)
      as (inv & tgt' & _ & Ht' & ->).
    rewrite Ht in Ht'. inversion Ht'; subst tgt'.
    rewrite investigateAccepted_run. cbv zeta.
    rewrite setPhase_NightDoctor_open by exact Hdoc.
    rewrite !traceOf_run. right. left. reflexivity.
Qed.

Lemma night_secrets_are_broadcast_witness :
  In (ToRoom "g1",
      gameUpdated
        (set_currentPhase NightDetective
           (set_mafiaTarget (Some "Y")
              (set_mafiaVotes [("A", "X"); ("B", "Y")] twoMafia))))
    (traceOf (mafiaVote "B" "Y" twoMafia)).
Proof.
  apply (proj1 (night_secrets_are_broadcast twoMafia) "B" "Y").
  - exists (docOf (mafiaVote "B" "Y" twoMafia)). reflexivity.
  - reflexivity.
  - reflexivity.
Defined.

(* ------------------------------------------------------------------ *)
(** ** The recursion of the phase controller *)

(** X16.  The recursion of [setPhase] ends: for every phase and session
    the function calls itself at most twice (detective night, doctor night,
    day), so unrolling its body three times or more always gives the same
    run, which satisfies the recursive equation of the source.  Two
    unrollings are not enough when the Detective and the Doctor are both
    dead. *)
Theorem setPhase_recursion_ends (d : nat) (p : Phase) (g : Game) :
  setPhaseN (3 + d) p g = setPhase p g
  /\ setPhase p g = setPhaseBody setPhase p g
  /\ setPhaseN 2 NightDetective noDetectiveNoDoctor
     <> setPhase NightDetective noDetectiveNoDoctor.
Proof.
  split; [|split].
  - unfold setPhase.
    change (setPhaseBody (setPhaseN (S (S d))) p g
            = setPhaseBody (setPhaseN 2) p g).
    apply setPhaseBody_ext.
    + intros g1. now rewrite (setPhaseN_Day (S d)), (setPhaseN_Day 1).
    + intros _ g1. apply setPhaseN_NightDoctor.
  - apply setPhase_fixpoint.
  - intros H.
    apply (f_equal (fun r => currentPhase (docOf r))) in H.
    vm_compute in H. discriminate H.
Qed.

(* ------------------------------------------------------------------ *)
(** ** The chat and the rooms of [server.js] *)

(** X17.  A chat message reaches only the audience of the phase.  Signed
    by a name that is not on the roster or whose player is dead it is
    answered with an error to the sender alone.  From a living player it goes,
    in the mafia night, to the sockets of the living Mafia and Godfather
    players if the sender is one of them and to nobody otherwise; by day to
    the room; in every other phase to nobody.  In no case is a [mafiaChat]
    addressed to anything but the socket of a living Mafia or Godfather
    player. *)
Theorem chat_reaches_only_its_audience (roomId who message : string)
  (g : Game) :
  let sent := onChatMessage roomId who message (Some g) in
  ((forall p, find (named who) (players g) = Some p -> isAlive p = false) ->
   sent = [(Requester, errorEvent "Dead players cannot chat")])
  /\ (forall p,
        find (named who) (players g) = Some p -> isAlive p = true ->
        (currentPhase g = NightMafia -> isMafiaRole (role p) = true ->
         sent = map (fun q => (Via (ToSocket (socketId q)),
                               mafiaChat who message))
                  (filter aliveMafiaP (players g)))
        /\ (currentPhase g = NightMafia -> isMafiaRole (role p) = false ->
            sent = [])
        /\ (currentPhase g = Day ->
            sent = [(Via (ToRoom roomId), chatMessage who message)])
        /\ (currentPhase g <> NightMafia -> currentPhase g <> Day ->
            sent = []))
  /\ (forall to w m,
        In (to, mafiaChat w m) sent ->
        w = who /\ m = message
        /\ exists q, In q (players g) /\ aliveMafiaP q = true
                     /\ to = Via (ToSocket (socketId q)))
  /\ onChatMessage roomId who message None
     = [(Requester, errorEvent "Game not found")].
Proof.
  cbv zeta. unfold onChatMessage.
  split; [|split; [|split; [|reflexivity]]].
  - intros Hdead. destruct (find (named who) (players g)) as [p|];
      [|reflexivity].
    now rewrite (Hdead p eq_refl).
  - intros p -> Hal. rewrite Hal. cbn [negb]. repeat split.
    + intros -> ->. reflexivity.
    + intros -> ->. reflexivity.
    + intros ->. reflexivity.
    + intros H1 H2. destruct (currentPhase g); try reflexivity; congruence.
  - intros to w m Hin.
    destruct (find (named who) (players g)) as [p|];
      [|destruct Hin as [[=] | []]].
    destruct (negb (isAlive p)); [destruct Hin as [[=] | []]|].
    destruct (phase_eqb (currentPhase g) NightMafia).
    + destruct (isMafiaRole (role p)); [|destruct Hin].
      apply in_map_iff in Hin. destruct Hin as (q & [= <- <- <-] & Hq).
      apply filter_In in Hq. destruct Hq as [Hq1 Hq2].
      split; [reflexivity|]. split; [reflexivity|]. exists q. auto.
    + destruct (phase_eqb (currentPhase g) Day);
        [destruct Hin as [[=] | []] | destruct Hin].
Qed.

Lemma chat_reaches_only_its_audience_witness :
  onChatMessage "g1" "A" "hi" (Some chatNight)
  = [(Via (ToSocket (Some "s1")), mafiaChat "A" "hi");
     (Via (ToSocket (Some "s2")), mafiaChat "A" "hi")]
  /\ onChatMessage "g1" "D" "hi" (Some chatNight) = []
  /\ onChatMessage "g1" "C" "hi" (Some chatNight)
     = [(Requester, errorEvent "Dead players cannot chat")].
Proof.
  split; [|split].
  - destruct (chat_reaches_only_its_audience "g1" "A" "hi" chatNight)
      as (_ & H & _).
    destruct (H (mkPlayer "A" Mafia true true (Some "s1")) eq_refl eq_refl)
      as (Hm & _).
    apply Hm; reflexivity.
  - destruct (chat_reaches_only_its_audience "g1" "D" "hi" chatNight)
      as (_ & H & _).
    destruct (H (mkPlayer "D" Villager true true None) eq_refl eq_refl)
      as (_ & Hn & _).
    apply Hn; reflexivity.
  - apply (proj1 (chat_reaches_only_its_audience "g1" "C" "hi" chatNight)).
    intros p [= <-]. reflexivity.
Defined.

Lemma sameButSocket_refl (ps : list Player) : Forall2 sameButSocket ps ps.
Proof. induction ps; constructor; [repeat split | assumption]. Qed.

Lemma keepsOrTakes_refl (sid : string) (ps : list Player) :
  Forall2 (keepsOrTakes sid) ps ps.
Proof. induction ps; constructor; [now left | assumption]. Qed.

Lemma find_first (pred : Player -> bool) (upd : Player -> Player)
  (before after : list Player) (p : Player) :
  (forall q, In q before -> pred q = false) -> pred p = true ->
  find pred (before ++ p :: after) = Some p
  /\ mutate_found pred upd (before ++ p :: after) = before ++ upd p :: after.
Proof.
  induction before as [|q before IH]; intros Hb Hp; cbn.
  - now rewrite Hp.
  - rewrite (Hb q (or_introl eq_refl)).
    destruct IH as [-> ->]; [intros x Hx; apply Hb; now right | exact Hp|].
    split; reflexivity.
Qed.

Lemma mutate_found_socket (sid : string) (ps : list Player) :
  (forall p, find (freeOrBoundTo sid) ps = Some p -> noSocket p = true) ->
  Forall2 sameButSocket ps
    (mutate_found (freeOrBoundTo sid) (set_socketId (Some sid)) ps)
  /\ Forall2 (keepsOrTakes sid) ps
       (mutate_found (freeOrBoundTo sid) (set_socketId (Some sid)) ps).
Proof.
  induction ps as [|p ps IH]; cbn; [split; constructor|].
  destruct (freeOrBoundTo sid p) eqn:E; intros H.
  - split; constructor;
      try apply sameButSocket_refl; try apply keepsOrTakes_refl.
    + repeat split.
    + right. split; [now apply H | reflexivity].
  - destruct (IH H) as [H1 H2].
    split; constructor; auto; [repeat split | now left].
Qed.

(** X18.  [joinRoom] gives the connecting socket to the first seat, in join
    order, that has no socket, unless a seat already bound to this socket
    comes earlier; it asks for no player name.  No seat that has a socket
    loses it, at most one socket field changes, every other field of every
    player stays, and the room is sent the resulting document.  With no seat
    free the document is unchanged. *)
Theorem joinRoom_binds_first_free_seat (sid roomId : string) (g : Game) :
  exists g',
    onJoinRoom sid roomId (Some g)
    = (Some g', [(Via (ToRoom roomId), sessionEvent (gameUpdated g'))])
    /\ g' = set_players (players g') g
    /\ Forall2 sameButSocket (players g) (players g')
    /\ Forall2 (keepsOrTakes sid) (players g) (players g')
    /\ (forall before p after,
          players g = before ++ p :: after ->
          (forall q, In q before -> freeOrBoundTo sid q = false) ->
          freeOrBoundTo sid p = true ->
          players g'
          = before
            ++ (if noSocket p then set_socketId (Some sid) p else p) :: after)
    /\ ((forall q, In q (players g) -> freeOrBoundTo sid q = false) ->
        g' = g).
Proof.
  unfold onJoinRoom.
  destruct (find (freeOrBoundTo sid) (players g)) as [p0|] eqn:Ef.
  - destruct (noSocket p0) eqn:En.
    + eexists. split; [reflexivity|]. cbn [players set_players].
      split; [reflexivity|].
      assert (Hn : forall p, find (freeOrBoundTo sid) (players g) = Some p ->
                             noSocket p = true)
        by (intros p Hp; rewrite Ef in Hp; now inversion Hp; subst).
      destruct (mutate_found_socket sid (players g) Hn) as [H1 H2].
      split; [exact H1|]. split; [exact H2|]. split.
      * intros before p after E Hb Hp.
        destruct (find_first _ (set_socketId (Some sid)) before after p Hb Hp)
          as [Hf Hm].
        rewrite E in Ef. rewrite Hf in Ef. inversion Ef; subst p0.
        rewrite En, E. exact Hm.
      * intros Hnone. apply find_some in Ef. destruct Ef as [Hin Hp].
        rewrite (Hnone p0 Hin) in Hp. discriminate.
    + exists g. split; [reflexivity|].
      split; [symmetry; apply set_players_same|].
      split; [apply sameButSocket_refl|]. split; [apply keepsOrTakes_refl|].
      split; [|reflexivity].
      intros before p after E Hb Hp.
      destruct (find_first _ (set_socketId (Some sid)) before after p Hb Hp)
        as [Hf _].
      rewrite E in Ef. rewrite Hf in Ef. inversion Ef; subst p0.
      now rewrite En.
  - exists g. split; [reflexivity|].
    split; [symmetry; apply set_players_same|].
    split; [apply sameButSocket_refl|]. split; [apply keepsOrTakes_refl|].
    split; [|reflexivity].
    intros before p after E Hb Hp.
    destruct (find_first _ (set_socketId (Some sid)) before after p Hb Hp)
      as [Hf _].
    rewrite E, Hf in Ef. discriminate.
Qed.

Lemma joinRoom_binds_first_free_seat_witness :
  exists g',
    fst (onJoinRoom "s9" "g1" (Some chatNight)) = Some g'
    /\ map socketId (players g')
       = [Some "s1"; Some "s2"; Some "s3"; Some "s9"; Some "s5"].
Proof.
  destruct (joinRoom_binds_first_free_seat "s9" "g1" chatNight)
    as (g' & E & _ & _ & _ & Hseat & _).
  exists g'. rewrite E. split; [reflexivity|].
  rewrite (Hseat [mkPlayer "A" Mafia true true (Some "s1");
                  mkPlayer "B" Godfather true true (Some "s2");
                  mkPlayer "C" Mafia false true (Some "s3")]
             (mkPlayer "D" Villager true true None)
             [mkPlayer "E" Doctor true true (Some "s5")]).
  - reflexivity.
  - reflexivity.
  - cbn. intros q [<- | [<- | [<- | []]]]; reflexivity.
  - reflexivity.
Defined.

(* ------------------------------------------------------------------ *)
(** ** The notifications of [startGame] *)

Lemma filter_map_all {A} (f : Emit -> bool) (h : A -> Emit) (l : list A) :
  (forall x, f (h x) = true) -> filter f (map h l) = map h l.
Proof.
  intros H. induction l as [|x l IH]; cbn; [reflexivity|].
  now rewrite H, IH.
Qed.

Lemma filter_map_none {A} (f : Emit -> bool) (h : A -> Emit) (l : list A) :
  (forall x, f (h x) = false) -> filter f (map h l) = [].
Proof.
  intros H. induction l as [|x l IH]; cbn; [reflexivity|].
  now rewrite H, IH.
Qed.

(** X19.  When [startGame] deals the roles (two players or more), every
    player is sent exactly one [privateRole], on their own socket and with
    their own role, and the list of the names of all Mafia and Godfather
    players is sent to the sockets of exactly those players; but the
    [gameStarted] and [gameUpdated] snapshots that go to the whole room hold
    the dealt document, in which the role of every player can be read. *)
Theorem startGame_notices (random_index : nat -> nat) (g : Game) :
  2 <= length (players g) ->
  let started := docOf (startGame random_index g) in
  let sent := traceOf (startGame random_index g) in
  filter isPrivateRole sent
  = map (fun p => (ToSocket (socketId p), privateRole (role p)))
      (players started)
  /\ filter isMafiaGang sent
     = map (fun p => (ToSocket (socketId p),
                      mafiaGang (mafiaGangOf (players started))))
         (filter (fun p => isMafiaRole (role p)) (players started))
  /\ In (ToRoom (gameId g), gameStarted started) sent
  /\ In (ToRoom (gameId g), gameUpdated started) sent
  /\ map role (players started)
     = shuffleArray random_index (roleDeck (length (players g)))
  /\ map socketId (players started) = map socketId (players g).
Proof.
  intros H2. cbv zeta. rewrite startGame_returns by exact H2.
  rewrite docOf_run, traceOf_run. unfold startNotices.
  set (started := dealtGame random_index g).
  rewrite !filter_app.
  rewrite (filter_map_all isPrivateRole), (filter_map_none isPrivateRole),
    (filter_map_none isMafiaGang), (filter_map_all isMafiaGang)
    by reflexivity.
  cbn [filter isPrivateRole isMafiaGang snd]. rewrite !app_nil_r.
  split; [reflexivity|]. split; [reflexivity|].
  assert (Hid : gameId started = gameId g) by reflexivity. rewrite Hid.
  split; [apply in_or_app; right; apply in_or_app; right; now left|].
  split; [apply in_or_app; right; apply in_or_app; right; right; now left|].
  split; [apply dealtGame_roles; exact H2|].
  unfold started, dealtGame. cbn [players set_players].
  apply assignRoles_keeps.
Qed.

Lemma startGame_notices_witness :
  let g := lobby ["a"; "b"; "c"; "d"; "e"; "f"] in
  In (ToRoom "g1", gameStarted (docOf (startGame (fun i => i / 2) g)))
    (traceOf (startGame (fun i => i / 2) g))
  /\ map role (players (docOf (startGame (fun i => i / 2) g)))
     = shuffleArray (fun i => i / 2) (roleDeck 6).
Proof.
  cbv zeta.
  destruct (startGame_notices (fun i => i / 2)
              (lobby ["a"; "b"; "c"; "d"; "e"; "f"]))
    as (_ & _ & Hs & _ & Hr & _).
  - vm_compute. lia.
  - split; [exact Hs | exact Hr].
Defined.

(* ------------------------------------------------------------------ *)
(** ** Resolving the night twice *)

(** X20.  Night resolution consumes the night exactly once.  Run again on
    the document it has produced, [resolveNight] finds no target: nobody else
    dies, the document comes out unchanged, and only the notifications are
    repeated (a night without deaths, the entry into the day with no victim,
    the snapshot, the audio signal). *)
Theorem resolveNight_twice (g : Game) :
  let once := docOf (resolveNight g) in
  docOf (resolveNight once) = once
  /\ players (docOf (resolveNight once)) = players once
  /\ traceOf (resolveNight once)
     = [(ToRoom (gameId once), nightResult "Night ends with no deaths");
        (ToRoom (gameId once), phaseChangedKilled Day None);
        (ToRoom (gameId once), gameUpdated once);
        (ToRoom (gameId once), audioStarted)].
Proof.
  cbv zeta.
  assert (E : resolveNight (docOf (resolveNight g))
              = (Next tt, docOf (resolveNight g),
                 [(ToRoom (gameId (docOf (resolveNight g))),
                   nightResult "Night ends with no deaths");
                  (ToRoom (gameId (docOf (resolveNight g))),
                   phaseChangedKilled Day None);
                  (ToRoom (gameId (docOf (resolveNight g))),
                   gameUpdated (docOf (resolveNight g)));
                  (ToRoom (gameId (docOf (resolveNight g))), audioStarted)])).
  { rewrite (resolveNight_run g), (nightBody_run g). rewrite !docOf_run.
    set (x := docOf (nightKill g)).
    rewrite resolveNight_run, nightBody_run. cbv zeta.
    rewrite nightKill_spares by (left; reflexivity).
    rewrite !docOf_run, !traceOf_run. reflexivity. }
  rewrite E. repeat split.
Qed.

(* ------------------------------------------------------------------ *)
(** ** Losing and finding the connection *)

Lemma boundTo_socket (sid : string) (p : Player) :
  boundTo sid p = true <-> socketId p = Some sid.
Proof.
  unfold boundTo. destruct (socketId p) as [s|]; [|split; discriminate].
  rewrite String.eqb_eq. split; congruence.
Qed.

Lemma keepsOrDrops_refl (sid : string) (ps : list Player) :
  Forall2 (keepsOrDrops sid) ps ps.
Proof. induction ps; constructor; [now left | assumption]. Qed.

Lemma mutate_found_unbind (sid : string) (ps : list Player) :
  Forall2 sameButSocket ps
    (mutate_found (boundTo sid) (set_socketId None) ps)
  /\ Forall2 (keepsOrDrops sid) ps
       (mutate_found (boundTo sid) (set_socketId None) ps).
Proof.
  induction ps as [|p ps [IH1 IH2]]; cbn; [split; constructor|].
  destruct (boundTo sid p) eqn:E.
  - split; constructor;
      try apply sameButSocket_refl; try apply keepsOrDrops_refl.
    + repeat split.
    + right. split; [now apply boundTo_socket | reflexivity].
  - split; constructor; auto; [repeat split | now left].
Qed.

(** X21.  A lost connection never removes, kills or renames a player of a
    game that has started.  In the waiting room [disconnect] takes every
    player bound to the socket off the roster and keeps the others in order;
    in a game in progress it only clears the socket of the first player bound
    to it; a finished game is left alone.  When that player was seated after
    players who all have sockets of their own, a later [joinRoom] from a
    socket [sid'] gives them [sid'], and the document is otherwise what it
    was before the connection was lost. *)
Theorem disconnect_keeps_the_seat (sid : string) (g : Game) :
  exists g',
    onDisconnect sid (Some g) = Some g'
    /\ g' = set_players (players g') g
    /\ (state g = Waiting ->
        players g' = filter (fun p => negb (boundTo sid p)) (players g))
    /\ (state g <> Waiting ->
        Forall2 sameButSocket (players g) (players g')
        /\ Forall2 (keepsOrDrops sid) (players g) (players g'))
    /\ (state g = Finished -> g' = g)
    /\ (forall sid' roomId before p after,
          state g = InProgress ->
          players g = before ++ p :: after -> socketId p = Some sid ->
          (forall q, In q before ->
                     exists s, socketId q = Some s /\ s <> sid /\ s <> sid') ->
          fst (onJoinRoom sid' roomId (Some g'))
          = Some (set_players
                    (before ++ set_socketId (Some sid') p :: after) g)).
Proof.
  unfold onDisconnect. eexists. split; [reflexivity|].
  destruct (state g) eqn:Es.
  - cbn [players set_players]. split; [reflexivity|].
    split; [reflexivity|]. split; [intros H; now contradiction H|].
    split; [discriminate|]. intros ? ? ? ? ? [=].
  - cbn [players set_players]. split; [reflexivity|].
    split; [discriminate|].
    split; [intros _; apply mutate_found_unbind|].
    split; [discriminate|].
    intros sid' roomId before p after _ E Hp Hb.
    assert (Hb1 : forall q, In q before -> boundTo sid q = false).
    { intros q Hq. destruct (Hb q Hq) as (s & Hs & Hne & _).
      unfold boundTo. rewrite Hs. now apply String.eqb_neq. }
    assert (Hb2 : forall q, In q before -> freeOrBoundTo sid' q = false).
    { intros q Hq. destruct (Hb q Hq) as (s & Hs & _ & Hne).
      unfold freeOrBoundTo. rewrite Hs. now apply String.eqb_neq. }
    destruct (find_first (boundTo sid) (set_socketId None) before after p Hb1
                (proj2 (boundTo_socket sid p) Hp)) as [_ Hm].
    rewrite E, Hm. unfold onJoinRoom. cbn [players set_players fst].
    destruct (find_first (freeOrBoundTo sid') (set_socketId (Some sid'))
                before after (set_socketId None p) Hb2 eq_refl) as [Hf Hm'].
    rewrite Hf. cbn [noSocket socketId set_socketId]. rewrite Hm'.
    f_equal.
  - split; [symmetry; apply set_players_same|].
    split; [discriminate|].
    split; [intros _; split;
            [apply sameButSocket_refl | apply keepsOrDrops_refl]|].
    split; [reflexivity|]. intros ? ? ? ? ? [=].
Qed.

Lemma disconnect_keeps_the_seat_witness :
  exists g',
    onDisconnect "s2" (Some chatNight) = Some g'
    /\ map socketId (players g')
       = [Some "s1"; None; Some "s3"; None; Some "s5"]
    /\ map socketId (playersOf (fst (onJoinRoom "s7" "g1" (Some g'))))
       = [Some "s1"; Some "s7"; Some "s3"; None; Some "s5"].
Proof.
  destruct (disconnect_keeps_the_seat "s2" chatNight)
    as (g' & E & _ & _ & _ & _ & Hback).
  exists g'. split; [exact E|].
  split; [injection E as <-; reflexivity|].
  rewrite (Hback "s7" "g1" [mkPlayer "A" Mafia true true (Some "s1")]
             (mkPlayer "B" Godfather true true (Some "s2"))
             [mkPlayer "C" Mafia false true (Some "s3");
              mkPlayer "D" Villager true true None;
              mkPlayer "E" Doctor true true (Some "s5")]).
  - reflexivity.
  - reflexivity.
  - reflexivity.
  - reflexivity.
  - intros q [<- | []]. exists "s1". repeat split; discriminate.
Defined.

(* ------------------------------------------------------------------ *)
(** ** Every arrangement of the deck can be dealt *)

Section Reach.

Context {A : Type}.

Lemma list_set_app (i : nat) (x : A) (l t : list A) :
  i < length l -> list_set i x (l ++ t) = list_set i x l ++ t.
Proof.
  revert i. induction l as [|y l IH]; intros i Hi; cbn in Hi; [lia|].
  destruct i as [|i]; cbn; [reflexivity|]. rewrite IH by lia. reflexivity.
Qed.

Lemma nth_error_list_set (i k : nat) (x : A) (l : list A) :
  i < length l ->
  nth_error (list_set i x l) k = if Nat.eqb k i then Some x else nth_error l k.
Proof.
  revert i k. induction l as [|y l IH]; intros i k Hi; cbn in Hi; [lia|].
  destruct i as [|i], k as [|k]; cbn; try reflexivity.
  apply IH. lia.
Qed.

Lemma swap_length (i j : nat) (a : list A) : length (swap i j a) = length a.
Proof. apply Permutation_length, swap_Permutation. Qed.

Lemma swap_app (i j : nat) (m t : list A) :
  i < length m -> j < length m -> swap i j (m ++ t) = swap i j m ++ t.
Proof.
  intros Hi Hj. unfold swap. rewrite !nth_error_app1 by assumption.
  destruct (nth_error m j) as [aj|]; [|reflexivity].
  destruct (nth_error m i) as [ai|]; [|reflexivity].
  rewrite (list_set_app i) by assumption.
  rewrite (list_set_app j) by (rewrite list_set_length; assumption).
  reflexivity.
Qed.

Lemma swap_puts_last (j : nat) (x : A) (a : list A) :
  nth_error a j = Some x ->
  exists m, swap (length a - 1) j a = m ++ [x].
Proof.
  intros Hj.
  assert (Hlt : j < length a) by (apply nth_error_Some; congruence).
  assert (Hlast : nth_error (swap (length a - 1) j a) (length a - 1) = Some x).
  { unfold swap. rewrite Hj.
    destruct (nth_error a (length a - 1)) as [ai|] eqn:Ei.
    2:{ apply nth_error_None in Ei. lia. }
    rewrite nth_error_list_set by (rewrite list_set_length; lia).
    destruct (Nat.eqb_spec (length a - 1) j) as [E | E].
    - rewrite E in Ei. congruence.
    - rewrite nth_error_list_set by lia. now rewrite Nat.eqb_refl. }
  pose proof (swap_length (length a - 1) j a) as Hlen.
  assert (Hne : swap (length a - 1) j a <> []).
  { intros E. rewrite E in Hlen. cbn in Hlen. lia. }
  destruct (exists_last Hne) as (m & z & Es). exists m.
  rewrite Es in Hlast, Hlen. rewrite length_app in Hlen. cbn in Hlen.
  rewrite nth_error_app2 in Hlast by lia.
  replace (length a - 1 - length m) with 0 in Hlast by lia.
  cbn in Hlast. congruence.
Qed.

Lemma shuffleLoop_app (ri : nat -> nat) (k : nat) (m t : list A) :
  (forall i, ri i <= i) -> k < length m ->
  shuffleLoop ri k (m ++ t) = shuffleLoop ri k m ++ t.
Proof.
  intros Hri. revert m. induction k as [|k IH]; intros m Hk; [reflexivity|].
  cbn [shuffleLoop]. pose proof (Hri (S k)).
  rewrite swap_app by lia. apply IH. rewrite swap_length. lia.
Qed.

Lemma shuffleLoop_ext (ri ri' : nat -> nat) (k : nat) (a : list A) :
  (forall i, i <= k -> ri i = ri' i) ->
  shuffleLoop ri k a = shuffleLoop ri' k a.
Proof.
  revert a. induction k as [|k IH]; intros a H; [reflexivity|].
  cbn [shuffleLoop]. rewrite (H (S k)) by lia. apply IH.
  intros i Hi. apply H. lia.
Qed.

Lemma shuffleLoop_reaches (n : nat) :
  forall l l' : list A,
    length l = n -> Permutation l l' ->
    exists ri, (forall i, ri i <= i) /\ shuffleLoop ri (n - 1) l = l'.
Proof.
  induction n as [|n IH]; intros l l' Hn Hp.
  - destruct l; [|discriminate]. apply Permutation_nil in Hp. subst l'.
    exists (fun _ => 0). split; [intros; lia | reflexivity].
  - assert (Hne : l' <> []).
    { intros ->. apply Permutation_length in Hp. cbn in Hp. lia. }
    destruct (exists_last Hne) as (front & y & ->).
    assert (Hin : In y l).
    { apply (Permutation_in y (Permutation_sym Hp)), in_or_app. right.
      now left. }
    apply In_nth_error in Hin. destruct Hin as [j Hj].
    assert (Hlt : j < length l) by (apply nth_error_Some; congruence).
    destruct (swap_puts_last j y l Hj) as [m Hm]. rewrite Hn in Hm.
    replace (S n - 1) with n in * by lia.
    assert (Hpm : Permutation m front).
    { apply (Permutation_app_inv_r [y]). rewrite <- Hm.
      rewrite swap_Permutation. exact Hp. }
    assert (Hlm : length m = n).
    { pose proof (swap_length n j l) as H. rewrite Hm, length_app in H.
      cbn in H. lia. }
    destruct (IH m front Hlm Hpm) as (ri0 & Hri0 & Hloop).
    exists (fun i => if Nat.eqb i n then j else ri0 i). split.
    + intros i. destruct (Nat.eqb_spec i n); [lia | apply Hri0].
    + destruct n as [|n'].
      * cbn [shuffleLoop]. destruct m; [|discriminate].
        destruct front; [|apply Permutation_length in Hpm; discriminate].
        destruct l as [|z [|z' l]]; try discriminate.
        destruct j; [|cbn in Hlt; lia]. cbn in Hj. now inversion Hj.
      * cbn [shuffleLoop]. rewrite Nat.eqb_refl, Hm.
        rewrite (shuffleLoop_ext _ ri0).
        -- rewrite shuffleLoop_app by (auto; lia).
           replace (S n' - 1) with n' in Hloop by lia. now rewrite Hloop.
        -- intros i Hi. destruct (Nat.eqb_spec i (S n')); [lia | reflexivity].
Qed.

End Reach.

(** X22.  The shuffle can produce every arrangement: for every
    permutation of an array there are draws, each within the range of
    [Math.floor(Math.random() * (i + 1))], with which [shuffleArray] returns
    it.  So [startGame] can deal every arrangement of the role deck over the
    players. *)
Theorem shuffleArray_reaches_every_arrangement :
  (forall (l l' : list Role),
     Permutation l l' ->
     exists random_index,
       (forall i, random_index i <= i) /\ shuffleArray random_index l = l')
  /\ (forall (g : Game) (deal : list Role),
        2 <= length (players g) ->
        Permutation (roleDeck (length (players g))) deal ->
        exists random_index,
          (forall i, random_index i <= i)
          /\ map role (players (docOf (startGame random_index g))) = deal).
Proof.
  assert (H : forall (l l' : list Role), Permutation l l' ->
            exists random_index,
              (forall i, random_index i <= i)
              /\ shuffleArray random_index l = l').
  { intros l l' Hp. unfold shuffleArray.
    now apply (shuffleLoop_reaches (length l)). }
  split; [exact H|].
  intros g deal H2 Hp. destruct (H _ _ Hp) as (ri & Hri & E).
  exists ri. split; [exact Hri|].
  rewrite startGame_returns by exact H2. rewrite docOf_run.
  rewrite dealtGame_roles by exact H2. exact E.
Qed.

Lemma shuffleArray_reaches_every_arrangement_witness :
  exists random_index,
    (forall i, random_index i <= i)
    /\ shuffleArray random_index [Mafia; Detective; Doctor; Villager]
       = [Villager; Doctor; Detective; Mafia].
Proof.
  apply (proj1 shuffleArray_reaches_every_arrangement).
  exact (Permutation_rev [Mafia; Detective; Doctor; Villager]).
Defined.

Section Draws.

Context {A : Type}.

Lemma shuffleLoop_draws (n : nat) :
  forall (l : list A) (ri ri' : nat -> nat),
    length l = S n -> NoDup l ->
    (forall i, ri i <= i) -> (forall i, ri' i <= i) ->
    shuffleLoop ri n l = shuffleLoop ri' n l ->
    forall i, 1 <= i <= n -> ri i = ri' i.
Proof.
  induction n as [|n IH]; intros l ri ri' Hn Hnd Hri Hri' E i Hi; [lia|].
  cbn [shuffleLoop] in E.
  pose proof (Hri (S n)) as Hj. pose proof (Hri' (S n)) as Hj'.
  destruct (nth_error l (ri (S n))) as [x|] eqn:Ex.
  2:{ apply nth_error_None in Ex. lia. }
  destruct (nth_error l (ri' (S n))) as [x'|] eqn:Ex'.
  2:{ apply nth_error_None in Ex'. lia. }
  destruct (swap_puts_last _ x l Ex) as [m Hm].
  destruct (swap_puts_last _ x' l Ex') as [m' Hm'].
  rewrite Hn in Hm, Hm'. replace (S (S n) - 1) with (S n) in Hm, Hm' by lia.
  assert (Hlm : length m = S n).
  { pose proof (swap_length (S n) (ri (S n)) l) as H.
    rewrite Hm, length_app in H. cbn in H. lia. }
  assert (Hlm' : length m' = S n).
  { pose proof (swap_length (S n) (ri' (S n)) l) as H.
    rewrite Hm', length_app in H. cbn in H. lia. }
  rewrite Hm, Hm' in E.
  rewrite !shuffleLoop_app in E by (auto; lia).
  apply app_inj_tail in E. destruct E as [E Exx]. subst x'.
  assert (Ej : ri (S n) = ri' (S n)).
  { apply (proj1 (NoDup_nth_error l) Hnd); [lia|]. congruence. }
  assert (Em : m' = m).
  { rewrite Ej in Hm. rewrite Hm in Hm'. apply app_inj_tail in Hm'.
    now destruct Hm'. }
  subst m'.
  destruct (Nat.eq_dec i (S n)) as [-> | Hne]; [exact Ej|].
  apply (IH m ri ri' Hlm); auto; [|lia].
  apply (NoDup_app_remove_r m [x]). rewrite <- Hm.
  apply (Permutation_NoDup (Permutation_sym (swap_Permutation _ _ l)) Hnd).
Qed.

End Draws.

(** X23.  On an array of pairwise different elements the draws can be read
    off the result of the shuffle: two sequences of draws, each within its
    range, that give the same arrangement agree at every index that the loop
    uses, so that different draws give different arrangements. *)
Theorem shuffleArray_draws_are_unique (A : Type) (l : list A)
  (random_index random_index' : nat -> nat) :
  NoDup l ->
  (forall i, random_index i <= i) -> (forall i, random_index' i <= i) ->
  shuffleArray random_index l = shuffleArray random_index' l ->
  forall i, 1 <= i < length l -> random_index i = random_index' i.
Proof.
  intros Hnd Hri Hri' E i Hi. unfold shuffleArray in E.
  destruct l as [|x l]; [cbn in Hi; lia|].
  cbn [length] in *. replace (S (length l) - 1) with (length l) in E by lia.
  apply (shuffleLoop_draws (length l) (x :: l) random_index random_index');
    auto. lia.
Qed.

Lemma shuffleArray_draws_are_unique_witness :
  shuffleArray (fun i => i) ["a"; "b"; "c"]
  = shuffleArray (fun i => if Nat.leb i 2 then i else 0) ["a"; "b"; "c"]
  /\ (fun i => i) 2 = (fun i => if Nat.leb i 2 then i else 0) 2.
Proof.
  split; [reflexivity|].
  apply (shuffleArray_draws_are_unique string ["a"; "b"; "c"]
           (fun i => i) (fun i => if Nat.leb i 2 then i else 0)).
  - repeat constructor; cbn; intuition discriminate.
  - intros i. lia.
  - intros i. destruct (Nat.leb i 2); lia.
  - reflexivity.
  - cbn. lia.
Defined.

(* ------------------------------------------------------------------ *)
(** ** The last victim *)

Lemma setPhase_lastKilled (p : Phase) (g : Game) :
  (currentPhase (docOf (setPhase p g)) = Day
   /\ lastKilled (docOf (setPhase p g)) = None)
  \/ (currentPhase (docOf (setPhase p g)) <> Day
      /\ lastKilled (docOf (setPhase p g)) = lastKilled g).
Proof.
  assert (Hdoc : forall g0,
    (currentPhase (docOf (setPhase NightDoctor g0)) = Day
     /\ lastKilled (docOf (setPhase NightDoctor g0)) = None)
    \/ (currentPhase (docOf (setPhase NightDoctor g0)) <> Day
        /\ lastKilled (docOf (setPhase NightDoctor g0)) = lastKilled g0)).
  { intros g0. destruct (existsb (aliveWithRole Doctor) (players g0)) eqn:E.
    - rewrite (setPhase_NightDoctor_open g0 E). right.
      split; [discriminate | reflexivity].
    - rewrite (setPhase_NightDoctor_skip g0 E). left.
      destruct (resolveNight_clears (set_currentPhase NightDoctor g0))
        as (_ & _ & Hp & Hl & _). split; assumption. }
  destruct p.
  - rewrite setPhase_fixpoint. right. split; [discriminate | reflexivity].
  - rewrite setPhase_NightMafia. right. split; [discriminate | reflexivity].
  - destruct (existsb (aliveWithRole Detective) (players g)) eqn:E.
    + rewrite (setPhase_NightDetective_open g E). right.
      split; [discriminate | reflexivity].
    + rewrite (setPhase_NightDetective_skip g E), setPhase_overwrites.
      apply Hdoc.
  - apply Hdoc.
  - rewrite setPhase_Day. left. split; reflexivity.
  - rewrite setPhase_fixpoint. right. split; [discriminate | reflexivity].
Qed.

Lemma resolveNight_quiet_trace (g : Game) :
  mafiaTarget g = None \/ mafiaTarget g = doctorSave g ->
  traceOf (resolveNight g)
  = [(ToRoom (gameId g), nightResult "Night ends with no deaths");
     (ToRoom (gameId g), phaseChangedKilled Day (lastKilled g));
     (ToRoom (gameId g),
      gameUpdated (set_lastKilled None (set_currentPhase Day (clearedNight g))));
     (ToRoom (gameId g), audioStarted)]
  /\ players (docOf (resolveNight g)) = players g.
Proof.
  intros H. rewrite resolveNight_run, nightBody_run. cbv zeta.
  rewrite (nightKill_spares g H). rewrite !docOf_run, !traceOf_run.
  split; reflexivity.
Qed.

(** X24.  [lastKilled] is cleared only by the entry into the day, and the
    vote of the day writes it.  A night request that does not reach the day
    leaves it as it was, and the player eliminated by a completed day vote
    that is answered with the document is written to it before the next
    night begins; so after a night in which nobody dies (no target, or the
    target saved), the entry into the day names as [lastKilled] whoever was
    on record before, the victim of the vote of the day before included. *)
Theorem lastKilled_outlives_a_quiet_night :
  (forall a g,
     phaseOf a <> Day -> currentPhase (docOf (perform a g)) <> Day ->
     lastKilled (docOf (perform a g)) = lastKilled g)
  /\ (forall v t g e,
        served (dayVote v t g) ->
        length (votes g) + 1 = aliveCount (players g) ->
        dayEliminated (players g) (votes g ++ [(v, t)])
          (aliveCount (players g)) = Some e ->
        e <> EmptyString -> existsb (named e) (players g) = true ->
        lastKilled (docOf (dayVote v t g)) = Some e
        /\ currentPhase (docOf (dayVote v t g)) <> Day)
  /\ (forall d t g,
        accepted (doctorSaveAction d t g) ->
        mafiaTarget g = None \/ mafiaTarget g = Some t ->
        In (ToRoom (gameId g), phaseChangedKilled Day (lastKilled g))
          (traceOf (doctorSaveAction d t g))
        /\ In (ToRoom (gameId g), nightResult "Night ends with no deaths")
             (traceOf (doctorSaveAction d t g))
        /\ players (docOf (doctorSaveAction d t g)) = players g).
Proof.
  split; [|split].
  - intros a g Hnight Hnot.
    destruct a as [v t | i t | d t | v t]; cbn [perform phaseOf] in *;
      [| | |congruence].
    + revert Hnot. rewrite mafiaVote_run.
      repeat match goal with
             | |- context [if ?c then _ else _] =>
                 destruct c; [reflexivity|]
             end.
      destruct (validMapKey v); [|reflexivity].
      rewrite mafiaVoteAccepted_run. cbv zeta.
      destruct (Nat.eqb _ _); rewrite !docOf_run; [|reflexivity].
      match goal with |- context [setPhase ?p ?x] =>
        destruct (setPhase_lastKilled p x) as [[Hd _] | [_ Hl]] end;
        [congruence | intros _; exact Hl].
    + revert Hnot. rewrite investigate_run.
      destruct (wrongPhase _ _); [reflexivity|].
      destruct (find (eligibleDetective i) _); [|reflexivity].
      destruct (detectiveResult g); [reflexivity|].
      destruct (find (aliveNamed t) _); [|reflexivity].
      rewrite investigateAccepted_run. cbv zeta. rewrite !docOf_run.
      match goal with |- context [setPhase ?p ?x] =>
        destruct (setPhase_lastKilled p x) as [[Hd _] | [_ Hl]] end;
        [congruence | intros _; exact Hl].
    + revert Hnot. rewrite doctorSaveAction_run.
      repeat match goal with
             | |- context [if ?c then _ else _] =>
                 destruct c; [reflexivity|]
             end.
      rewrite doctorSaveAccepted_run. cbv zeta. rewrite !docOf_run.
      destruct (resolveNight_clears (set_doctorSave (Some t) g))
        as (_ & _ & Hp & _). congruence.
  - intros v t g e Hacc Hlen He Hne Hon. revert Hacc.
    rewrite dayVote_run.
    destruct (wrongPhase Day g) eqn:E1; [intros [? H]; discriminate|].
    destruct (negb (existsb (aliveNamed v) (players g)));
      [intros [? H]; discriminate|].
    destruct (map_has v (votes g)) eqn:E3; [intros [? H]; discriminate|].
    destruct (negb (existsb (aliveNamed t) (players g)));
      [intros [? H]; discriminate|].
    destruct (validMapKey v); [|intros [? H]; discriminate].
    intros _. apply wrongPhase_false in E1. destruct E1 as [Hs Hp].
    rewrite (proj1 (tryCatch_doc _ _)), dayVoteAccepted_run. cbv zeta.
    rewrite (map_set_new _ _ _ E3). cbn [votes set_votes].
    rewrite length_app. cbn [length]. unfold aliveCount in Hlen, He.
    rewrite (proj2 (Nat.eqb_eq _ _) Hlen).
    rewrite dayResolve_run, applyElimination_run. cbn [players votes set_votes].
    rewrite He, (truthy_nonempty e Hne), Hon.
    set (x := set_votes [] (eliminate e (set_votes (votes g ++ [(v, t)]) g))).
    assert (Hx : lastKilled (docOf (nextCycle x)) = Some e
                 /\ currentPhase (docOf (nextCycle x)) <> Day).
    { rewrite nextCycle_run.
      destruct (Nat.eqb _ 0); [split; [reflexivity | discriminate]|].
      destruct (Nat.leb _ _); [split; [reflexivity | discriminate]|].
      assert (Hsx : state x = InProgress) by exact Hs.
      rewrite Hsx. cbn [state_eqb]. rewrite setPhase_NightMafia.
      split; [reflexivity | discriminate]. }
    pose proof (nextCycle_flow x) as Hf.
    destruct (nextCycle x) as [[fl g2] e2]. unfold flowOf in Hf.
    cbn [fst] in Hf. subst fl. exact Hx.
  - intros d t g Hacc Hquiet. revert Hacc. rewrite doctorSaveAction_run.
    repeat match goal with
           | |- context [if ?c then _ else _] =>
               destruct c;
               [intros Hacc; exfalso; eapply Hacc; reflexivity|]
           end.
    intros _. rewrite doctorSaveAccepted_run. cbv zeta.
    rewrite docOf_run, traceOf_run.
    destruct (resolveNight_quiet_trace (set_doctorSave (Some t) g))
      as [Ht Hp].
    { destruct Hquiet as [H | H]; [left | right]; exact H. }
    rewrite Ht, Hp. cbn. auto.
Qed.

Lemma lastKilled_outlives_a_quiet_night_witness :
  lastKilled quietNight = Some "D"
  /\ In (ToRoom "g1", phaseChangedKilled Day (Some "D"))
       (traceOf (doctorSaveAction "C" "B" quietNight))
  /\ players (docOf (doctorSaveAction "C" "B" quietNight))
     = players quietNight.
Proof.
  destruct lastKilled_outlives_a_quiet_night as (_ & _ & H).
  destruct (H "C" "B" quietNight) as (H1 & _ & H3).
  - intros msg. vm_compute. discriminate.
  - right. reflexivity.
  - split; [reflexivity|]. split; [exact H1 | exact H3].
Defined.

(* ------------------------------------------------------------------ *)
(** ** When a round of votes is complete *)

Lemma map_has_false (k : string) (m : VoteMap) :
  map_has k m = false <-> ~ In k (map fst m).
Proof.
  split.
  - intros H Hin. apply map_has_in in Hin. congruence.
  - intros H. destruct (map_has k m) eqn:E; [|reflexivity].
    exfalso. apply H. unfold map_has in E. apply existsb_exists in E.
    destruct E as (kv & Hin & E). apply String.eqb_eq in E. subst k.
    now apply in_map.
Qed.

Lemma NoDup_filter_names (f : Player -> bool) (ps : list Player) :
  NoDup (map name ps) -> NoDup (map name (filter f ps)).
Proof.
  induction ps as [|p ps IH]; cbn; [constructor|].
  intros H. inversion H as [|x l Hx Hl]; subst.
  destruct (f p); cbn; [|now apply IH].
  constructor; [|now apply IH].
  intros Hin. apply Hx. apply in_map_iff in Hin.
  destruct Hin as (q & <- & Hq). apply filter_In in Hq.
  apply in_map. tauto.
Qed.

Lemma last_voter (entitled : Player -> bool) (ps : list Player)
  (voters : list string) (v : string) :
  NoDup (map name ps) -> NoDup voters ->
  (forall u, In u voters ->
             exists p, In p ps /\ entitled p = true /\ name p = u) ->
  ~ In v voters ->
  (exists p, In p ps /\ entitled p = true /\ name p = v) ->
  length voters + 1 <= length (filter entitled ps)
  /\ (length voters + 1 = length (filter entitled ps)
      <-> allHaveVoted entitled ps v voters).
Proof.
  intros Hnd Hvoters Hsub Hv (pv & Hpv & Hev & Hnv).
  set (names := map name (filter entitled ps)).
  assert (Hlen : length names = length (filter entitled ps))
    by apply length_map.
  assert (Hnames : NoDup names) by now apply NoDup_filter_names.
  assert (Hall : NoDup (v :: voters)) by now constructor.
  assert (Hincl : incl (v :: voters) names).
  { intros u [<- | Hu].
    - rewrite <- Hnv. apply in_map, filter_In. tauto.
    - destruct (Hsub u Hu) as (p & Hp & He & <-).
      apply in_map, filter_In. tauto. }
  pose proof (NoDup_incl_length Hall Hincl) as Hle. cbn [length] in Hle.
  split; [lia|]. split.
  - intros E p Hp He.
    assert (Hback : incl names (v :: voters)).
    { apply (NoDup_length_incl Hall); [cbn [length]; lia | exact Hincl]. }
    assert (Hin : In (name p) (v :: voters)).
    { apply Hback. apply in_map, filter_In. tauto. }
    destruct Hin as [E' | Hin]; [left; now symmetry | now right].
  - intros H.
    assert (Hincl' : incl names (v :: voters)).
    { intros u Hu. apply in_map_iff in Hu. destruct Hu as (p & <- & Hp).
      apply filter_In in Hp. destruct Hp as [Hp He].
      destruct (H p Hp He) as [E | Hin]; [left; now symmetry | now right]. }
    pose proof (NoDup_incl_length Hnames Hincl') as Hge. cbn [length] in Hge.
    lia.
Qed.

Lemma existsb_aliveNamed (v : string) (ps : list Player) :
  existsb (aliveNamed v) ps = true
  <-> exists p, In p ps /\ isAlive p = true /\ name p = v.
Proof.
  rewrite existsb_exists. unfold aliveNamed, named. split.
  - intros (p & Hp & H). apply andb_true_iff in H. destruct H as [H1 H2].
    apply String.eqb_eq in H1. eauto.
  - intros (p & Hp & H1 & H2). exists p. split; [exact Hp|].
    rewrite H1. now rewrite (proj2 (String.eqb_eq _ _) H2).
Qed.

Lemma existsb_eligibleMafiaVoter (v : string) (ps : list Player) :
  existsb (eligibleMafiaVoter v) ps = true
  <-> exists p, In p ps /\ aliveMafiaP p = true /\ name p = v.
Proof.
  rewrite existsb_exists. unfold eligibleMafiaVoter, aliveMafiaP, named.
  split.
  - intros (p & Hp & H). apply andb_true_iff in H. destruct H as [H H3].
    apply andb_true_iff in H. destruct H as [H1 H2].
    apply String.eqb_eq in H2. exists p. rewrite H1, H3. auto.
  - intros (p & Hp & H & H2). apply andb_true_iff in H. destruct H as [H1 H3].
    exists p. split; [exact Hp|].
    rewrite H1, H3. now rewrite (proj2 (String.eqb_eq _ _) H2).
Qed.

Lemma orderly_fields (g g' : Game) :
  players g' = players g -> votes g' = votes g ->
  mafiaVotes g' = mafiaVotes g ->
  (currentPhase g' = Day <-> currentPhase g = Day) ->
  orderly g -> orderly g'.
Proof.
  intros Ep Ev Em Eph (H1 & H2 & H3 & H4 & H5 & H6 & H7).
  unfold orderly. rewrite Ep, Ev, Em.
  repeat split; auto.
  - intros H. apply H6. now apply Eph.
  - intros H. apply H7. intros E. apply H. now apply Eph.
Qed.

Lemma orderly_after_night (g : Game) :
  NoDup (map name (players g)) -> votes g = [] ->
  orderly (docOf (resolveNight g)).
Proof.
  intros Hnd Hv.
  destruct (resolveNight_sameBoard g) as (En & Ev & _ & _).
  destruct (resolveNight_clears g) as (_ & (_ & Em & _) & Hp & _).
  cbv zeta in Em, Hp. unfold orderly. rewrite En, Ev, Em, Hv.
  repeat split; auto; try constructor; try (intros ? []).
Qed.

Lemma setPhase_night_doc (p : Phase) (g : Game) :
  p = NightDetective \/ p = NightDoctor ->
  (exists q, q <> Day /\ docOf (setPhase p g) = set_currentPhase q g)
  \/ docOf (setPhase p g)
     = docOf (resolveNight (set_currentPhase NightDoctor g)).
Proof.
  assert (Hdoc : forall g0,
    (exists q, q <> Day
               /\ docOf (setPhase NightDoctor g0) = set_currentPhase q g0)
    \/ docOf (setPhase NightDoctor g0)
       = docOf (resolveNight (set_currentPhase NightDoctor g0))).
  { intros g0. destruct (existsb (aliveWithRole Doctor) (players g0)) eqn:E.
    - rewrite (setPhase_NightDoctor_open g0 E). left. exists NightDoctor.
      split; [discriminate | reflexivity].
    - rewrite (setPhase_NightDoctor_skip g0 E). now right. }
  intros [-> | ->]; [|apply Hdoc].
  destruct (existsb (aliveWithRole Detective) (players g)) eqn:E.
  - rewrite (setPhase_NightDetective_open g E). left. exists NightDetective.
    split; [discriminate | reflexivity].
  - rewrite (setPhase_NightDetective_skip g E), setPhase_overwrites.
    apply Hdoc.
Qed.

Lemma orderly_after_setPhase (p : Phase) (g : Game) :
  p = NightDetective \/ p = NightDoctor ->
  orderly g -> currentPhase g <> Day ->
  orderly (docOf (setPhase p g)).
Proof.
  intros Hp Ho Hnight. pose proof Ho as (Hnd & _ & _ & _ & _ & _ & Hv).
  destruct (setPhase_night_doc p g Hp) as [(q & Hq & ->) | ->].
  - apply (orderly_fields g); try reflexivity; [|exact Ho].
    cbn. split; intros H; congruence.
  - apply orderly_after_night; [exact Hnd | exact (Hv Hnight)].
Qed.

Lemma NoDup_voters_add (m : VoteMap) (v t : string) :
  NoDup (map fst m) -> map_has v m = false ->
  NoDup (map fst (m ++ [(v, t)])).
Proof.
  intros Hnd Hv. rewrite map_app. cbn.
  apply (Permutation_NoDup (Permutation_cons_append (map fst m) v)).
  constructor; [now apply map_has_false | exact Hnd].
Qed.

Lemma orderly_perform (a : Action) (g : Game) :
  orderly g -> orderly (docOf (perform a g)).
Proof.
  intros Ho. pose proof Ho as (Hnd & Hv1 & Hv2 & Hm1 & Hm2 & Hday & Hnight).
  destruct a as [v t | i t | d t | v t]; cbn [perform].
  - rewrite mafiaVote_run.
    destruct (wrongPhase NightMafia g) eqn:E1; [exact Ho|].
    destruct (existsb (eligibleMafiaVoter v) (players g)) eqn:E2;
      [|exact Ho].
    destruct (map_has v (mafiaVotes g)) eqn:E3; [exact Ho|].
    destruct (existsb (aliveNamed t) (players g)); [|exact Ho].
    cbn [negb]. destruct (validMapKey v); [|exact Ho].
    apply wrongPhase_false in E1. destruct E1 as [Hs Hp].
    rewrite mafiaVoteAccepted_run. cbv zeta. rewrite (map_set_new _ _ _ E3).
    assert (Hrec : orderly (set_mafiaVotes (mafiaVotes g ++ [(v, t)]) g)).
    { unfold orderly. cbn [players votes mafiaVotes currentPhase
                             set_mafiaVotes].
      repeat split; auto.
      - now apply NoDup_voters_add.
      - intros u Hu. rewrite map_app in Hu. apply in_app_or in Hu.
        destruct Hu as [Hu | [<- | []]]; [now apply Hm2 | exact E2].
      - intros H. congruence. }
    destruct (Nat.eqb _ _); rewrite docOf_run; [|exact Hrec].
    apply orderly_after_setPhase; [now left | | cbn; congruence].
    apply (orderly_fields (set_mafiaVotes (mafiaVotes g ++ [(v, t)]) g));
      try reflexivity; first [exact Hrec | tauto].
  - rewrite investigate_run.
    destruct (wrongPhase NightDetective g) eqn:E1; [exact Ho|].
    destruct (find (eligibleDetective i) _); [|exact Ho].
    destruct (detectiveResult g); [exact Ho|].
    destruct (find (aliveNamed t) _); [|exact Ho].
    apply wrongPhase_false in E1. destruct E1 as [Hs Hp].
    rewrite investigateAccepted_run. cbv zeta. rewrite docOf_run.
    apply orderly_after_setPhase; [now right | | cbn; congruence].
    apply (orderly_fields g); try reflexivity; first [exact Ho | tauto].
  - rewrite doctorSaveAction_run.
    destruct (wrongPhase NightDoctor g) eqn:E1; [exact Ho|].
    destruct (negb (existsb (eligibleDoctor d) (players g))); [exact Ho|].
    destruct (negb (existsb (aliveNamed t) (players g))); [exact Ho|].
    apply wrongPhase_false in E1. destruct E1 as [Hs Hp].
    rewrite doctorSaveAccepted_run. cbv zeta. rewrite docOf_run.
    apply orderly_after_night; [exact Hnd|]. apply Hnight. congruence.
  - rewrite dayVote_run.
    destruct (wrongPhase Day g) eqn:E1; [exact Ho|].
    destruct (existsb (aliveNamed v) (players g)) eqn:E2; [|exact Ho].
    destruct (map_has v (votes g)) eqn:E3; [exact Ho|].
    destruct (existsb (aliveNamed t) (players g)); [|exact Ho].
    cbn [negb]. destruct (validMapKey v); [|exact Ho].
    apply wrongPhase_false in E1. destruct E1 as [Hs Hp].
    rewrite (proj1 (tryCatch_doc _ _)), dayVoteAccepted_run. cbv zeta.
    rewrite (map_set_new _ _ _ E3). cbn [votes set_votes].
    assert (Hrec : orderly (set_votes (votes g ++ [(v, t)]) g)).
    { unfold orderly. cbn [players votes mafiaVotes currentPhase set_votes].
      repeat split; auto.
      - now apply NoDup_voters_add.
      - intros u Hu. rewrite map_app in Hu. apply in_app_or in Hu.
        destruct Hu as [Hu | [<- | []]]; [now apply Hv2 | exact E2].
      - intros H. contradiction. }
    destruct (Nat.eqb _ _); [|exact Hrec].
    match goal with |- context [dayResolve ?n ?x] =>
      assert (Hres : flowOf (dayResolve n x) = Next tt ->
                     orderly (docOf (dayResolve n x)));
      [|destruct (dayResolve_flow n x) as [Hf | Hthrow];
        [specialize (Hres Hf);
         destruct (dayResolve n x) as [[fl g2] e2];
         unfold flowOf in Hf; cbn [fst] in Hf; subst fl; exact Hres
        |rewrite Hthrow; exact Hrec]] end.
    intros _.
    match goal with |- context [dayResolve ?n ?x] =>
      pose proof (dayResolve_players n x) as Hpl;
      pose proof (oneDeath_names _ _ Hpl) as Hnames;
      pose proof (dayResolve_run n x) as Hrun end.
    rewrite applyElimination_run in Hrun.
    cbn [players votes set_votes] in Hrun, Hnames.
    assert (Hcycle : forall ev x,
              mafiaVotes x = [] -> state x = InProgress ->
              let after := docOf (prepend ev (nextCycle (set_votes [] x))) in
              votes after = [] /\ mafiaVotes after = []
              /\ currentPhase after <> Day).
    { intros ev x Hmx Hsx. cbv zeta. unfold prepend. rewrite docOf_run.
      destruct (nextCycle_sameBoard (set_votes [] x)) as (_ & Ev & Em & _).
      destruct (nextCycle_lands (set_votes [] x) Hsx) as [[_ Hph] | [_ Hph]];
        rewrite Ev, Hph; (split; [reflexivity|]);
        (split; [destruct Em as [-> | ->]; [exact Hmx | reflexivity]
                |discriminate]). }
    assert (Hfin : forall after,
              map name (players after) = map name (players g) ->
              votes after = [] -> mafiaVotes after = [] ->
              currentPhase after <> Day -> orderly after).
    { intros after En Ev Em Eph. unfold orderly. rewrite En, Ev, Em.
      repeat split; auto; try constructor; try (intros ? []). }
    destruct (dayEliminated (players g) (votes g ++ [(v, t)])
                (length (filter isAlive (players g)))) as [e|];
      [destruct (truthy e); [destruct (existsb (named e) (players g))|]|];
      rewrite Hrun in *.
    + destruct (Hcycle (eliminationEvents e (set_votes (votes g ++ [(v, t)]) g))
                  (eliminate e (set_votes (votes g ++ [(v, t)]) g)))
        as (A & B & C); [cbn; now apply Hday | exact Hs|].
      apply Hfin; assumption.
    + exact Hrec.
    + destruct (Hcycle [] (set_votes (votes g ++ [(v, t)]) g))
        as (A & B & C); [cbn; now apply Hday | exact Hs|].
      apply Hfin; assumption.
    + destruct (Hcycle [] (set_votes (votes g ++ [(v, t)]) g))
        as (A & B & C); [cbn; now apply Hday | exact Hs|].
      apply Hfin; assumption.
Qed.

Lemma dayVote_accepted_conditions (v t : string) (g : Game) :
  accepted (dayVote v t g) ->
  existsb (aliveNamed v) (players g) = true /\ map_has v (votes g) = false.
Proof.
  intros Hacc. rewrite dayVote_run in Hacc.
  destruct (wrongPhase Day g); [exfalso; eapply Hacc; reflexivity|].
  destruct (existsb (aliveNamed v) (players g));
    [|exfalso; eapply Hacc; reflexivity].
  destruct (map_has v (votes g)); [exfalso; eapply Hacc; reflexivity|].
  split; reflexivity.
Qed.

Lemma mafiaVote_accepted_conditions (v t : string) (g : Game) :
  accepted (mafiaVote v t g) ->
  existsb (eligibleMafiaVoter v) (players g) = true
  /\ map_has v (mafiaVotes g) = false.
Proof.
  intros Hacc. rewrite mafiaVote_run in Hacc.
  destruct (wrongPhase NightMafia g); [exfalso; eapply Hacc; reflexivity|].
  destruct (existsb (eligibleMafiaVoter v) (players g));
    [|exfalso; eapply Hacc; reflexivity].
  destruct (map_has v (mafiaVotes g)); [exfalso; eapply Hacc; reflexivity|].
  split; reflexivity.
Qed.

Lemma startGame_ledgers (random_index : nat -> nat) (g : Game) :
  votes (docOf (startGame random_index g)) = votes g
  /\ mafiaVotes (docOf (startGame random_index g)) = mafiaVotes g
  /\ mafiaTarget (docOf (startGame random_index g)) = mafiaTarget g.
Proof.
  rewrite startGame_run.
  destruct (villagerRemainder (length (players g)) <? 0)%Z;
    repeat split; reflexivity.
Qed.

Lemma startGame_orderly (random_index : nat -> nat) (g : Game) :
  NoDup (map name (players g)) -> votes g = [] -> mafiaVotes g = [] ->
  orderly (docOf (startGame random_index g)).
Proof.
  intros Hn0 Hv0 Hm0.
  pose proof (dealtGame_names random_index g) as En.
  destruct (startGame_ledgers random_index g) as (Ev & Em & _).
  unfold orderly. rewrite En, Ev, Em, Hv0, Hm0.
  repeat split; auto; try constructor; try (intros ? []).
Qed.

(** X25.  In an orderly session (distinct names; in each ledger one vote
    for each voter, who is a living player entitled to vote; the day ledger
    empty outside the day and the mafia ledger empty by day), which every
    action request keeps orderly, a ledger never holds more votes than there
    are living voters, and an accepted vote meets the completion test exactly
    when it is the last one missing: the day vote when every living player
    is the voter or on the ledger, the mafia vote when every living Mafia or
    Godfather player is.  [startGame] makes a session orderly when the names
    are distinct and the ledgers empty. *)
Theorem vote_round_ends_with_the_last_voter (g : Game) :
  orderly g ->
  (forall a, orderly (docOf (perform a g)))
  /\ (forall v t,
        accepted (dayVote v t g) ->
        length (votes g) + 1 <= aliveCount (players g)
        /\ (length (votes g) + 1 = aliveCount (players g)
            <-> allHaveVoted isAlive (players g) v (map fst (votes g))))
  /\ (forall v t,
        accepted (mafiaVote v t g) ->
        length (mafiaVotes g) + 1 <= length (filter aliveMafiaP (players g))
        /\ (length (mafiaVotes g) + 1
            = length (filter aliveMafiaP (players g))
            <-> allHaveVoted aliveMafiaP (players g) v
                  (map fst (mafiaVotes g))))
  /\ (forall random_index g0,
        NoDup (map name (players g0)) -> votes g0 = [] ->
        mafiaVotes g0 = [] ->
        orderly (docOf (startGame random_index g0))).
Proof.
  intros Ho. pose proof Ho as (Hnd & Hv1 & Hv2 & Hm1 & Hm2 & _ & _).
  split; [intros a; now apply orderly_perform|].
  split; [|split].
  3:{ intros random_index g0. apply startGame_orderly. }
  - intros v t Hacc.
    destruct (dayVote_accepted_conditions v t g Hacc) as [Hv Hnew].
    rewrite <- (length_map fst (votes g)). unfold aliveCount.
    apply last_voter; auto.
    + intros u Hu. apply existsb_aliveNamed. now apply Hv2.
    + now apply map_has_false.
    + now apply existsb_aliveNamed.
  - intros v t Hacc.
    destruct (mafiaVote_accepted_conditions v t g Hacc) as [Hv Hnew].
    rewrite <- (length_map fst (mafiaVotes g)).
    apply last_voter; auto.
    + intros u Hu. apply existsb_eligibleMafiaVoter. now apply Hm2.
    + now apply map_has_false.
    + now apply existsb_eligibleMafiaVoter.
Qed.

Lemma tiedDay_orderly : orderly tiedDay.
Proof.
  unfold orderly. cbn.
  split; [repeat constructor; cbn; intuition discriminate|].
  split; [repeat constructor; cbn; intuition discriminate|].
  split.
  { intros v [<- | [<- | [<- | [<- | [<- | []]]]]]; reflexivity. }
  split; [constructor|]. split; [intros v []|].
  split; [reflexivity | intros H; now contradiction H].
Qed.

Lemma vote_round_ends_with_the_last_voter_witness :
  length (votes tiedDay) + 1 = aliveCount (players tiedDay)
  /\ allHaveVoted isAlive (players tiedDay) "P6" (map fst (votes tiedDay)).
Proof.
  destruct (vote_round_ends_with_the_last_voter tiedDay tiedDay_orderly)
    as (_ & Hday & _).
  destruct (Hday "P6" "U") as [_ Hiff].
  - intros msg. vm_compute. discriminate.
  - split; [reflexivity|]. apply Hiff. reflexivity.
Defined.

(* ------------------------------------------------------------------ *)
(** ** Deaths and their announcement *)

Lemma kill_living (t : string) (ps : list Player) :
  NoDup (map name ps) -> existsb (aliveNamed t) ps = true ->
  existsb (aliveNamed t) (mutate_found (named t) (set_isAlive false) ps)
  = false
  /\ aliveCount (mutate_found (named t) (set_isAlive false) ps) + 1
     = aliveCount ps.
Proof.
  unfold aliveCount. induction ps as [|p ps IH]; [discriminate|].
  intros Hnd Hex. cbn [map] in Hnd. inversion Hnd as [|x l Hx Hl]; subst.
  cbn [existsb] in Hex. cbn [mutate_found filter].
  destruct (named t p) eqn:En.
  - assert (Hrest : existsb (aliveNamed t) ps = false).
    { apply existsb_false_forall. intros q Hq. unfold aliveNamed.
      destruct (named t q) eqn:Eq; [|reflexivity]. exfalso. apply Hx.
      unfold named in En, Eq. apply String.eqb_eq in En, Eq.
      rewrite En, <- Eq. now apply in_map. }
    rewrite Hrest, orb_false_r in Hex. unfold aliveNamed in Hex.
    rewrite En in Hex. cbn [andb] in Hex. rewrite Hex.
    cbn [existsb filter]. rewrite Hrest.
    unfold aliveNamed at 1. cbn [isAlive set_isAlive].
    rewrite andb_false_r. cbn [orb length]. split; [reflexivity | lia].
  - unfold aliveNamed at 1 in Hex. rewrite En in Hex.
    cbn [andb orb] in Hex. destruct (IH Hl Hex) as [H1 H2].
    cbn [existsb filter]. unfold aliveNamed at 1. rewrite En. cbn [andb orb].
    split; [exact H1|]. destruct (isAlive p); cbn [length]; lia.
Qed.

Lemma nightKill_target (g : Game) :
  (docOf (nightKill g) = g
   /\ filter isPlayerEliminated (traceOf (nightKill g)) = [])
  \/ exists t,
       mafiaTarget g = Some t
       /\ players (docOf (nightKill g))
          = mutate_found (named t) (set_isAlive false) (players g)
       /\ filter isPlayerEliminated (traceOf (nightKill g))
          = [(ToRoom (gameId g), playerEliminated t ByMafia)].
Proof.
  unfold nightKill, bind, get. cbn.
  destruct (mafiaTarget g) as [t|]; [|left; split; reflexivity].
  destruct (truthy t && _)%bool; [|left; split; reflexivity].
  destruct (find (named t) (players g)) as [p|] eqn:Hf;
    [|left; split; reflexivity].
  right. exists t. cbn. rewrite (find_named_name _ _ _ Hf).
  repeat split.
Qed.

Lemma resolveNight_announces (g : Game) :
  (forall t, mafiaTarget g = Some t ->
             existsb (aliveNamed t) (players g) = true) ->
  oneAnnouncedDeath g (resolveNight g).
Proof.
  intros Halive. rewrite resolveNight_run, nightBody_run. cbv zeta.
  rewrite !docOf_run, !traceOf_run. unfold oneAnnouncedDeath.
  rewrite docOf_run, traceOf_run, filter_app. cbn [filter isPlayerEliminated snd].
  rewrite app_nil_r. cbn [players set_lastKilled set_currentPhase clearedNight
                            set_detectiveResult set_doctorSave set_mafiaVotes
                            set_mafiaTarget].
  destruct (nightKill_target g) as [[E F] | (t & Et & Ep & F)].
  - left. rewrite E. split; [reflexivity | exact F].
  - right. exists t, ByMafia. split; [now apply Halive|].
    split; [exact Ep | exact F].
Qed.

Lemma oneAnnouncedDeath_quiet (g : Game) (r : Flow unit * Game * list Emit) :
  players (docOf r) = players g ->
  filter isPlayerEliminated (traceOf r) = [] ->
  oneAnnouncedDeath g r.
Proof. intros H1 H2. left. split; assumption. Qed.

Lemma setPhase_announces (p : Phase) (g : Game) :
  (forall t, mafiaTarget g = Some t ->
             existsb (aliveNamed t) (players g) = true) ->
  oneAnnouncedDeath g (setPhase p g).
Proof.
  intros Halive.
  assert (Hdoc : oneAnnouncedDeath g (setPhase NightDoctor g)).
  { destruct (existsb (aliveWithRole Doctor) (players g)) eqn:E.
    - rewrite (setPhase_NightDoctor_open g E).
      apply oneAnnouncedDeath_quiet; reflexivity.
    - rewrite (setPhase_NightDoctor_skip g E).
      exact (resolveNight_announces (set_currentPhase NightDoctor g) Halive). }
  destruct p.
  - rewrite setPhase_fixpoint. apply oneAnnouncedDeath_quiet; reflexivity.
  - rewrite setPhase_NightMafia. apply oneAnnouncedDeath_quiet; reflexivity.
  - destruct (existsb (aliveWithRole Detective) (players g)) eqn:E.
    + rewrite (setPhase_NightDetective_open g E).
      apply oneAnnouncedDeath_quiet; reflexivity.
    + rewrite (setPhase_NightDetective_skip g E), setPhase_overwrites.
      exact Hdoc.
  - exact Hdoc.
  - rewrite setPhase_Day. apply oneAnnouncedDeath_quiet; reflexivity.
  - rewrite setPhase_fixpoint. apply oneAnnouncedDeath_quiet; reflexivity.
Qed.

Lemma oneAnnouncedDeath_after (g x : Game) (ev : list Emit)
  (r : Flow unit * Game * list Emit) (fl : Flow unit) :
  players x = players g -> gameId x = gameId g ->
  filter isPlayerEliminated ev = [] ->
  oneAnnouncedDeath x r ->
  oneAnnouncedDeath g (fl, docOf r, ev ++ traceOf r).
Proof.
  intros Ep Eg Hev [[H1 H2] | (t & k & H1 & H2 & H3)];
    unfold oneAnnouncedDeath; rewrite docOf_run, traceOf_run, filter_app, Hev;
    cbn [app].
  - left. split; [congruence | exact H2].
  - right. exists t, k. rewrite <- Ep, <- Eg. auto.
Qed.

Lemma nextCycle_announces (g : Game) :
  players (docOf (nextCycle g)) = players g
  /\ filter isPlayerEliminated (traceOf (nextCycle g)) = [].
Proof.
  split; [apply nextCycle_players|]. rewrite nextCycle_run.
  destruct (Nat.eqb _ 0); [reflexivity|].
  destruct (Nat.leb _ _); [reflexivity|].
  destruct (state_eqb _ _); [reflexivity|].
  rewrite setPhase_NightMafia. reflexivity.
Qed.

Lemma votesFor_In (k : string) (m : VoteMap) :
  0 < votesFor k m -> In k (map_values m).
Proof. intros H. apply (count_occ_In string_dec). exact H. Qed.

Lemma dayEliminated_voted (ps : list Player) (m : VoteMap) (n : nat)
  (e : string) :
  targetsOnRoster ps m -> m <> [] -> 0 < n ->
  dayEliminated ps m n = Some e -> In e (map_values m).
Proof.
  intros Hwf Hne Hn He.
  destruct (dayEliminated_order ps m n Hwf Hne) as [Helim Hnone].
  destruct (Nat.le_gt_cases (ceil_half n) (topCount ps m)) as [Hle | Hgt].
  - destruct (Helim Hle) as (e' & He' & _ & Hv & _).
    rewrite He in He'. inversion He'; subst e'.
    apply votesFor_In. pose proof (ceil_half_spec n). lia.
  - rewrite (Hnone Hgt) in He. discriminate.
Qed.

Lemma resolveMafiaTarget_voted (ps : list Player) (m : VoteMap) (t : string) :
  targetsOnRoster ps m -> m <> [] ->
  resolveMafiaTarget ps m = Some t -> In t (map_values m).
Proof.
  intros Hwf Hne Ht.
  destruct (resolveMafiaTarget_spec ps m Hne Hwf)
    as (t' & e & l & Ht' & _ & Hsplit & _).
  rewrite Ht in Ht'. inversion Ht'; subst t'.
  rewrite Hsplit. apply in_or_app. right. now left.
Qed.

Lemma aliveCount_positive (v : string) (ps : list Player) :
  existsb (aliveNamed v) ps = true -> 0 < aliveCount ps.
Proof.
  intros H. apply existsb_aliveNamed in H. destruct H as (p & Hp & Ha & _).
  unfold aliveCount.
  assert (Hin : In p (filter isAlive ps)) by (apply filter_In; tauto).
  destruct (filter isAlive ps); [destruct Hin | cbn; lia].
Qed.

Lemma targets_add (ps : list Player) (m : VoteMap) (v t : string) :
  (forall u, In u (map_values m) -> existsb (aliveNamed u) ps = true) ->
  existsb (aliveNamed t) ps = true ->
  forall u, In u (map_values (m ++ [(v, t)])) ->
            existsb (aliveNamed u) ps = true.
Proof.
  intros H Ht u Hu. unfold map_values in Hu. rewrite map_app in Hu.
  apply in_app_or in Hu. destruct Hu as [Hu | [<- | []]];
    [now apply H | exact Ht].
Qed.

Lemma oneAnnouncedDeath_ext (g : Game) (r r' : Flow unit * Game * list Emit) :
  docOf r = docOf r' -> traceOf r = traceOf r' ->
  oneAnnouncedDeath g r' -> oneAnnouncedDeath g r.
Proof. unfold oneAnnouncedDeath. intros -> ->. exact (fun H => H). Qed.

Lemma filter_cast_eliminated (v t : string) (ps : list Player) :
  filter isPlayerEliminated
    (map (fun p => (ToSocket (socketId p), mafiaVoteCast v t)) ps) = [].
Proof. induction ps as [|p ps IH]; [reflexivity | exact IH]. Qed.

Lemma dayResolve_announces (n : nat) (g : Game) :
  (forall e, dayEliminated (players g) (votes g) n = Some e ->
             existsb (aliveNamed e) (players g) = true) ->
  oneAnnouncedDeath g (dayResolve n g).
Proof.
  intros Halive. rewrite dayResolve_run, applyElimination_run.
  assert (Hquiet : oneAnnouncedDeath g (prepend [] (nextCycle (set_votes [] g)))).
  { destruct (nextCycle_announces (set_votes [] g)) as [Hp Hf].
    apply oneAnnouncedDeath_quiet; unfold prepend;
      rewrite ?docOf_run, ?traceOf_run; [exact Hp | exact Hf]. }
  destruct (dayEliminated (players g) (votes g) n) as [e|]; [|exact Hquiet].
  destruct (truthy e); [|exact Hquiet].
  destruct (existsb (named e) (players g));
    [|apply oneAnnouncedDeath_quiet; reflexivity].
  destruct (nextCycle_announces (set_votes [] (eliminate e g))) as [Hp Hf].
  right. exists e, ByVote. split; [now apply Halive|].
  unfold prepend. rewrite docOf_run, traceOf_run, filter_app, Hf, Hp.
  split; reflexivity.
Qed.

Lemma perform_announces (a : Action) (g : Game) :
  sound g -> oneAnnouncedDeath g (perform a g).
Proof.
  intros (Ho & Hwf & Ht).
  pose proof Ho as (Hnd & Hv1 & Hv2 & Hm1 & Hm2 & Hday & Hnight).
  pose proof Hwf as (Hun & Hrv & Hrm & Hrt).
  pose proof Ht as (Htv & Htm & Htt & Htd).
  assert (Hrej : forall msg, oneAnnouncedDeath g (reject msg g)).
  { intros msg. apply oneAnnouncedDeath_quiet; reflexivity. }
  destruct a as [v t | i t | d t | v t]; cbn [perform].
  - rewrite mafiaVote_run.
    destruct (wrongPhase NightMafia g) eqn:E1; [apply Hrej|].
    destruct (existsb (eligibleMafiaVoter v) (players g)) eqn:E2;
      [|apply Hrej].
    destruct (map_has v (mafiaVotes g)) eqn:E3; [apply Hrej|].
    destruct (existsb (aliveNamed t) (players g)) eqn:E4; [|apply Hrej].
    cbn [negb].
    destruct (validMapKey v); [|apply oneAnnouncedDeath_quiet; reflexivity].
    rewrite mafiaVoteAccepted_run. cbv zeta.
    rewrite (map_set_new _ _ _ E3). cbn [mafiaVotes set_mafiaVotes].
    destruct (Nat.eqb _ _).
    + match goal with |- context [setPhase NightDetective ?x] =>
        apply (oneAnnouncedDeath_after g x) end;
        [reflexivity | reflexivity | apply filter_cast_eliminated|].
      apply setPhase_announces. cbn [mafiaTarget set_mafiaTarget players
                                      set_mafiaVotes].
      intros u Hu.
      apply (targets_add (players g) (mafiaVotes g) v t Htm E4).
      apply (resolveMafiaTarget_voted (players g)); [| |exact Hu].
      * now apply targetsOnRoster_add.
      * intros H. now destruct (mafiaVotes g).
    + apply oneAnnouncedDeath_quiet; [reflexivity|].
      rewrite traceOf_run. apply filter_cast_eliminated.
  - rewrite investigate_run.
    destruct (wrongPhase NightDetective g) eqn:E1; [apply Hrej|].
    destruct (find (eligibleDetective i) _) as [inv|]; [|apply Hrej].
    destruct (detectiveResult g); [apply Hrej|].
    destruct (find (aliveNamed t) _) as [tgt|]; [|apply Hrej].
    rewrite investigateAccepted_run. cbv zeta.
    match goal with |- context [setPhase NightDoctor ?x] =>
      apply (oneAnnouncedDeath_after g x
               [(ToSocket (socketId inv),
                 investigationResult t (investigationSignal (role tgt)))]) end;
      [reflexivity | reflexivity | reflexivity|].
    apply setPhase_announces. exact Htt.
  - rewrite doctorSaveAction_run.
    destruct (wrongPhase NightDoctor g) eqn:E1; [apply Hrej|].
    destruct (negb (existsb (eligibleDoctor d) (players g))); [apply Hrej|].
    destruct (negb (existsb (aliveNamed t) (players g))); [apply Hrej|].
    rewrite doctorSaveAccepted_run. cbv zeta.
    apply (oneAnnouncedDeath_after g (set_doctorSave (Some t) g) []);
      [reflexivity | reflexivity | reflexivity|].
    apply resolveNight_announces. exact Htt.
  - rewrite dayVote_run.
    destruct (wrongPhase Day g) eqn:E1; [apply Hrej|].
    destruct (existsb (aliveNamed v) (players g)) eqn:E2; [|apply Hrej].
    destruct (map_has v (votes g)) eqn:E3; [apply Hrej|].
    destruct (existsb (aliveNamed t) (players g)) eqn:E4; [|apply Hrej].
    cbn [negb].
    destruct (validMapKey v); [|apply oneAnnouncedDeath_quiet; reflexivity].
    apply (oneAnnouncedDeath_ext g _ (dayVoteAccepted v t g));
      [apply tryCatch_doc | apply tryCatch_doc|].
    rewrite dayVoteAccepted_run. cbv zeta.
    rewrite (map_set_new _ _ _ E3). cbn [votes set_votes].
    destruct (Nat.eqb _ _);
      [|apply oneAnnouncedDeath_quiet; reflexivity].
    match goal with |- context [dayResolve ?n ?x] =>
      apply (oneAnnouncedDeath_ext g _
               (Next tt, docOf (dayResolve n x),
                [(ToRoom (gameId g), gameUpdated x)]
                  ++ traceOf (dayResolve n x)));
      [destruct (dayResolve n x) as [[[[]|?|?] ?] ?]; reflexivity
      |destruct (dayResolve n x) as [[[[]|?|?] ?] ?]; reflexivity
      |apply (oneAnnouncedDeath_after g x);
       [reflexivity | reflexivity | reflexivity|]] end.
    apply dayResolve_announces. cbn [players votes set_votes].
    intros e He.
    apply (targets_add (players g) (votes g) v t Htv E4).
    apply (dayEliminated_voted (players g) _
             (length (filter isAlive (players g))) e); [| | |exact He].
    + now apply targetsOnRoster_add.
    + intros H. now destruct (votes g).
    + exact (aliveCount_positive v _ E2).
Qed.

Lemma targetsAlive_cleared (g : Game) :
  votes g = [] -> mafiaVotes g = [] -> mafiaTarget g = None ->
  targetsAlive g.
Proof.
  intros Ev Em Et. unfold targetsAlive. rewrite Ev, Em, Et.
  split; [intros ? []|]. split; [intros ? []|].
  split; [discriminate | reflexivity].
Qed.

Lemma targetsAlive_after_night (g : Game) :
  votes g = [] -> targetsAlive (docOf (resolveNight g)).
Proof.
  intros Hv.
  destruct (resolveNight_sameBoard g) as (_ & Ev & _ & _).
  destruct (resolveNight_clears g) as (_ & (Et & Em & _) & _).
  cbv zeta in Et, Em. apply targetsAlive_cleared; congruence.
Qed.

Lemma targetsAlive_after_setPhase (p : Phase) (g : Game) :
  p = NightDetective \/ p = NightDoctor ->
  targetsAlive g -> votes g = [] ->
  targetsAlive (docOf (setPhase p g)).
Proof.
  intros Hp (H1 & H2 & H3 & H4) Hv.
  destruct (setPhase_night_doc p g Hp) as [(q & Hq & ->) | ->].
  - unfold targetsAlive. cbn. repeat split; auto. intros; contradiction.
  - now apply targetsAlive_after_night.
Qed.

Lemma targetsAlive_perform (a : Action) (g : Game) :
  sound g -> targetsAlive (docOf (perform a g)).
Proof.
  intros (Ho & Hwf & Ht).
  pose proof Ho as (Hnd & Hv1 & Hv2 & Hm1 & Hm2 & Hday & Hnight).
  pose proof Hwf as (Hun & Hrv & Hrm & Hrt).
  pose proof Ht as (Htv & Htm & Htt & Htd).
  destruct a as [v t | i t | d t | v t]; cbn [perform].
  - rewrite mafiaVote_run.
    destruct (wrongPhase NightMafia g) eqn:E1; [exact Ht|].
    destruct (existsb (eligibleMafiaVoter v) (players g)) eqn:E2;
      [|exact Ht].
    destruct (map_has v (mafiaVotes g)) eqn:E3; [exact Ht|].
    destruct (existsb (aliveNamed t) (players g)) eqn:E4; [|exact Ht].
    cbn [negb]. destruct (validMapKey v); [|exact Ht].
    apply wrongPhase_false in E1. destruct E1 as [Hs Hp].
    assert (Hvg : votes g = []) by (apply Hnight; congruence).
    rewrite mafiaVoteAccepted_run. cbv zeta. rewrite (map_set_new _ _ _ E3).
    cbn [mafiaVotes set_mafiaVotes].
    pose proof (targets_add (players g) (mafiaVotes g) v t Htm E4) as Hadd.
    destruct (Nat.eqb _ _); rewrite docOf_run.
    + apply targetsAlive_after_setPhase; [now left | | exact Hvg].
      unfold targetsAlive.
      cbn [players votes mafiaVotes mafiaTarget currentPhase
             set_mafiaVotes set_mafiaTarget].
      repeat split; auto; [|intros H; congruence].
      intros u Hu. apply Hadd.
      apply (resolveMafiaTarget_voted (players g)); [| |exact Hu].
      * now apply targetsOnRoster_add.
      * intros H. now destruct (mafiaVotes g).
    + unfold targetsAlive.
      cbn [players votes mafiaVotes mafiaTarget currentPhase set_mafiaVotes].
      repeat split; auto.
  - rewrite investigate_run.
    destruct (wrongPhase NightDetective g) eqn:E1; [exact Ht|].
    destruct (find (eligibleDetective i) _); [|exact Ht].
    destruct (detectiveResult g); [exact Ht|].
    destruct (find (aliveNamed t) _); [|exact Ht].
    apply wrongPhase_false in E1. destruct E1 as [Hs Hp].
    rewrite investigateAccepted_run. cbv zeta. rewrite docOf_run.
    apply targetsAlive_after_setPhase; [now right | exact Ht|].
    cbn. apply Hnight. congruence.
  - rewrite doctorSaveAction_run.
    destruct (wrongPhase NightDoctor g) eqn:E1; [exact Ht|].
    destruct (negb (existsb (eligibleDoctor d) (players g))); [exact Ht|].
    destruct (negb (existsb (aliveNamed t) (players g))); [exact Ht|].
    apply wrongPhase_false in E1. destruct E1 as [Hs Hp].
    rewrite doctorSaveAccepted_run. cbv zeta. rewrite docOf_run.
    apply targetsAlive_after_night. cbn. apply Hnight. congruence.
  - rewrite dayVote_run.
    destruct (wrongPhase Day g) eqn:E1; [exact Ht|].
    destruct (existsb (aliveNamed v) (players g)) eqn:E2; [|exact Ht].
    destruct (map_has v (votes g)) eqn:E3; [exact Ht|].
    destruct (existsb (aliveNamed t) (players g)) eqn:E4; [|exact Ht].
    cbn [negb]. destruct (validMapKey v); [|exact Ht].
    apply wrongPhase_false in E1. destruct E1 as [Hs Hp].
    rewrite (proj1 (tryCatch_doc _ _)), dayVoteAccepted_run. cbv zeta.
    rewrite (map_set_new _ _ _ E3). cbn [votes set_votes].
    assert (Hrec : targetsAlive (set_votes (votes g ++ [(v, t)]) g)).
    { unfold targetsAlive.
      cbn [players votes mafiaVotes mafiaTarget currentPhase set_votes].
      repeat split; auto. now apply targets_add. }
    destruct (Nat.eqb _ _); [|exact Hrec].
    match goal with |- context [dayResolve ?n ?x] =>
      assert (Hres : flowOf (dayResolve n x) = Next tt ->
                     targetsAlive (docOf (dayResolve n x)));
      [|destruct (dayResolve_flow n x) as [Hf | Hthrow];
        [specialize (Hres Hf);
         destruct (dayResolve n x) as [[fl g2] e2];
         unfold flowOf in Hf; cbn [fst] in Hf; subst fl; exact Hres
        |rewrite Hthrow; exact Hrec]] end.
    intros _.
    match goal with |- context [dayResolve ?n ?x] =>
      pose proof (dayResolve_run n x) as Hrun end.
    rewrite applyElimination_run in Hrun.
    cbn [players votes set_votes] in Hrun.
    assert (Hcycle : forall ev x,
              mafiaVotes x = [] -> mafiaTarget x = None ->
              targetsAlive (docOf (prepend ev (nextCycle (set_votes [] x))))).
    { intros ev x Hmx Htx. unfold prepend. rewrite docOf_run.
      destruct (nextCycle_sameBoard (set_votes [] x)) as (_ & Ev & Em & Et).
      apply targetsAlive_cleared; [exact Ev | |].
      - destruct Em as [-> | ->]; [exact Hmx | reflexivity].
      - destruct Et as [-> | ->]; [exact Htx | reflexivity]. }
    destruct (dayEliminated (players g) (votes g ++ [(v, t)])
                (length (filter isAlive (players g)))) as [e|];
      [destruct (truthy e); [destruct (existsb (named e) (players g))|]|];
      rewrite Hrun in *;
      first [exact Hrec
            |apply Hcycle; cbn; [now apply Hday | now apply Htd]].
Qed.

Lemma tiedDay_sound : sound tiedDay.
Proof.
  split; [exact tiedDay_orderly|]. split; [exact tiedDay_wellFormed|].
  unfold targetsAlive. cbn.
  split; [intros t [<- | [<- | [<- | [<- | [<- | []]]]]]; reflexivity|].
  split; [intros t []|]. split; [discriminate | reflexivity].
Qed.

(** X26.  In a sound session (orderly, well formed, every target on record
    a living player) each of the four actions leaves a sound session and
    announces exactly what it kills.  Either no [playerEliminated] is sent
    and the players are unchanged, or one [playerEliminated] is sent, to
    the room, and it names a player who was alive before the request and is
    dead after it: that player's record is the only change and the number
    of living players drops by one.  [startGame] makes a session sound when
    the names are distinct and usable and the ledgers and the mafia target
    are empty. *)
Theorem every_elimination_is_a_death (a : Action) (g : Game) :
  sound g ->
  let after := docOf (perform a g) in
  let announced := filter isPlayerEliminated (traceOf (perform a g)) in
  sound after
  /\ ((announced = [] /\ players after = players g)
      \/ exists t k,
           announced = [(ToRoom (gameId g), playerEliminated t k)]
           /\ existsb (aliveNamed t) (players g) = true
           /\ existsb (aliveNamed t) (players after) = false
           /\ players after
              = mutate_found (named t) (set_isAlive false) (players g)
           /\ aliveCount (players after) + 1 = aliveCount (players g))
  /\ (forall random_index g0,
        NoDup (map name (players g0)) -> usableNames (players g0) ->
        votes g0 = [] -> mafiaVotes g0 = [] -> mafiaTarget g0 = None ->
        sound (docOf (startGame random_index g0))).
Proof.
  intros Hs. cbv zeta. split; [|split].
  - pose proof Hs as (Ho & Hwf & _).
    split; [now apply orderly_perform|].
    split; [|now apply targetsAlive_perform].
    destruct (handlers_keep_sessions_wellFormed g Hwf) as (H1 & H2 & H3 & H4).
    destruct a as [v t | i t | d t | v t]; cbn [perform];
      [apply H1 | apply H2 | apply H3 | apply H4].
  - destruct (perform_announces a g Hs) as [[Hp Hf] | (t & k & Ha & Hp & Hf)].
    + left. split; assumption.
    + right. exists t, k. destruct Hs as ((Hnd & _) & _).
      destruct (kill_living t (players g) Hnd Ha) as [Hdead Hcount].
      rewrite Hp. repeat split; assumption.
  - intros random_index g0 Hnd Hun Hv Hm Ht.
    destruct (startGame_ledgers random_index g0) as (Ev & Em & Et).
    split; [now apply startGame_orderly|]. split.
    + apply startGame_keeps_sessions_wellFormed.
      unfold wellFormed. rewrite Hv, Hm, Ht.
      split; [exact Hun|]. split; [intros ? []|].
      split; [intros ? [] | discriminate].
    + apply targetsAlive_cleared; congruence.
Qed.

Lemma every_elimination_is_a_death_witness :
  filter isPlayerEliminated (traceOf (perform (PostDayVote "P6" "T") tiedDay))
  = [(ToRoom "g1", playerEliminated "T" ByVote)]
  /\ aliveCount (players (docOf (perform (PostDayVote "P6" "T") tiedDay))) + 1
     = aliveCount (players tiedDay).
Proof.
  split; [reflexivity|].
  destruct (every_elimination_is_a_death (PostDayVote "P6" "T") tiedDay
              tiedDay_sound) as (_ & [[Hnone _] | (t & k & _ & _ & _ & _ & Hc)]
                                 & _).
  - vm_compute in Hnone. discriminate.
  - exact Hc.
Defined.
